(** * SDN load balancer: server registry, backend selection and flow programming

    A shallow embedding of [controller/ryu_utils.py] (class [LoadBalancer],
    dataclass [ServerMetrics]) and of the flow-programming part of
    [controller/ryu_lb_basic.py] (class [SDNLoadBalancer]), followed by the
    properties of the selection policies, of the health probe, of request
    recording, of configuration parsing and of rule installation, and by
    further properties of the statistics, of the health monitor, of the
    packet handler and of the algorithm route of the management API.

    Modelling conventions.
    - Python [float] is IEEE 754 binary64: Rocq's primitive [float], with the
      same operations and the same rounding.  Python [int] is [Z].
    - A Python [dict] keeps insertion order, and round-robin selection depends
      on it: a dict is an association list, assignment to an existing key
      replaces the value in place, assignment to a new key appends.
    - A method that mutates [self] takes the state and returns the new state
      next to its result.  An exception is a [Raise] result.
    - Strings are sequences of ASCII characters.  [int] and [str] convert
      integers of any size: the cap that recent interpreters put on the
      number of digits of a conversion (4300 unless configured) is not
      modelled.
    - [logger] calls do not change the state; they are left out, except in
      [_parse_servers], whose error log is part of what is specified.
    - The daemon threads (health monitor, management API) are not started by
      the model: [_check_server_health] is the step the monitor repeats, and
      what the threads do to a load balancer is a sequence of operations,
      each taken as one step. *)

From Stdlib Require Import ZArith List String Ascii Bool Lia Permutation.
From Stdlib Require Import Floats DecimalString DecimalZ DecimalPos.
Import ListNotations.

Set Warnings "-inexact-float".

Local Open Scope string_scope.
Local Open Scope list_scope.
Local Open Scope Z_scope.

(** ** Python primitives *)

Module Py.

Inductive exn : Type :=
| ValueError
| IndexError.

Inductive result (A : Type) : Type :=
| Ok (a : A)
| Raise (e : exn).
Arguments Ok {A} a.
Arguments Raise {A} e.

(** [str(n)] for an [int]. *)
Definition str_of_int (n : Z) : string :=
  NilZero.string_of_int (Z.to_int n).

(** *** Insertion-ordered dictionaries *)

Definition dict (V : Type) : Type := list (string * V).

Fixpoint dict_get {V : Type} (d : dict V) (k : string) : option V :=
  match d with
  | [] => None
  | (k', v) :: d' => if String.eqb k' k then Some v else dict_get d' k
  end.

(** [d[k] = v] *)
Fixpoint dict_set {V : Type} (d : dict V) (k : string) (v : V) : dict V :=
  match d with
  | [] => [(k, v)]
  | (k', v') :: d' =>
      if String.eqb k' k then (k', v) :: d' else (k', v') :: dict_set d' k v
  end.

(** [d.get(k, default)] *)
Definition dict_get_default {V : Type} (d : dict V) (k : string) (default : V) : V :=
  match dict_get d k with Some v => v | None => default end.

Definition dict_keys {V : Type} (d : dict V) : list string := map fst d.
Definition dict_values {V : Type} (d : dict V) : list V := map snd d.

(** *** Sequences *)

(** [l[i]], negative indices counting from the end. *)
Definition getitem {A : Type} (l : list A) (i : Z) : result A :=
  let n := Z.of_nat (List.length l) in
  let j := if i <? 0 then n + i else i in
  if j <? 0 then Raise IndexError
  else match nth_error l (Z.to_nat j) with
       | Some x => Ok x
       | None => Raise IndexError
       end.

(** [max(a, b)] on floats: the first argument is kept unless the second is
    strictly greater. *)
Definition max2 (a b : float) : float :=
  if PrimFloat.ltb a b then b else a.

(** The loop of [max(iterable, key=...)]: the running maximum is replaced
    only by an item whose key is strictly greater. *)
Fixpoint max_loop {A : Type} (key : A -> float) (cur : A) (l : list A) : A :=
  match l with
  | [] => cur
  | x :: l' => max_loop key (if PrimFloat.ltb (key cur) (key x) then x else cur) l'
  end.

Definition max_key {A : Type} (key : A -> float) (l : list A) : result A :=
  match l with
  | [] => Raise ValueError
  | x :: l' => Ok (max_loop key x l')
  end.

(** The loop of [min(iterable, key=...)] with integer keys. *)
Fixpoint min_loop {A : Type} (key : A -> Z) (cur : A) (l : list A) : A :=
  match l with
  | [] => cur
  | x :: l' => min_loop key (if key x <? key cur then x else cur) l'
  end.

Definition min_key {A : Type} (key : A -> Z) (l : list A) : result A :=
  match l with
  | [] => Raise ValueError
  | x :: l' => Ok (min_loop key x l')
  end.

(** [sum(...)] of floats, accumulated from the left starting at [0] (the
    plain accumulation of CPython before 3.12; later versions compensate the
    rounding error of the running total). *)
Definition sum (l : list float) : float :=
  fold_left PrimFloat.add l 0%float.

End Py.
Import Py.

(** ** [ryu_utils.py] *)

Inductive LoadBalancingAlgorithm : Type :=
| ROUND_ROBIN
| LEAST_CONNECTIONS
| LATENCY_WEIGHTED
| WEIGHTED_ROUND_ROBIN.

Definition algorithm_value (a : LoadBalancingAlgorithm) : string :=
  match a with
  | ROUND_ROBIN => "round_robin"
  | LEAST_CONNECTIONS => "least_connections"
  | LATENCY_WEIGHTED => "latency_weighted"
  | WEIGHTED_ROUND_ROBIN => "weighted_round_robin"
  end.

(** Server metrics for load balancing decisions. *)
Record ServerMetrics : Type := mkServerMetrics {
  ip : string;
  port : Z;
  healthy : bool;
  last_latency_ms : float;
  cpu_percent : float;
  memory_percent : float;
  active_connections : Z;
  total_requests : Z;
  last_health_check : float;
  weight : float
}.

(** [ServerMetrics(ip=ip, port=port)]: the dataclass defaults. *)
Definition new_ServerMetrics (ip : string) (port : Z) : ServerMetrics :=
  {| ip := ip; port := port; healthy := true; last_latency_ms := 0%float;
     cpu_percent := 0%float; memory_percent := 0%float;
     active_connections := 0; total_requests := 0;
     last_health_check := 0%float; weight := 1%float |}.

Definition format_server_id (ip : string) (port : Z) : string :=
  (ip ++ ":" ++ str_of_int port)%string.

Definition server_id (s : ServerMetrics) : string :=
  format_server_id (ip s) (port s).

Definition endpoint (s : ServerMetrics) : string :=
  ("http://" ++ ip s ++ ":" ++ str_of_int (port s))%string.

(** Attribute assignments. *)
Definition set_healthy (s : ServerMetrics) (b : bool) : ServerMetrics :=
  {| ip := ip s; port := port s; healthy := b;
     last_latency_ms := last_latency_ms s; cpu_percent := cpu_percent s;
     memory_percent := memory_percent s;
     active_connections := active_connections s;
     total_requests := total_requests s;
     last_health_check := last_health_check s; weight := weight s |}.

Definition set_last_latency_ms (s : ServerMetrics) (x : float) : ServerMetrics :=
  {| ip := ip s; port := port s; healthy := healthy s;
     last_latency_ms := x; cpu_percent := cpu_percent s;
     memory_percent := memory_percent s;
     active_connections := active_connections s;
     total_requests := total_requests s;
     last_health_check := last_health_check s; weight := weight s |}.

Definition set_cpu_percent (s : ServerMetrics) (x : float) : ServerMetrics :=
  {| ip := ip s; port := port s; healthy := healthy s;
     last_latency_ms := last_latency_ms s; cpu_percent := x;
     memory_percent := memory_percent s;
     active_connections := active_connections s;
     total_requests := total_requests s;
     last_health_check := last_health_check s; weight := weight s |}.

Definition set_memory_percent (s : ServerMetrics) (x : float) : ServerMetrics :=
  {| ip := ip s; port := port s; healthy := healthy s;
     last_latency_ms := last_latency_ms s; cpu_percent := cpu_percent s;
     memory_percent := x;
     active_connections := active_connections s;
     total_requests := total_requests s;
     last_health_check := last_health_check s; weight := weight s |}.

Definition set_total_requests (s : ServerMetrics) (n : Z) : ServerMetrics :=
  {| ip := ip s; port := port s; healthy := healthy s;
     last_latency_ms := last_latency_ms s; cpu_percent := cpu_percent s;
     memory_percent := memory_percent s;
     active_connections := active_connections s;
     total_requests := n;
     last_health_check := last_health_check s; weight := weight s |}.

Definition set_last_health_check (s : ServerMetrics) (x : float) : ServerMetrics :=
  {| ip := ip s; port := port s; healthy := healthy s;
     last_latency_ms := last_latency_ms s; cpu_percent := cpu_percent s;
     memory_percent := memory_percent s;
     active_connections := active_connections s;
     total_requests := total_requests s;
     last_health_check := x; weight := weight s |}.

Definition set_weight (s : ServerMetrics) (x : float) : ServerMetrics :=
  {| ip := ip s; port := port s; healthy := healthy s;
     last_latency_ms := last_latency_ms s; cpu_percent := cpu_percent s;
     memory_percent := memory_percent s;
     active_connections := active_connections s;
     total_requests := total_requests s;
     last_health_check := last_health_check s; weight := x |}.

(** SDN-based load balancer with multiple algorithms. *)
Record LoadBalancer : Type := mkLoadBalancer {
  servers : dict ServerMetrics;
  current_algorithm : LoadBalancingAlgorithm;
  round_robin_index : Z;
  health_check_interval : Z;
  request_counts : dict Z
}.

Definition with_servers (self : LoadBalancer) (d : dict ServerMetrics) : LoadBalancer :=
  {| servers := d; current_algorithm := current_algorithm self;
     round_robin_index := round_robin_index self;
     health_check_interval := health_check_interval self;
     request_counts := request_counts self |}.

Definition with_round_robin_index (self : LoadBalancer) (i : Z) : LoadBalancer :=
  {| servers := servers self; current_algorithm := current_algorithm self;
     round_robin_index := i;
     health_check_interval := health_check_interval self;
     request_counts := request_counts self |}.

Definition with_request_counts (self : LoadBalancer) (d : dict Z) : LoadBalancer :=
  {| servers := servers self; current_algorithm := current_algorithm self;
     round_robin_index := round_robin_index self;
     health_check_interval := health_check_interval self;
     request_counts := d |}.

(** The loop of [LoadBalancer.__init__]: one fresh descriptor and one zeroed
    counter per configured pair, both keyed by the server id. *)
Fixpoint init_servers (self : LoadBalancer) (l : list (string * Z)) : LoadBalancer :=
  match l with
  | [] => self
  | (ip, port) :: l' =>
      let server_id := format_server_id ip port in
      let self := with_servers self (dict_set (servers self) server_id (new_ServerMetrics ip port)) in
      let self := with_request_counts self (dict_set (request_counts self) server_id 0) in
      init_servers self l'
  end.

Definition new_LoadBalancer (l : list (string * Z)) : LoadBalancer :=
  init_servers
    {| servers := []; current_algorithm := ROUND_ROBIN; round_robin_index := 0;
       health_check_interval := 5; request_counts := [] |}
    l.

Definition set_algorithm (self : LoadBalancer) (algorithm : LoadBalancingAlgorithm) : LoadBalancer :=
  {| servers := servers self; current_algorithm := algorithm;
     round_robin_index := round_robin_index self;
     health_check_interval := health_check_interval self;
     request_counts := request_counts self |}.

(** [[s for s in self.servers.values() if s.healthy]] *)
Definition get_healthy_servers (self : LoadBalancer) : list ServerMetrics :=
  filter healthy (dict_values (servers self)).

(** Round-robin server selection.  The cursor is [self.round_robin_index];
    the new cursor is returned next to the selected server. *)
Definition _round_robin_select (round_robin_index : Z) (servers : list ServerMetrics)
  : result (option ServerMetrics) * Z :=
  match servers with
  | [] => (Ok None, round_robin_index)
  | _ :: _ =>
      match getitem servers (round_robin_index mod Z.of_nat (List.length servers)) with
      | Ok server => (Ok (Some server), round_robin_index + 1)
      | Raise e => (Raise e, round_robin_index)
      end
  end.

(** Select server with least active connections. *)
Definition _least_connections_select (servers : list ServerMetrics)
  : result ServerMetrics :=
  min_key active_connections servers.

(** The weight assigned by the latency-weighted policy. *)
Definition latency_weight (server : ServerMetrics) : float :=
  if PrimFloat.ltb 0 (last_latency_ms server)
  then (1 / last_latency_ms server)%float
  else 1%float.

(** Select server based on inverse latency weighting.  The servers of the
    list are the registry's own objects; the list with the weights assigned
    is returned next to the selection. *)
Definition _latency_weighted_select (servers : list ServerMetrics)
  : result (option ServerMetrics) * list ServerMetrics :=
  match servers with
  | [] => (Ok None, servers)
  | _ :: _ =>
      let servers := map (fun server => set_weight server (latency_weight server)) servers in
      let total_weight := sum (map weight servers) in
      if PrimFloat.eqb total_weight 0
      then match getitem servers 0 with
           | Ok server => (Ok (Some server), servers)
           | Raise e => (Raise e, servers)
           end
      else match max_key weight servers with
           | Ok server => (Ok (Some server), servers)
           | Raise e => (Raise e, servers)
           end
  end.

(** The weight assigned by the weighted-round-robin policy. *)
Definition performance_weight (server : ServerMetrics) : float :=
  let cpu_weight := max2 0.1 (1 - cpu_percent server / 100)%float in
  let memory_weight := max2 0.1 (1 - memory_percent server / 100)%float in
  ((cpu_weight + memory_weight) / 2)%float.

(** Weighted round-robin based on server performance. *)
Definition _weighted_round_robin_select (servers : list ServerMetrics)
  : result ServerMetrics * list ServerMetrics :=
  let servers := map (fun server => set_weight server (performance_weight server)) servers in
  (max_key weight servers, servers).

(** The healthy list holds references to the registry's descriptors: what a
    policy assigns to the i-th element of the list is assigned to the i-th
    healthy descriptor of the registry. *)
Fixpoint store_healthy (d : dict ServerMetrics) (updated : list ServerMetrics)
  : dict ServerMetrics :=
  match d with
  | [] => []
  | (k, s) :: d' =>
      if healthy s
      then match updated with
           | s' :: updated' => (k, s') :: store_healthy d' updated'
           | [] => (k, s) :: store_healthy d' []
           end
      else (k, s) :: store_healthy d' updated
  end.

(** Select the best server based on current algorithm. *)
Definition select_server (self : LoadBalancer)
  : result (option ServerMetrics) * LoadBalancer :=
  let healthy_servers := filter healthy (dict_values (servers self)) in
  match healthy_servers with
  | [] => (Ok None, self)
  | _ :: _ =>
      match current_algorithm self with
      | ROUND_ROBIN =>
          let '(r, i) := _round_robin_select (round_robin_index self) healthy_servers in
          (r, with_round_robin_index self i)
      | LEAST_CONNECTIONS =>
          match _least_connections_select healthy_servers with
          | Ok server => (Ok (Some server), self)
          | Raise e => (Raise e, self)
          end
      | LATENCY_WEIGHTED =>
          let '(r, updated) := _latency_weighted_select healthy_servers in
          (r, with_servers self (store_healthy (servers self) updated))
      | WEIGHTED_ROUND_ROBIN =>
          let '(r, updated) := _weighted_round_robin_select healthy_servers in
          (match r with Ok server => Ok (Some server) | Raise e => Raise e end,
           with_servers self (store_healthy (servers self) updated))
      end
  end.

(** Record a completed request for metrics. *)
Definition record_request (self : LoadBalancer) (server_id : string) (latency_ms : float)
  : LoadBalancer :=
  match dict_get (servers self) server_id with
  | Some server =>
      let server := set_last_latency_ms server latency_ms in
      let server := set_total_requests server (total_requests server + 1) in
      let self := with_servers self (dict_set (servers self) server_id server) in
      with_request_counts self
        (dict_set (request_counts self) server_id
           (dict_get_default (request_counts self) server_id 0 + 1))
  | None => self
  end.

(** *** Health probe

    What [_check_server_health] observes of the outside world: the clock
    readings of [time.time()], and what [requests.get] and
    [response.json()] give.  The body is described as far as the method
    looks into it; the metrics it reads are numbers, as the fields they are
    stored in are declared.  The method does not check that: a reading that
    is not a number would be stored as it is with the server left healthy,
    and the arithmetic of the weighted-round-robin policy would raise on
    it.  Such bodies are outside this description. *)

Inductive metrics_json : Type :=
| MetricsNotDict
    (* the value under "metrics" has no [get]: null, number, string, list *)
| MetricsDict (cpu_percent memory_percent : option float)
    (* an object; [None] when the key is absent *).

Inductive health_body : Type :=
| BodyInvalid
    (* [response.json()] raises: the body is not JSON *)
| BodyNotDict
    (* valid JSON but not an object: it has no [get] *)
| BodyDict (metrics : option metrics_json)
    (* an object; [None] when it has no "metrics" key *).

Inductive probe : Type :=
| RequestFailed
    (* [requests.get] raises: timeout, connection error *)
| Response (end_time : float) (status_code : Z) (body : health_body) (now : float).

(** [health_data.get("metrics", {})] followed by the two [metrics.get];
    [None] where Python raises. *)
Definition read_metrics (body : health_body) : option (float * float) :=
  match body with
  | BodyInvalid => None
  | BodyNotDict => None
  | BodyDict None => Some (0%float, 0%float)
  | BodyDict (Some MetricsNotDict) => None
  | BodyDict (Some (MetricsDict cpu mem)) =>
      Some (match cpu with Some c => c | None => 0%float end,
            match mem with Some m => m | None => 0%float end)
  end.

(** Check health of a single server. *)
Definition _check_server_health (server : ServerMetrics) (start_time : float) (p : probe)
  : ServerMetrics :=
  match p with
  | RequestFailed => set_healthy server false
  | Response end_time status_code body now =>
      let latency_ms := ((end_time - start_time) * 1000)%float in
      if status_code =? 200 then
        let server := set_healthy server true in
        let server := set_last_latency_ms server latency_ms in
        let server := set_last_health_check server now in
        match read_metrics body with
        | Some (cpu, mem) =>
            let server := set_cpu_percent server cpu in
            set_memory_percent server mem
        | None => set_healthy server false
        end
      else set_healthy server false
  end.

(** ** String functions of the configuration parser *)

Module PyStr.

(** [str.isspace] on ASCII: tab, line feed, vertical tab, form feed,
    carriage return, the four separators 0x1c-0x1f, and space. *)
Definition is_space (c : ascii) : bool :=
  let n := nat_of_ascii c in
  ((9 <=? n) && (n <=? 13) || (28 <=? n) && (n <=? 32))%nat.

(** Whitespace as [int] skips it around a literal: tab, line feed,
    vertical tab, form feed, carriage return and space.  On an ASCII string
    the separators 0x1c-0x1f are not among them. *)
Definition is_int_space (c : ascii) : bool :=
  let n := nat_of_ascii c in
  ((9 <=? n) && (n <=? 13) || (n =? 32))%nat.

(** The string without its longest prefix, or suffix, of characters that
    [drop] holds of. *)
Fixpoint lstrip_chars (drop : ascii -> bool) (s : string) : string :=
  match s with
  | EmptyString => EmptyString
  | String c s' => if drop c then lstrip_chars drop s' else s
  end.

Fixpoint rstrip_chars (drop : ascii -> bool) (s : string) : string :=
  match s with
  | EmptyString => EmptyString
  | String c s' =>
      match rstrip_chars drop s' with
      | EmptyString => if drop c then EmptyString else String c EmptyString
      | r => String c r
      end
  end.

(** [s.strip()] *)
Definition strip (s : string) : string :=
  rstrip_chars is_space (lstrip_chars is_space s).

(** [s.split(sep)] for a one-character separator: every occurrence
    splits, and the empty string gives one empty field. *)
Fixpoint split (sep : ascii) (s : string) : list string :=
  match s with
  | EmptyString => [EmptyString]
  | String c s' =>
      if Ascii.eqb c sep then EmptyString :: split sep s'
      else match split sep s' with
           | w :: ws => String c w :: ws
           | [] => [String c EmptyString]
           end
  end.

Definition digit_of (c : ascii) : option Z :=
  let n := nat_of_ascii c in
  if ((48 <=? n) && (n <=? 57))%nat then Some (Z.of_nat n - 48) else None.

(** Digits of a decimal literal, read from the left; a single underscore
    may separate two digits.  [after_digit] tells whether the previous
    character was a digit. *)
Fixpoint digits (acc : Z) (after_digit : bool) (s : string) : option Z :=
  match s with
  | EmptyString => if after_digit then Some acc else None
  | String c s' =>
      match digit_of c with
      | Some d => digits (10 * acc + d) true s'
      | None =>
          if Ascii.eqb c "_" && after_digit
          then match s' with
               | EmptyString => None
               | String c' _ =>
                   match digit_of c' with
                   | Some _ => digits acc false s'
                   | None => None
                   end
               end
          else None
      end
  end.

(** [int(s)] for a string, base 10: surrounding whitespace, an optional
    sign, then digits.  [None] where Python raises [ValueError]. *)
Definition int_of_str (s : string) : option Z :=
  match rstrip_chars is_int_space (lstrip_chars is_int_space s) with
  | EmptyString => None
  | String c s' =>
      if Ascii.eqb c "+" then digits 0 false s'
      else if Ascii.eqb c "-" then option_map Z.opp (digits 0 false s')
      else digits 0 false (String c s')
  end.

End PyStr.

(** ** [ryu_lb_basic.py] *)

(** Constants of the OpenFlow 1.3 protocol and of the packet library, as
    the controller framework defines them. *)
Definition ETH_TYPE_IP : Z := 0x0800.
Definition ETH_TYPE_LLDP : Z := 0x88cc.
Definition OFPP_CONTROLLER : Z := 0xfffffffd.
Definition OFPP_FLOOD : Z := 0xfffffffb.
Definition OFPCML_MAX : Z := 0xffe5.
Definition OFPCML_NO_BUFFER : Z := 0xffff.
Definition OFPIT_APPLY_ACTIONS : Z := 4.

(** [parser.OFPMatch(...)]: the fields given as keyword arguments. *)
Record OFPMatch : Type := mkOFPMatch {
  match_in_port : option Z;
  match_eth_type : option Z;
  match_ipv4_src : option string;
  match_ipv4_dst : option string
}.

Inductive OFPAction : Type :=
| OFPActionSetField (field : string) (value : string)
| OFPActionOutput (out_port : Z) (max_len : Z).

Inductive OFPInstruction : Type :=
| OFPInstructionActions (type : Z) (actions : list OFPAction).

(** Messages handed to [datapath.send_msg]. *)
Inductive OFPMessage : Type :=
| OFPFlowMod (datapath : Z) (buffer_id : option Z) (priority : Z)
    (match_ : OFPMatch) (instructions : list OFPInstruction)
| OFPPacketOut (datapath : Z) (buffer_id : Z) (in_port : Z)
    (actions : list OFPAction) (data : string).

(** What a handler does to the outside, in program order. *)
Inductive effect : Type :=
| SendMsg (m : OFPMessage)
| CounterInc (server_id algorithm : string).

(** Protocol headers of a parsed packet. *)
Inductive protocol : Type :=
| ethernet (ethertype : Z)
| ipv4 (src dst : string)
| other_protocol.

Record PacketIn : Type := mkPacketIn {
  ev_datapath : Z;
  ev_in_port : Z;
  ev_buffer_id : Z;
  ev_data : string;
  ev_pkt : list protocol
}.

Record SDNLoadBalancer : Type := mkSDNLoadBalancer {
  load_balancer : option LoadBalancer;
  virtual_ip : string;
  virtual_port : Z
}.

(** The process environment read at start-up; [None] for an unset variable. *)
Record environ : Type := mkEnviron {
  VIRTUAL_IP : option string;
  VIRTUAL_PORT : option string;
  BACKEND_SERVERS : option string
}.

Definition getenv (v : option string) (default : string) : string :=
  match v with Some s => s | None => default end.

(** The body of the [try] in [_parse_servers]; [None] on [ValueError]. *)
Definition parse_server (server_str : string) : option (string * Z) :=
  match PyStr.split ":" (PyStr.strip server_str) with
  | [ip; port] =>
      match PyStr.int_of_str port with
      | Some n => Some (ip, n)
      | None => None
      end
  | _ => None
  end.

Definition invalid_server_message (server_str : string) : string :=
  ("Invalid server format: " ++ server_str)%string.

(** The loop of [_parse_servers], over the entries still to read: the
    servers appended so far and the errors logged so far are threaded. *)
Fixpoint parse_servers_loop (entries : list string)
  (servers : list (string * Z)) (errors : list string)
  : list (string * Z) * list string :=
  match entries with
  | [] => (servers, errors)
  | server_str :: entries' =>
      match parse_server server_str with
      | Some server => parse_servers_loop entries' (servers ++ [server]) errors
      | None =>
          parse_servers_loop entries' servers
            (errors ++ [invalid_server_message server_str])
      end
  end.

(** Parse server list from environment variables.  Returns the servers and
    the messages logged at level error. *)
Definition _parse_servers (env : environ) : list (string * Z) * list string :=
  let servers_env := getenv (BACKEND_SERVERS env) "" in
  if String.eqb servers_env ""
  then ([("127.0.0.1", 5001); ("127.0.0.1", 5002)], [])
  else parse_servers_loop (PyStr.split "," servers_env) [] [].

(** [SDNLoadBalancer.__init__], up to the start of the management API.
    [int(os.getenv('VIRTUAL_PORT', 80))] raises on a string that is not an
    integer. *)
Definition new_SDNLoadBalancer (env : environ) : result SDNLoadBalancer * list string :=
  let virtual_ip := getenv (VIRTUAL_IP env) "10.0.0.100" in
  match match VIRTUAL_PORT env with
        | Some s => PyStr.int_of_str s
        | None => Some 80
        end with
  | None => (Raise ValueError, [])
  | Some virtual_port =>
      let '(servers, errors) := _parse_servers env in
      (Ok {| load_balancer :=
               match servers with
               | [] => None
               | _ :: _ => Some (new_LoadBalancer servers)
               end;
             virtual_ip := virtual_ip;
             virtual_port := virtual_port |},
       errors)
  end.

(** Add a flow entry to the switch. *)
Definition add_flow (datapath : Z) (priority : Z) (match_ : OFPMatch)
  (actions : list OFPAction) (buffer_id : option Z) : list effect :=
  let inst := [OFPInstructionActions OFPIT_APPLY_ACTIONS actions] in
  match buffer_id with
  | Some b =>
      if b =? 0
      then [SendMsg (OFPFlowMod datapath None priority match_ inst)]
      else [SendMsg (OFPFlowMod datapath (Some b) priority match_ inst)]
  | None => [SendMsg (OFPFlowMod datapath None priority match_ inst)]
  end.

Definition empty_match : OFPMatch :=
  {| match_in_port := None; match_eth_type := None;
     match_ipv4_src := None; match_ipv4_dst := None |}.

(** Handle switch connection: install the default flow (send to controller). *)
Definition switch_features_handler (datapath : Z) : list effect :=
  let match_ := empty_match in
  let actions := [OFPActionOutput OFPP_CONTROLLER OFPCML_NO_BUFFER] in
  add_flow datapath 0 match_ actions None.

(** Install flow rules for load balancing. *)
Definition _install_load_balance_flow (self : SDNLoadBalancer)
  (datapath : Z) (in_port : Z) (client_ip : string) (server : ServerMetrics)
  : list effect :=
  (* Forward flow: client -> server *)
  let match_forward :=
    {| match_in_port := Some in_port; match_eth_type := Some ETH_TYPE_IP;
       match_ipv4_src := Some client_ip;
       match_ipv4_dst := Some (virtual_ip self) |} in
  let actions_forward :=
    [OFPActionSetField "ipv4_dst" (ip server); OFPActionOutput 2 OFPCML_MAX] in
  let sent_forward := add_flow datapath 10 match_forward actions_forward None in
  (* Return flow: server -> client *)
  let match_return :=
    {| match_in_port := Some 2; match_eth_type := Some ETH_TYPE_IP;
       match_ipv4_src := Some (ip server);
       match_ipv4_dst := Some client_ip |} in
  let actions_return :=
    [OFPActionSetField "ipv4_src" (virtual_ip self); OFPActionOutput in_port OFPCML_MAX] in
  sent_forward ++ add_flow datapath 10 match_return actions_return None.

(** [pkt.get_protocols(ethernet.ethernet)] *)
Definition get_ethernets (pkt : list protocol) : list Z :=
  flat_map (fun p => match p with ethernet t => [t] | _ => [] end) pkt.

(** [pkt.get_protocol(ipv4.ipv4)]: the first IPv4 header, if any. *)
Fixpoint get_ipv4 (pkt : list protocol) : option (string * string) :=
  match pkt with
  | [] => None
  | ipv4 src dst :: _ => Some (src, dst)
  | _ :: pkt' => get_ipv4 pkt'
  end.

Definition with_load_balancer (self : SDNLoadBalancer) (lb : LoadBalancer) : SDNLoadBalancer :=
  {| load_balancer := Some lb; virtual_ip := virtual_ip self;
     virtual_port := virtual_port self |}.

(** Handle incoming packets. *)
Definition packet_in_handler (self : SDNLoadBalancer) (ev : PacketIn)
  : result unit * SDNLoadBalancer * list effect :=
  match load_balancer self with
  | None => (Ok tt, self, [])
  | Some lb =>
      let datapath := ev_datapath ev in
      let in_port := ev_in_port ev in
      let flood :=
        [SendMsg (OFPPacketOut datapath (ev_buffer_id ev) in_port
                    [OFPActionOutput OFPP_FLOOD OFPCML_MAX] (ev_data ev))] in
      match getitem (get_ethernets (ev_pkt ev)) 0 with
      | Raise e => (Raise e, self, [])
      | Ok ethertype =>
          if ethertype =? ETH_TYPE_LLDP then (Ok tt, self, [])
          else if ethertype =? ETH_TYPE_IP then
            match get_ipv4 (ev_pkt ev) with
            | Some (src, dst) =>
                if String.eqb dst (virtual_ip self) then
                  match select_server lb with
                  | (Raise e, lb') => (Raise e, with_load_balancer self lb', [])
                  | (Ok (Some selected_server), lb') =>
                      (Ok tt, with_load_balancer self lb',
                       _install_load_balance_flow self datapath in_port src selected_server
                       ++ [CounterInc (server_id selected_server)
                             (algorithm_value (current_algorithm lb'))]
                       ++ flood)
                  | (Ok None, lb') => (Ok tt, with_load_balancer self lb', flood)
                  end
                else (Ok tt, self, flood)
            | None => (Ok tt, self, flood)
            end
          else (Ok tt, self, flood)
      end
  end.

(** The flow rules among the effects of a handler. *)
Definition flow_mods (effects : list effect) : list OFPMessage :=
  flat_map (fun e => match e with
                     | SendMsg (OFPFlowMod d b p m i) => [OFPFlowMod d b p m i]
                     | _ => []
                     end) effects.

(** ** The rest of [ryu_utils.py] and of the management API *)

(** [sum(...)] of integers. *)
Definition sum_int (l : list Z) : Z := fold_left Z.add l 0.

(** One entry of the ["servers"] list of [get_server_stats]. *)
Record ServerStats : Type := mkServerStats {
  stat_server_id : string;
  stat_ip : string;
  stat_port : Z;
  stat_healthy : bool;
  stat_request_count : Z;
  stat_latency_ms : float;
  stat_cpu_percent : float;
  stat_memory_percent : float;
  stat_active_connections : Z;
  stat_weight : float
}.

Record Stats : Type := mkStats {
  stats_algorithm : string;
  stats_servers : list ServerStats;
  stats_total_requests : Z
}.

Section GetServerStats.

(** The builtin [round(x, ndigits)] on floats. *)
Variable py_round : float -> Z -> float.

(** Get current server statistics for UI. *)
Definition get_server_stats (self : LoadBalancer) : Stats :=
  {| stats_algorithm := algorithm_value (current_algorithm self);
     stats_servers :=
       map (fun '(server_id, server) =>
              {| stat_server_id := server_id;
                 stat_ip := ip server;
                 stat_port := port server;
                 stat_healthy := healthy server;
                 stat_request_count := dict_get_default (request_counts self) server_id 0;
                 stat_latency_ms := py_round (last_latency_ms server) 2;
                 stat_cpu_percent := py_round (cpu_percent server) 2;
                 stat_memory_percent := py_round (memory_percent server) 2;
                 stat_active_connections := active_connections server;
                 stat_weight := py_round (weight server) 3 |})
           (servers self);
     stats_total_requests := sum_int (dict_values (request_counts self)) |}.

End GetServerStats.

(** One pass of the [for] loop of [_health_monitor]: every descriptor of the
    registry is checked in registry order.  [world] gives, for the server
    stored under a key, what its check observes: the clock reading at the
    start and the outcome of the request. *)
Definition health_monitor_pass (self : LoadBalancer) (world : string -> float * probe)
  : LoadBalancer :=
  with_servers self
    (map (fun '(server_id, server) =>
            (server_id,
             _check_server_health server (fst (world server_id)) (snd (world server_id))))
       (servers self)).

(** One step of that loop, as a step of its own: the check of the descriptor
    stored under a key.  The loop only visits keys of the registry; for any
    other key there is nothing to check. *)
Definition check_registered_server (self : LoadBalancer) (server_id : string)
  (start_time : float) (p : probe) : LoadBalancer :=
  match dict_get (servers self) server_id with
  | Some server =>
      with_servers self
        (dict_set (servers self) server_id (_check_server_health server start_time p))
  | None => self
  end.

(** [LoadBalancingAlgorithm(name)]: the member with that value; [None] where
    the enumeration raises [ValueError]. *)
Definition algorithm_of_value (name : string) : option LoadBalancingAlgorithm :=
  if String.eqb name "round_robin" then Some ROUND_ROBIN
  else if String.eqb name "least_connections" then Some LEAST_CONNECTIONS
  else if String.eqb name "latency_weighted" then Some LATENCY_WEIGHTED
  else if String.eqb name "weighted_round_robin" then Some WEIGHTED_ROUND_ROBIN
  else None.

Inductive http_method : Type := GET | POST.

(** Answers of the route [/api/algorithm]. *)
Inductive api_response : Type :=
| JsonAlgorithm (algorithm : string)
    (* 200, the current algorithm *)
| JsonUpdated (algorithm : string)
    (* 200, the algorithm with status "updated" *)
| JsonError (status : Z)
    (* an error message with this status *).

(** Get or set load balancing algorithm.  The body of a POST is a JSON
    object; [algorithm_name] is its ["algorithm"] member when that is a
    string, [None] otherwise (the enumeration has no such value).  Returned
    with the answer: the new state, and the label of the gauge
    [LB_ALGORITHM_CURRENT] that was set to 1, if any. *)
Definition manage_algorithm (self : SDNLoadBalancer) (method : http_method)
  (algorithm_name : option string)
  : api_response * SDNLoadBalancer * option string :=
  match load_balancer self with
  | None => (JsonError 500, self, None)
  | Some lb =>
      match method with
      | GET => (JsonAlgorithm (algorithm_value (current_algorithm lb)), self, None)
      | POST =>
          match algorithm_name with
          | Some name =>
              match algorithm_of_value name with
              | Some algorithm =>
                  (JsonUpdated name, with_load_balancer self (set_algorithm lb algorithm),
                   Some name)
              | None => (JsonError 400, self, None)
              end
          | None => (JsonError 400, self, None)
          end
      end
  end.

(** ** Vocabulary of the properties *)

(** *** Binary64 values *)

(** A value that is neither NaN nor negative: a zero of either sign, a
    positive number or plus infinity. *)
Definition SFnonneg (x : spec_float) : bool :=
  match x with
  | S754_zero _ => true
  | S754_infinity s => negb s
  | S754_nan => false
  | S754_finite s _ _ => negb s
  end.

(** A positive number or plus infinity. *)
Definition SFpositive (x : spec_float) : bool :=
  match x with
  | S754_infinity s => negb s
  | S754_finite s _ _ => negb s
  | _ => false
  end.

(** A zero of either sign. *)
Definition SFis_zero (x : spec_float) : bool :=
  match x with
  | S754_zero _ => true
  | _ => false
  end.

(** *** Selection *)

(** The assignments the two weighted policies make to a server. *)
Definition assign_performance_weight (s : ServerMetrics) : ServerMetrics :=
  set_weight s (performance_weight s).

Definition assign_latency_weight (s : ServerMetrics) : ServerMetrics :=
  set_weight s (latency_weight s).

(** Combined resource usage of a server, [cpu/100 + mem/100]. *)
Definition combined_usage (s : ServerMetrics) : float :=
  (cpu_percent s / 100 + memory_percent s / 100)%float.

(** The descriptor a policy returns for the healthy server [s]: the two
    weighted policies have assigned its weight. *)
Definition selected_as (algorithm : LoadBalancingAlgorithm) (s : ServerMetrics)
  : ServerMetrics :=
  match algorithm with
  | ROUND_ROBIN | LEAST_CONNECTIONS => s
  | LATENCY_WEIGHTED => assign_latency_weight s
  | WEIGHTED_ROUND_ROBIN => assign_performance_weight s
  end.

(** [l] read cyclically from position [k]. *)
Definition rotate {A : Type} (k : nat) (l : list A) : list A :=
  skipn k l ++ firstn k l.

(** [n] consecutive calls of [select_server]: the results in call order and
    the final state. *)
Fixpoint select_n (n : nat) (self : LoadBalancer)
  : list (result (option ServerMetrics)) * LoadBalancer :=
  match n with
  | O => ([], self)
  | S n' =>
      let '(r, self) := select_server self in
      let '(rs, self) := select_n n' self in
      (r :: rs, self)
  end.

(** *** Health probe *)

(** A probe failure, as the specification lists them: the request itself
    fails (timeout, connection error), the status is not a 2xx, or the body
    cannot be read as the expected JSON. *)
Definition is_2xx (status_code : Z) : bool :=
  (200 <=? status_code) && (status_code <=? 299).

Definition probe_failed (p : probe) : bool :=
  match p with
  | RequestFailed => true
  | Response _ status_code body _ =>
      negb (is_2xx status_code)
      || match read_metrics body with Some _ => false | None => true end
  end.

(** *** Registry *)

(** The keys of a dictionary after an assignment to [k]. *)
Fixpoint add_key (keys : list string) (k : string) : list string :=
  match keys with
  | [] => [k]
  | k' :: keys' => if String.eqb k' k then keys else k' :: add_key keys' k
  end.

(** The distinct strings of a list, in order of first occurrence. *)
Definition distinct (l : list string) : list string :=
  fold_left add_key l [].

(** The server ids of a configured list of pairs. *)
Definition configured_ids (l : list (string * Z)) : list string :=
  map (fun '(ip, port) => format_server_id ip port) l.

(** No character of the string is a colon. *)
Fixpoint no_colon (s : string) : bool :=
  match s with
  | EmptyString => true
  | String c s' => negb (Ascii.eqb c ":") && no_colon s'
  end.

(** Equality of configured pairs is decidable. *)
Definition pair_eq_dec (x y : string * Z) : {x = y} + {x <> y}.
Proof. decide equality; [apply Z.eq_dec | apply string_dec]. Defined.

(** *** Configuration *)

(** The entries of the configured list that parse, as pairs, and those that
    do not. *)
Definition well_formed_servers (entries : list string) : list (string * Z) :=
  flat_map (fun e => match parse_server e with Some p => [p] | None => [] end) entries.

Definition malformed_entries (entries : list string) : list string :=
  filter (fun e => match parse_server e with Some _ => false | None => true end) entries.

(** *** Flow rules *)

(** The priority of a flow rule. *)
Definition flow_priority (m : OFPMessage) : option Z :=
  match m with
  | OFPFlowMod _ _ priority _ _ => Some priority
  | OFPPacketOut _ _ _ _ _ => None
  end.

(** The forward rule (client to server) and the return rule (server to
    client) for a client seen on [in_port] and a selected server. *)
Definition forward_rule (datapath in_port : Z) (client_ip virtual_ip server_ip : string)
  : OFPMessage :=
  OFPFlowMod datapath None 10
    {| match_in_port := Some in_port; match_eth_type := Some ETH_TYPE_IP;
       match_ipv4_src := Some client_ip; match_ipv4_dst := Some virtual_ip |}
    [OFPInstructionActions OFPIT_APPLY_ACTIONS
       [OFPActionSetField "ipv4_dst" server_ip; OFPActionOutput 2 OFPCML_MAX]].

Definition return_rule (datapath in_port : Z) (client_ip virtual_ip server_ip : string)
  : OFPMessage :=
  OFPFlowMod datapath None 10
    {| match_in_port := Some 2; match_eth_type := Some ETH_TYPE_IP;
       match_ipv4_src := Some server_ip; match_ipv4_dst := Some client_ip |}
    [OFPInstructionActions OFPIT_APPLY_ACTIONS
       [OFPActionSetField "ipv4_src" virtual_ip; OFPActionOutput in_port OFPCML_MAX]].

(** The default rule: match everything, send to the controller. *)
Definition default_rule (datapath : Z) : OFPMessage :=
  OFPFlowMod datapath None 0 empty_match
    [OFPInstructionActions OFPIT_APPLY_ACTIONS
       [OFPActionOutput OFPP_CONTROLLER OFPCML_NO_BUFFER]].

(** *** Operations on a running load balancer *)

(** The probe ends with the server healthy: status 200 and a body the
    method can read. *)
Definition probe_succeeded (p : probe) : bool :=
  match p with
  | RequestFailed => false
  | Response _ status_code body _ =>
      (status_code =? 200)
      && match read_metrics body with Some _ => true | None => false end
  end.

(** What a selection assigns to a descriptor of the registry. *)
Definition after_selection (algorithm : LoadBalancingAlgorithm) (s : ServerMetrics)
  : ServerMetrics :=
  if healthy s then selected_as algorithm s else s.

(** The answer of [select_server], as it depends on the policy, the cursor
    and the healthy list. *)
Definition policy_answer (algorithm : LoadBalancingAlgorithm) (index : Z)
  (healthy_servers : list ServerMetrics) : result (option ServerMetrics) :=
  match healthy_servers with
  | [] => Ok None
  | _ :: _ =>
      match algorithm with
      | ROUND_ROBIN => fst (_round_robin_select index healthy_servers)
      | LEAST_CONNECTIONS =>
          match _least_connections_select healthy_servers with
          | Ok server => Ok (Some server)
          | Raise e => Raise e
          end
      | LATENCY_WEIGHTED => fst (_latency_weighted_select healthy_servers)
      | WEIGHTED_ROUND_ROBIN =>
          match fst (_weighted_round_robin_select healthy_servers) with
          | Ok server => Ok (Some server)
          | Raise e => Raise e
          end
      end
  end.

(** The keys of the healthy descriptors, in registry order. *)
Definition healthy_ids (self : LoadBalancer) : list string :=
  map fst (filter (fun e => healthy (snd e)) (servers self)).

(** The calls the controller and the monitor make on a load balancer. *)
Inductive operation : Type :=
| Select
| RecordRequest (server_id : string) (latency_ms : float)
| SetAlgorithm (algorithm : LoadBalancingAlgorithm)
| MonitorPass (world : string -> float * probe)
| CheckHealth (server_id : string) (start_time : float) (p : probe).

Definition perform (self : LoadBalancer) (op : operation) : LoadBalancer :=
  match op with
  | Select => snd (select_server self)
  | RecordRequest server_id latency_ms => record_request self server_id latency_ms
  | SetAlgorithm algorithm => set_algorithm self algorithm
  | MonitorPass world => health_monitor_pass self world
  | CheckHealth server_id start_time p =>
      check_registered_server self server_id start_time p
  end.

Definition run (self : LoadBalancer) (ops : list operation) : LoadBalancer :=
  fold_left perform ops self.

(** What holds of a load balancer built for the server ids [ids] at any
    later time: the registry and the request counts have exactly these
    keys, and every descriptor carries the id it is stored under, has no
    active connection, and has served as many requests as are counted for
    its key. *)
Definition registry_invariant (ids : list string) (self : LoadBalancer) : Prop :=
  dict_keys (servers self) = ids /\
  dict_keys (request_counts self) = ids /\
  forall k s,
    dict_get (servers self) k = Some s ->
    server_id s = k /\ active_connections s = 0 /\ 0 <= total_requests s /\
    dict_get (request_counts self) k = Some (total_requests s).

(** Whether an operation records a request for one of the server ids. *)
Definition records_for (ids : list string) (op : operation) : bool :=
  match op with
  | RecordRequest server_id _ => existsb (String.eqb server_id) ids
  | _ => false
  end.

(** The outcome of the latest health check of the server stored under a
    key, among the operations performed so far; [None] when it has not been
    checked yet. *)
Definition latest_probe (k : string) (ops : list operation) : option probe :=
  fold_left
    (fun latest op =>
       match op with
       | MonitorPass world => Some (snd (world k))
       | CheckHealth server_id _ p => if String.eqb server_id k then Some p else latest
       | _ => latest
       end)
    ops None.

(** A server that has not been checked yet counts as healthy. *)
Definition latest_probe_ok (k : string) (ops : list operation) : bool :=
  match latest_probe k ops with
  | Some p => probe_succeeded p
  | None => true
  end.

(** The requests recorded for a server id of the configuration. *)
Definition count_recorded (l : list (string * Z)) (ops : list operation) : Z :=
  Z.of_nat
    (List.length
       (filter (fun op =>
                  match op with
                  | RecordRequest server_id _ =>
                      existsb (String.eqb server_id) (configured_ids l)
                  | _ => false
                  end) ops)).

(** No character of the string is a comma. *)
Fixpoint no_comma (s : string) : bool :=
  match s with
  | EmptyString => true
  | String c s' => negb (Ascii.eqb c ",") && no_comma s'
  end.

(** No character of the string is whitespace. *)
Fixpoint no_space (s : string) : bool :=
  match s with
  | EmptyString => true
  | String c s' => negb (PyStr.is_space c) && no_space s'
  end.

(** *** The form of an entry, said without the parser *)

(** Every character of the string satisfies [p]. *)
Fixpoint all_chars (p : ascii -> bool) (s : string) : bool :=
  match s with
  | EmptyString => true
  | String c s' => p c && all_chars p s'
  end.

(** The first, or the last, character of the string satisfies [p]. *)
Definition starts_with (p : ascii -> bool) (s : string) : bool :=
  match s with
  | EmptyString => false
  | String c _ => p c
  end.

Fixpoint ends_with (p : ascii -> bool) (s : string) : bool :=
  match s with
  | EmptyString => false
  | String c EmptyString => p c
  | String _ s' => ends_with p s'
  end.

Definition is_digit (c : ascii) : bool :=
  ((48 <=? nat_of_ascii c) && (nat_of_ascii c <=? 57))%nat.

Definition digit_value (c : ascii) : Z := Z.of_nat (nat_of_ascii c) - 48.

Definition is_underscore (c : ascii) : bool := Ascii.eqb c "_".

(** No underscore is followed by another. *)
Fixpoint no_double_underscore (s : string) : bool :=
  match s with
  | EmptyString => true
  | String c s' =>
      negb (is_underscore c && starts_with is_underscore s')
      && no_double_underscore s'
  end.

(** Digits in groups: nothing but digits and underscores, a digit at
    either end, and no two underscores in a row. *)
Definition digit_groups (s : string) : bool :=
  all_chars (fun c => is_digit c || is_underscore c) s
  && no_double_underscore s
  && starts_with is_digit s
  && ends_with is_digit s.

(** The number that the digits of a string denote in base ten, after the
    digits [acc]; other characters are passed over. *)
Fixpoint decimal_from (acc : Z) (s : string) : Z :=
  match s with
  | EmptyString => acc
  | String c s' =>
      decimal_from (if is_digit c then 10 * acc + digit_value c else acc) s'
  end.

Definition decimal_value (s : string) : Z := decimal_from 0 s.

(** [text] is the decimal literal of the integer [n], as [int] accepts
    it: whitespace, an optional sign, digits in groups, whitespace. *)
Definition int_literal (text : string) (n : Z) : Prop :=
  exists before sign body after : string,
    text = (before ++ sign ++ body ++ after)%string /\
    all_chars PyStr.is_int_space before = true /\
    all_chars PyStr.is_int_space after = true /\
    digit_groups body = true /\
    (sign = ""%string /\ n = decimal_value body \/
     sign = "+"%string /\ n = decimal_value body \/
     sign = "-"%string /\ n = - decimal_value body).

(** [entry] is a well-formed entry for the address [ip] and the port
    [port]: apart from the whitespace around it, it is the address, a
    colon, and the literal of the port, with no other colon. *)
Definition well_formed_entry (entry ip : string) (port : Z) : Prop :=
  exists before port_text after : string,
    entry = (before ++ (ip ++ ":" ++ port_text) ++ after)%string /\
    all_chars PyStr.is_space before = true /\
    all_chars PyStr.is_space after = true /\
    starts_with PyStr.is_space ip = false /\
    ends_with PyStr.is_space port_text = false /\
    no_colon ip = true /\ no_colon port_text = true /\
    int_literal port_text port.

(** The servers read from a list of entries, and the errors logged: a pair
    for each well-formed entry, a message for each other entry, in order. *)
Inductive reads_entries : list string -> list (string * Z) -> list string -> Prop :=
| reads_nil : reads_entries [] [] []
| reads_well_formed (entry : string) (entries : list string) (ip : string) (port : Z)
    (servers : list (string * Z)) (errors : list string) :
    well_formed_entry entry ip port ->
    reads_entries entries servers errors ->
    reads_entries (entry :: entries) ((ip, port) :: servers) errors
| reads_malformed (entry : string) (entries : list string)
    (servers : list (string * Z)) (errors : list string) :
    (forall ip port, ~ well_formed_entry entry ip port) ->
    reads_entries entries servers errors ->
    reads_entries (entry :: entries) servers (invalid_server_message entry :: errors).

(** The port that start-up reads from the variable [VIRTUAL_PORT]. *)
Definition virtual_port_setting (env : environ) (virtual_port : Z) : Prop :=
  match VIRTUAL_PORT env with
  | Some text => int_literal text virtual_port
  | None => virtual_port = 80
  end.

(** An address as it can stand in the configured list: no colon, no comma,
    and nothing that [strip] would remove in front. *)
Definition plain_address (ip : string) : bool :=
  no_colon ip && no_comma ip
  && match ip with
     | EmptyString => true
     | String c _ => negb (PyStr.is_space c)
     end.

(** The flood of the triggering packet. *)
Definition flood_packet (ev : PacketIn) : effect :=
  SendMsg (OFPPacketOut (ev_datapath ev) (ev_buffer_id ev) (ev_in_port ev)
             [OFPActionOutput OFPP_FLOOD OFPCML_MAX] (ev_data ev)).

(** *** Examples *)

(** A descriptor with every field given. *)
Definition example_server (port : Z) (healthy : bool)
  (latency cpu mem : float) (connections : Z) : ServerMetrics :=
  {| ip := "127.0.0.1"; port := port; healthy := healthy;
     last_latency_ms := latency; cpu_percent := cpu; memory_percent := mem;
     active_connections := connections; total_requests := 0;
     last_health_check := 0%float; weight := 1%float |}.

(** A registry of three servers, given the health of each. *)
Definition example_registry (h1 h2 h3 : bool) : LoadBalancer :=
  {| servers :=
       [("127.0.0.1:5001"%string, example_server 5001 h1 20 90 90 7);
        ("127.0.0.1:5002"%string, example_server 5002 h2 10 10 10 0);
        ("127.0.0.1:5003"%string, example_server 5003 h3 900 99 99 50)];
     current_algorithm := ROUND_ROBIN;
     round_robin_index := 0;
     health_check_interval := 5;
     request_counts :=
       [("127.0.0.1:5001"%string, 0); ("127.0.0.1:5002"%string, 0);
        ("127.0.0.1:5003"%string, 0)] |}.

(** * Properties *)

(** ** Comparison and sign of binary64 values

    Facts about the specification of the primitive floats that the
    selection policies rely on: the strict order is transitive, two values
    that are not NaN are comparable, and the weights the policies compute
    are never NaN. *)

Section SpecFloatOrder.

Lemma cmp_trans_lt (e1 e2 e3 : Z) (m1 m2 m3 : positive) :
  match (e1 ?= e2) with Lt => Lt | Gt => Gt | Eq => Pos.compare_cont Eq m1 m2 end = Lt ->
  match (e2 ?= e3) with Lt => Lt | Gt => Gt | Eq => Pos.compare_cont Eq m2 m3 end = Lt ->
  match (e1 ?= e3) with Lt => Lt | Gt => Gt | Eq => Pos.compare_cont Eq m1 m3 end = Lt.
Proof.
  change (Pos.compare_cont Eq) with Pos.compare.
  destruct (Z.compare_spec e1 e2), (Z.compare_spec e2 e3), (Z.compare_spec e1 e3);
    try discriminate; try lia; try reflexivity; intros H12 H23.
  rewrite Pos.compare_lt_iff in *. lia.
Qed.

Lemma cmp_trans_gt (e1 e2 e3 : Z) (m1 m2 m3 : positive) :
  match (e1 ?= e2) with Lt => Gt | Gt => Lt | Eq => CompOpp (Pos.compare_cont Eq m1 m2) end = Lt ->
  match (e2 ?= e3) with Lt => Gt | Gt => Lt | Eq => CompOpp (Pos.compare_cont Eq m2 m3) end = Lt ->
  match (e1 ?= e3) with Lt => Gt | Gt => Lt | Eq => CompOpp (Pos.compare_cont Eq m1 m3) end = Lt.
Proof.
  change (Pos.compare_cont Eq) with Pos.compare.
  destruct (Z.compare_spec e1 e2), (Z.compare_spec e2 e3), (Z.compare_spec e1 e3);
    try discriminate; try lia; try reflexivity; intros H12 H23.
  destruct (Pos.compare_spec m1 m2), (Pos.compare_spec m2 m3), (Pos.compare_spec m1 m3);
    try discriminate; try lia; reflexivity.
Qed.

Lemma SFltb_trans (x y z : spec_float) :
  SFltb x y = true -> SFltb y z = true -> SFltb x z = true.
Proof.
  unfold SFltb, SFcompare.
  destruct x as [[]|[]| |[] m1 e1], y as [[]|[]| |[] m2 e2], z as [[]|[]| |[] m3 e3];
    try discriminate; try reflexivity; intros H12 H23.
  - rewrite cmp_trans_gt with (e2 := e2) (m2 := m2); [reflexivity | |].
    + destruct (e1 ?= e2), (CompOpp (Pos.compare_cont Eq m1 m2));
        try discriminate; reflexivity.
    + destruct (e2 ?= e3), (CompOpp (Pos.compare_cont Eq m2 m3));
        try discriminate; reflexivity.
  - rewrite cmp_trans_lt with (e2 := e2) (m2 := m2); [reflexivity | |].
    + destruct (e1 ?= e2), (Pos.compare_cont Eq m1 m2);
        try discriminate; reflexivity.
    + destruct (e2 ?= e3), (Pos.compare_cont Eq m2 m3);
        try discriminate; reflexivity.
Qed.

Lemma SFleb_ltb_trans (x y z : spec_float) :
  SFleb x y = true -> SFltb y z = true -> SFltb x z = true.
Proof.
  unfold SFleb, SFltb, SFcompare.
  destruct x as [[]|[]| |[] m1 e1], y as [[]|[]| |[] m2 e2], z as [[]|[]| |[] m3 e3];
    try discriminate; try reflexivity;
    change (Pos.compare_cont Eq) with Pos.compare;
    destruct (Z.compare_spec e1 e2), (Z.compare_spec e2 e3), (Z.compare_spec e1 e3);
    try discriminate; try lia; try reflexivity;
    destruct (Pos.compare_spec m1 m2), (Pos.compare_spec m2 m3), (Pos.compare_spec m1 m3);
    try discriminate; try lia; reflexivity.
Qed.

Lemma SFltb_false_leb (x y : spec_float) :
  x <> S754_nan -> y <> S754_nan -> SFltb x y = false -> SFleb y x = true.
Proof.
  unfold SFleb, SFltb, SFcompare.
  destruct x as [[]|[]| |[] m1 e1], y as [[]|[]| |[] m2 e2];
    try discriminate; try reflexivity; try congruence; intros _ _;
    change (Pos.compare_cont Eq) with Pos.compare;
    rewrite (Z.compare_antisym e1 e2), (Pos.compare_antisym m1 m2);
    destruct (e1 ?= e2), (m1 ?= m2)%positive; try discriminate; reflexivity.
Qed.

End SpecFloatOrder.

Section SpecFloatSign.

Variables prec emax : Z.

Lemma shr_1_nonneg (mrs : shr_record) : 0 <= shr_m mrs -> 0 <= shr_m (shr_1 mrs).
Proof.
  destruct mrs as [m r s]. destruct m as [|[p|p|]|p]; simpl; lia.
Qed.

Lemma iter_shr_1_nonneg (p : positive) (mrs : shr_record) :
  0 <= shr_m mrs -> 0 <= shr_m (iter_pos shr_1 p mrs).
Proof.
  revert mrs. induction p as [p IH|p IH|]; intros mrs H; simpl.
  - apply IH, IH, shr_1_nonneg, H.
  - apply IH, IH, H.
  - apply shr_1_nonneg, H.
Qed.

Lemma shr_fexp_nonneg (m e : Z) (l : location) :
  0 <= m -> 0 <= shr_m (fst (shr_fexp prec emax m e l)).
Proof.
  intros H. unfold shr_fexp, shr.
  assert (H0 : 0 <= shr_m (shr_record_of_loc m l)) by (destruct l as [|[]]; exact H).
  destruct (fexp prec emax (Zdigits2 m + e) - e); simpl; auto.
  apply iter_shr_1_nonneg, H0.
Qed.

Lemma round_nearest_even_nonneg (m : Z) (l : location) :
  0 <= m -> 0 <= round_nearest_even m l.
Proof.
  intros H. destruct l as [|[]]; simpl; try destruct (Z.even m); lia.
Qed.

Lemma binary_round_aux_nonneg (mx ex : Z) (lx : location) :
  0 <= mx -> SFnonneg (binary_round_aux prec emax false mx ex lx) = true.
Proof.
  intros H. unfold binary_round_aux.
  pose proof (shr_fexp_nonneg mx ex lx H) as H1.
  destruct (shr_fexp prec emax mx ex lx) as [mrs' e']. simpl in H1.
  pose proof (shr_fexp_nonneg _ e' loc_Exact
                (round_nearest_even_nonneg _ (loc_of_shr_record mrs') H1)) as H2.
  destruct (shr_fexp prec emax
              (round_nearest_even (shr_m mrs') (loc_of_shr_record mrs')) e' loc_Exact)
    as [mrs'' e'']. simpl in H2.
  destruct (shr_m mrs'') as [|m|m]; [reflexivity | | lia].
  destruct (e'' <=? emax - prec); reflexivity.
Qed.

Lemma SFadd_positive (x y : spec_float) :
  SFpositive x = true -> SFpositive y = true ->
  SFnonneg (SFadd prec emax x y) = true.
Proof.
  destruct x as [sx|[]| |[] mx ex], y as [sy|[]| |[] my ey];
    try discriminate; try reflexivity; intros _ _.
  unfold SFadd, cond_Zopp.
  generalize (fst (shl_align mx ex (Z.min ex ey))) (fst (shl_align my ey (Z.min ex ey))).
  intros p q. change (Zpos p + Zpos q) with (Zpos (p + q)).
  unfold binary_normalize, binary_round.
  destruct (shl_align (p + q) (Z.min ex ey)
              (fexp prec emax (Zpos (digits2_pos (p + q)) + Z.min ex ey))) as [mz ez].
  apply binary_round_aux_nonneg. lia.
Qed.

Lemma SFdiv_core_binary_nonneg (m1 m2 : positive) (e1 e2 : Z) :
  0 <= fst (fst (SFdiv_core_binary prec emax (Zpos m1) e1 (Zpos m2) e2)).
Proof.
  unfold SFdiv_core_binary.
  set (s := _ - _ - Z.min _ _).
  set (m' := match s with Z0 => Zpos m1 | Zpos _ => Z.shiftl (Zpos m1) s | Zneg _ => 0 end).
  assert (Hm : 0 <= m').
  { subst m'. destruct s; try lia. apply Z.shiftl_nonneg. lia. }
  pose proof (Z_div_mod m' (Zpos m2) eq_refl) as Hd.
  destruct (Z.div_eucl m' (Zpos m2)) as [q r]. simpl. nia.
Qed.

Lemma SFdiv_finite_finite_nonneg (mx my : positive) (ex ey : Z) :
  SFnonneg (SFdiv prec emax (S754_finite false mx ex) (S754_finite false my ey)) = true.
Proof.
  unfold SFdiv.
  pose proof (SFdiv_core_binary_nonneg mx my ex ey) as H.
  destruct (SFdiv_core_binary prec emax (Zpos mx) ex (Zpos my) ey) as [[mz ez] lz].
  apply binary_round_aux_nonneg. exact H.
Qed.

(** Dividing a value that is not negative by a positive number. *)
Lemma SFdiv_nonneg_finite (x : spec_float) (my : positive) (ey : Z) :
  SFnonneg x = true ->
  SFnonneg (SFdiv prec emax x (S754_finite false my ey)) = true.
Proof.
  destruct x as [sx|[]| |[] mx ex]; try discriminate; try reflexivity; intros _.
  apply SFdiv_finite_finite_nonneg.
Qed.

(** Dividing a positive number by a positive number or by plus infinity. *)
Lemma SFdiv_finite_positive (mx : positive) (ex : Z) (y : spec_float) :
  SFpositive y = true ->
  SFnonneg (SFdiv prec emax (S754_finite false mx ex) y) = true.
Proof.
  destruct y as [sy|[]| |[] my ey]; try discriminate; try reflexivity; intros _.
  apply SFdiv_finite_finite_nonneg.
Qed.

(** *** No underflow to zero

    Rounding a positive mantissa at an exponent that is not below the
    smallest one never gives zero; so a sum of values that are not negative
    is zero only when both are. *)

Hypothesis prec_pos : 0 < prec.

Lemma digits2_pos_lower (m : positive) : 2 ^ (Zpos (digits2_pos m) - 1) <= Zpos m.
Proof.
  induction m as [m IH|m IH|]; simpl digits2_pos.
  - rewrite Pos2Z.inj_succ.
    replace (Z.succ (Zpos (digits2_pos m)) - 1) with (1 + (Zpos (digits2_pos m) - 1)) by lia.
    rewrite Z.pow_add_r by lia. change (2 ^ 1) with 2. lia.
  - rewrite Pos2Z.inj_succ.
    replace (Z.succ (Zpos (digits2_pos m)) - 1) with (1 + (Zpos (digits2_pos m) - 1)) by lia.
    rewrite Z.pow_add_r by lia. change (2 ^ 1) with 2. lia.
  - simpl. lia.
Qed.

Lemma shr_1_div (mrs : shr_record) :
  0 <= shr_m mrs -> shr_m (shr_1 mrs) = shr_m mrs / 2.
Proof.
  destruct mrs as [m r s]. destruct m as [|[p|p|]|p]; simpl; intros H;
    try lia; rewrite <- Z.div2_div; reflexivity.
Qed.

Lemma iter_shr_1_div (p : positive) (mrs : shr_record) :
  0 <= shr_m mrs -> shr_m (iter_pos shr_1 p mrs) = shr_m mrs / 2 ^ Zpos p.
Proof.
  revert mrs. induction p as [p IH|p IH|]; intros mrs H; simpl iter_pos.
  - rewrite IH by (apply iter_shr_1_nonneg, shr_1_nonneg, H).
    rewrite IH by (apply shr_1_nonneg, H).
    rewrite shr_1_div by exact H.
    rewrite !Z.div_div by lia.
    f_equal.
    replace (Zpos p~1) with (1 + Zpos p + Zpos p) by lia.
    rewrite !Z.pow_add_r by lia. change (2 ^ 1) with 2. lia.
  - rewrite IH by (apply iter_shr_1_nonneg, H).
    rewrite IH by exact H.
    rewrite Z.div_div by lia.
    f_equal.
    replace (Zpos p~0) with (Zpos p + Zpos p) by lia.
    rewrite Z.pow_add_r by lia. reflexivity.
  - rewrite shr_1_div by exact H. reflexivity.
Qed.

Lemma shr_fexp_pos (m : positive) (e : Z) (l : location) :
  SpecFloat.emin prec emax <= e ->
  0 < shr_m (fst (shr_fexp prec emax (Zpos m) e l)) /\
  SpecFloat.emin prec emax <= snd (shr_fexp prec emax (Zpos m) e l).
Proof.
  intros He. unfold shr_fexp, shr. cbn [Zdigits2].
  assert (H0 : shr_m (shr_record_of_loc (Zpos m) l) = Zpos m)
    by (destruct l as [|[]]; reflexivity).
  destruct (fexp prec emax (Zpos (digits2_pos m) + e) - e) as [|n|n] eqn:En;
    cbn [fst snd]; try (rewrite H0; lia).
  rewrite iter_shr_1_div, H0 by (rewrite H0; lia).
  split; [| lia].
  apply Z.div_str_pos. split; [apply Z.pow_pos_nonneg; lia |].
  eapply Z.le_trans; [| apply digits2_pos_lower].
  apply Z.pow_le_mono_r; [lia |].
  unfold fexp in En. fold (SpecFloat.emin prec emax) in En. lia.
Qed.

Lemma binary_round_aux_positive (m : positive) (e : Z) (l : location) :
  SpecFloat.emin prec emax <= e ->
  SFpositive (binary_round_aux prec emax false (Zpos m) e l) = true.
Proof.
  intros He. unfold binary_round_aux.
  destruct (shr_fexp_pos m e l He) as [H1 H1e].
  destruct (shr_fexp prec emax (Zpos m) e l) as [mrs' e']. cbn [fst snd] in H1, H1e.
  assert (H2 : 0 < round_nearest_even (shr_m mrs') (loc_of_shr_record mrs')).
  { destruct (loc_of_shr_record mrs') as [|[]]; simpl;
      try destruct (Z.even (shr_m mrs')); lia. }
  destruct (round_nearest_even (shr_m mrs') (loc_of_shr_record mrs')) as [|m'|m'];
    try lia.
  destruct (shr_fexp_pos m' e' loc_Exact H1e) as [H3 _].
  destruct (shr_fexp prec emax (Zpos m') e' loc_Exact) as [mrs'' e''].
  cbn [fst] in H3.
  destruct (shr_m mrs'') as [|m''|m'']; try lia.
  destruct (e'' <=? emax - prec); reflexivity.
Qed.

Lemma valid_binary_emin (s : bool) (m : positive) (e : Z) :
  SpecFloat.valid_binary prec emax (S754_finite s m e) = true -> SpecFloat.emin prec emax <= e.
Proof.
  unfold SpecFloat.valid_binary, bounded, canonical_mantissa, fexp.
  fold (SpecFloat.emin prec emax). intros H. apply andb_prop in H. destruct H as [H _].
  apply Z.eqb_eq in H. lia.
Qed.

(** The sum of two values that are not negative is not negative, and it is
    zero only when both are. *)
Lemma SFadd_nonneg (x y : spec_float) :
  SpecFloat.valid_binary prec emax x = true -> SpecFloat.valid_binary prec emax y = true ->
  SFnonneg x = true -> SFnonneg y = true ->
  SFnonneg (SFadd prec emax x y) = true /\
  (SFis_zero (SFadd prec emax x y) = true ->
   SFis_zero x = true /\ SFis_zero y = true).
Proof.
  intros Vx Vy.
  destruct x as [[]|[]| |[] mx ex], y as [[]|[]| |[] my ey];
    try discriminate; try (split; [reflexivity | auto; discriminate]); intros _ _.
  apply valid_binary_emin in Vx, Vy.
  unfold SFadd, cond_Zopp.
  generalize (fst (shl_align mx ex (Z.min ex ey))) (fst (shl_align my ey (Z.min ex ey))).
  intros p q. change (Zpos p + Zpos q) with (Zpos (p + q)).
  unfold binary_normalize, binary_round.
  assert (H : SFpositive
                (let '(mz, ez) :=
                   shl_align (p + q) (Z.min ex ey)
                     (fexp prec emax (Zpos (digits2_pos (p + q)) + Z.min ex ey)) in
                 binary_round_aux prec emax false (Zpos mz) ez loc_Exact) = true).
  { unfold shl_align.
    destruct (fexp prec emax (Zpos (digits2_pos (p + q)) + Z.min ex ey) - Z.min ex ey)
      eqn:E; apply binary_round_aux_positive; try lia.
    unfold fexp. fold (SpecFloat.emin prec emax). lia. }
  revert H.
  match goal with
  | |- SFpositive ?r = true -> _ => destruct r as [|[]| |[]]
  end; try discriminate; intros _; split; (reflexivity || discriminate).
Qed.

End SpecFloatSign.

(** The same facts on primitive floats. *)

Section FloatOrder.

Local Open Scope float_scope.

Lemma ltb_trans (a b c : float) :
  (a <? b) = true -> (b <? c) = true -> (a <? c) = true.
Proof. rewrite !ltb_spec. apply SFltb_trans. Qed.

Lemma leb_ltb_trans (a b c : float) :
  (a <=? b) = true -> (b <? c) = true -> (a <? c) = true.
Proof. rewrite leb_spec, !ltb_spec. apply SFleb_ltb_trans. Qed.

Lemma ltb_false_leb (a b : float) :
  SFnonneg (Prim2SF a) = true -> SFnonneg (Prim2SF b) = true ->
  (a <? b) = false -> (b <=? a) = true.
Proof.
  rewrite leb_spec, ltb_spec. intros Ha Hb.
  apply SFltb_false_leb; intros E; rewrite E in *; discriminate.
Qed.

Lemma positive_ltb (a b : float) :
  SFpositive (Prim2SF a) = true -> (a <? b) = true -> SFpositive (Prim2SF b) = true.
Proof.
  rewrite ltb_spec. unfold SFltb, SFcompare.
  destruct (Prim2SF a) as [sa|[]| |[] ma ea], (Prim2SF b) as [sb|[]| |[] mb eb];
    try discriminate; reflexivity.
Qed.

Lemma zero_ltb_positive (b : float) :
  (0 <? b) = true -> SFpositive (Prim2SF b) = true.
Proof.
  rewrite ltb_spec. change (Prim2SF 0) with (S754_zero false).
  unfold SFltb, SFcompare.
  destruct (Prim2SF b) as [sb|[]| |[] mb eb]; try discriminate; reflexivity.
Qed.

Lemma max2_positive (a x : float) :
  SFpositive (Prim2SF a) = true -> SFpositive (Prim2SF (max2 a x)) = true.
Proof.
  intros Ha. unfold max2. destruct (a <? x) eqn:E; [| exact Ha].
  exact (positive_ltb a x Ha E).
Qed.

Lemma div_two_nonneg (x : float) :
  SFnonneg (Prim2SF x) = true -> SFnonneg (Prim2SF (x / 2)) = true.
Proof.
  intros H. rewrite div_spec. unfold SF64div.
  change (Prim2SF 2) with (S754_finite false 4503599627370496 (-51)).
  apply SFdiv_nonneg_finite, H.
Qed.

Lemma one_div_positive (x : float) :
  SFpositive (Prim2SF x) = true -> SFnonneg (Prim2SF (1 / x)) = true.
Proof.
  intros H. rewrite div_spec. unfold SF64div.
  change (Prim2SF 1) with (S754_finite false 4503599627370496 (-52)).
  apply SFdiv_finite_positive, H.
Qed.

Lemma eqb_zero (x : float) :
  (x =? 0) = true -> SFis_zero (Prim2SF x) = true.
Proof.
  rewrite eqb_spec. change (Prim2SF 0) with (S754_zero false).
  unfold SFeqb, SFcompare.
  destruct (Prim2SF x) as [sx|[]| |[] mx ex]; try discriminate; reflexivity.
Qed.

Lemma zero_leb_zero (a b : float) :
  SFis_zero (Prim2SF a) = true -> SFis_zero (Prim2SF b) = true -> (a <=? b) = true.
Proof.
  rewrite leb_spec.
  destruct (Prim2SF a), (Prim2SF b); try discriminate; reflexivity.
Qed.

(** A sum of weights that are not negative is zero only when every weight
    is. *)
Lemma sum_from_zero (l : list float) (acc : float) :
  SFnonneg (Prim2SF acc) = true ->
  Forall (fun w => SFnonneg (Prim2SF w) = true) l ->
  SFnonneg (Prim2SF (fold_left PrimFloat.add l acc)) = true /\
  (SFis_zero (Prim2SF (fold_left PrimFloat.add l acc)) = true ->
   SFis_zero (Prim2SF acc) = true /\
   Forall (fun w => SFis_zero (Prim2SF w) = true) l).
Proof.
  revert acc. induction l as [|w l IH]; intros acc Hacc Hl; simpl.
  - auto.
  - apply Forall_cons_iff in Hl. destruct Hl as [Hw Hl].
    destruct (SFadd_nonneg FloatOps.prec emax eq_refl (Prim2SF acc) (Prim2SF w)
                (Prim2SF_valid acc) (Prim2SF_valid w) Hacc Hw) as [Hn Hz].
    fold SF64add in Hn, Hz. rewrite <- add_spec in Hn, Hz.
    destruct (IH (acc + w) Hn Hl) as [Hn' Hz'].
    split; [exact Hn' |].
    intros H. destruct (Hz' H) as [H1 H2]. destruct (Hz H1) as [H3 H4]. auto.
Qed.

Lemma sum_zero (l : list float) :
  Forall (fun w => SFnonneg (Prim2SF w) = true) l ->
  (sum l =? 0) = true ->
  Forall (fun w => SFis_zero (Prim2SF w) = true) l.
Proof.
  intros Hl H. apply eqb_zero in H.
  apply (sum_from_zero l 0 eq_refl Hl). exact H.
Qed.

End FloatOrder.

(** ** Weights are comparable *)

Lemma performance_weight_nonneg (server : ServerMetrics) :
  SFnonneg (Prim2SF (performance_weight server)) = true.
Proof.
  unfold performance_weight. apply div_two_nonneg.
  rewrite add_spec. apply SFadd_positive; apply max2_positive; reflexivity.
Qed.

Lemma latency_weight_nonneg (server : ServerMetrics) :
  SFnonneg (Prim2SF (latency_weight server)) = true.
Proof.
  unfold latency_weight.
  destruct (PrimFloat.ltb 0 (last_latency_ms server)) eqn:E; [| reflexivity].
  apply one_div_positive, zero_ltb_positive, E.
Qed.

(** ** [max] and [min] with a key *)

Section MaxKey.

Context {A : Type}.
Variable key : A -> float.

Local Abbreviation comparable x := (SFnonneg (Prim2SF (key x)) = true).
Local Abbreviation below r x := (PrimFloat.ltb (key x) (key r) = true).
Local Abbreviation not_above r x := (PrimFloat.leb (key x) (key r) = true).

(** Invariant of the loop: the items read so far split around the running
    maximum, strictly smaller keys before it, no greater key after it. *)
Lemma max_loop_split (l pre mid : list A) (cur : A) :
  Forall (fun x => comparable x) (pre ++ cur :: mid ++ l) ->
  Forall (fun x => below cur x) pre ->
  Forall (fun x => not_above cur x) mid ->
  exists pre' post',
    pre ++ cur :: mid ++ l = pre' ++ max_loop key cur l :: post' /\
    Forall (fun x => below (max_loop key cur l) x) pre' /\
    Forall (fun x => not_above (max_loop key cur l) x) post'.
Proof.
  revert pre mid cur.
  induction l as [|x l IH]; intros pre mid cur Hc Hpre Hmid; simpl.
  - exists pre, mid. rewrite app_nil_r. auto.
  - assert (Hcur : comparable cur /\ comparable x).
    { rewrite Forall_app in Hc. destruct Hc as [_ Hc].
      apply Forall_cons_iff in Hc. destruct Hc as [Hcur Hc].
      rewrite Forall_app in Hc. destruct Hc as [_ Hc].
      apply Forall_cons_iff in Hc. tauto. }
    destruct Hcur as [Hcur Hx].
    destruct (PrimFloat.ltb (key cur) (key x)) eqn:E.
    + destruct (IH (pre ++ cur :: mid) [] x) as (pre' & post' & Heq & H1 & H2).
      * rewrite <- app_assoc. simpl. exact Hc.
      * apply Forall_app; split; [| constructor].
        -- eapply Forall_impl; [| exact Hpre]. intros a Ha.
           exact (ltb_trans _ _ _ Ha E).
        -- exact E.
        -- eapply Forall_impl; [| exact Hmid]. intros a Ha.
           exact (leb_ltb_trans _ _ _ Ha E).
      * constructor.
      * exists pre', post'. rewrite <- Heq, <- app_assoc. simpl. auto.
    + destruct (IH pre (mid ++ [x]) cur) as (pre' & post' & Heq & H1 & H2).
      * rewrite <- app_assoc. simpl. exact Hc.
      * exact Hpre.
      * apply Forall_app; split; [exact Hmid |].
        constructor; [| constructor]. apply ltb_false_leb; assumption.
      * exists pre', post'. rewrite <- Heq, <- app_assoc. simpl. auto.
Qed.

(** [max(l, key=key)] returns the first item of [l] whose key is maximal. *)
Lemma max_key_first_max (l : list A) :
  l <> [] ->
  Forall (fun x => comparable x) l ->
  exists pre r post,
    l = pre ++ r :: post /\
    max_key key l = Ok r /\
    Forall (fun x => below r x) pre /\
    Forall (fun x => not_above r x) post.
Proof.
  intros Hne Hc. destruct l as [|x l]; [congruence |].
  destruct (max_loop_split l [] [] x) as (pre & post & Heq & H1 & H2);
    [exact Hc | constructor | constructor |].
  exists pre, (max_loop key x l), post. simpl in Heq. simpl. auto.
Qed.

Lemma max_loop_In (l : list A) (cur : A) : In (max_loop key cur l) (cur :: l).
Proof.
  revert cur. induction l as [|x l IH]; intros cur; simpl.
  - auto.
  - destruct (IH (if PrimFloat.ltb (key cur) (key x) then x else cur)) as [H | H].
    + destruct (PrimFloat.ltb (key cur) (key x)); auto.
    + auto.
Qed.

End MaxKey.

(** Assigning to each item before taking the maximum. *)
Lemma max_loop_map {A B : Type} (f : A -> B) (key : B -> float) (l : list A) (cur : A) :
  max_loop key (f cur) (map f l) = f (max_loop (fun x => key (f x)) cur l).
Proof.
  revert cur. induction l as [|x l IH]; intros cur; simpl; [reflexivity |].
  rewrite <- IH. destruct (PrimFloat.ltb (key (f cur)) (key (f x))); reflexivity.
Qed.

Lemma min_loop_In {A : Type} (key : A -> Z) (l : list A) (cur : A) :
  In (min_loop key cur l) (cur :: l).
Proof.
  revert cur. induction l as [|x l IH]; intros cur; simpl.
  - auto.
  - destruct (IH (if key x <? key cur then x else cur)) as [H | H].
    + destruct (key x <? key cur); auto.
    + auto.
Qed.

(** ** Weighted policies *)

Section WeightedPolicies.

Local Open Scope float_scope.

(** What the two weighted policies return is a server of the list, with
    its weight assigned. *)
Lemma weighted_round_robin_select_In (servers : list ServerMetrics) :
  servers <> [] ->
  exists s, In s servers /\
            fst (_weighted_round_robin_select servers)
            = Ok (assign_performance_weight s).
Proof.
  destruct servers as [|x l]; [congruence | intros _].
  unfold _weighted_round_robin_select.
  change (fun server => set_weight server (performance_weight server))
    with assign_performance_weight.
  cbn [fst map max_key]. rewrite max_loop_map.
  eexists. split; [apply max_loop_In | reflexivity].
Qed.

Lemma latency_weighted_select_In (servers : list ServerMetrics) :
  servers <> [] ->
  exists s, In s servers /\
            fst (_latency_weighted_select servers)
            = Ok (Some (assign_latency_weight s)).
Proof.
  destruct servers as [|x l]; [congruence | intros _].
  unfold _latency_weighted_select.
  change (fun server => set_weight server (latency_weight server))
    with assign_latency_weight.
  cbv zeta. destruct (PrimFloat.eqb _ _).
  - exists x. split; [left; reflexivity | reflexivity].
  - cbn [map max_key fst]. rewrite max_loop_map.
    eexists. split; [apply max_loop_In | reflexivity].
Qed.

(** C1, as the code has it.  On a non-empty list the weighted-round-robin
    policy assigns each server the weight
    [(max(0.1, 1 - cpu/100) + max(0.1, 1 - mem/100)) / 2] and returns the
    first server of the list whose weight is maximal: every server before
    it has a strictly smaller weight, no server after it has a greater
    one. *)
Theorem weighted_round_robin_first_max_weight (servers : list ServerMetrics) :
  servers <> [] ->
  exists pre r post,
    servers = pre ++ r :: post /\
    _weighted_round_robin_select servers
    = (Ok (assign_performance_weight r), map assign_performance_weight servers) /\
    Forall (fun s => (performance_weight s <? performance_weight r) = true) pre /\
    Forall (fun s => (performance_weight s <=? performance_weight r) = true) post.
Proof.
  intros Hne.
  destruct (max_key_first_max performance_weight servers Hne)
    as (pre & r & post & Heq & Hmax & Hpre & Hpost).
  { apply Forall_forall. intros s _. apply performance_weight_nonneg. }
  exists pre, r, post. repeat split; try assumption.
  unfold _weighted_round_robin_select.
  fold assign_performance_weight.
  change (fun server => set_weight server (performance_weight server))
    with assign_performance_weight.
  f_equal.
  destruct servers as [|x l]; [congruence |].
  simpl in *. rewrite max_loop_map.
  injection Hmax as Hr. subst r. reflexivity.
Qed.

Lemma weighted_round_robin_first_max_weight_witness :
  let servers := [example_server 5001 true 0 80 70 0;
                  example_server 5002 true 0 30 40 0;
                  example_server 5003 true 0 60 50 0] in
  servers <> [] /\
  exists pre r post,
    servers = pre ++ r :: post /\
    _weighted_round_robin_select servers
    = (Ok (assign_performance_weight r), map assign_performance_weight servers) /\
    Forall (fun s => (performance_weight s <? performance_weight r) = true) pre /\
    Forall (fun s => (performance_weight s <=? performance_weight r) = true) post.
Proof.
  split; [discriminate |].
  apply weighted_round_robin_first_max_weight. discriminate.
Defined.

(** The example of the specification: usage 80/70, 30/40 and 60/50 selects
    the second server. *)
Example weighted_round_robin_spec_example :
  option_map server_id
    (match fst (_weighted_round_robin_select
                  [example_server 5001 true 0 80 70 0;
                   example_server 5002 true 0 30 40 0;
                   example_server 5003 true 0 60 50 0]) with
     | Ok r => Some r
     | Raise _ => None
     end)
  = Some "127.0.0.1:5002"%string.
Proof. vm_compute. reflexivity. Qed.

(** C1, as stated, fails.  With usage 100/10 and 54/54 the first server is
    selected (weights 0.5 and 0.46, the CPU term of the first being clamped
    at 0.1), although the second has the smaller combined usage. *)
Lemma weighted_round_robin_not_min_usage :
  let hot := example_server 5001 true 0 100 10 0 in
  let warm := example_server 5002 true 0 54 54 0 in
  fst (_weighted_round_robin_select [hot; warm])
  = Ok (assign_performance_weight hot) /\
  healthy hot = true /\ healthy warm = true /\
  (combined_usage warm <? combined_usage (assign_performance_weight hot)) = true.
Proof. vm_compute. repeat split; reflexivity. Qed.

(** C2, as the code has it.  On a non-empty list the latency-weighted
    policy assigns each server the weight [1/last_latency_ms] when
    [last_latency_ms > 0] and [1.0] otherwise, and returns the first
    server of the list whose weight is maximal: every server before it has
    a strictly smaller weight, no server after it has a greater one.  (The
    branch taken when the weights sum to zero returns the first server,
    which is then the first of maximal weight, every weight being zero.) *)
Theorem latency_weighted_first_max_weight (servers : list ServerMetrics) :
  servers <> [] ->
  exists pre r post,
    servers = pre ++ r :: post /\
    _latency_weighted_select servers
    = (Ok (Some (assign_latency_weight r)), map assign_latency_weight servers) /\
    Forall (fun s => (latency_weight s <? latency_weight r) = true) pre /\
    Forall (fun s => (latency_weight s <=? latency_weight r) = true) post.
Proof.
  intros Hne.
  assert (Hsum : map weight (map assign_latency_weight servers)
                 = map latency_weight servers).
  { rewrite map_map. reflexivity. }
  destruct servers as [|x l]; [congruence |].
  unfold _latency_weighted_select.
  change (fun server => set_weight server (latency_weight server))
    with assign_latency_weight.
  cbv zeta. rewrite Hsum.
  assert (Hw : Forall (fun w => SFnonneg (Prim2SF w) = true)
                 (map latency_weight (x :: l))).
  { apply Forall_forall. intros w Hin. apply in_map_iff in Hin.
    destruct Hin as (s & <- & _). apply latency_weight_nonneg. }
  destruct (sum (map latency_weight (x :: l)) =? 0) eqn:Ez.
  - apply (sum_zero _ Hw) in Ez. rewrite Forall_map in Ez.
    apply Forall_cons_iff in Ez. destruct Ez as [Hx Hl].
    exists [], x, l. repeat split; [constructor |].
    eapply Forall_impl; [| exact Hl]. intros s Hs.
    apply zero_leb_zero; assumption.
  - destruct (max_key_first_max latency_weight (x :: l) Hne)
      as (pre & r & post & Heq & Hmax & Hpre & Hpost).
    { apply Forall_forall. intros s _. apply latency_weight_nonneg. }
    exists pre, r, post. repeat split; try assumption.
    simpl in *. rewrite max_loop_map.
    injection Hmax as Hr. subst r. reflexivity.
Qed.

Lemma latency_weighted_first_max_weight_witness :
  let servers := [example_server 5001 true 100 0 0 0;
                  example_server 5002 true 50 0 0 0;
                  example_server 5003 true 75 0 0 0] in
  servers <> [] /\
  exists pre r post,
    servers = pre ++ r :: post /\
    _latency_weighted_select servers
    = (Ok (Some (assign_latency_weight r)), map assign_latency_weight servers) /\
    Forall (fun s => (latency_weight s <? latency_weight r) = true) pre /\
    Forall (fun s => (latency_weight s <=? latency_weight r) = true) post.
Proof.
  split; [discriminate |].
  apply latency_weighted_first_max_weight. discriminate.
Defined.

(** The example of the specification: latencies 100, 50 and 75 select the
    second server. *)
Example latency_weighted_spec_example :
  match fst (_latency_weighted_select
               [example_server 5001 true 100 0 0 0;
                example_server 5002 true 50 0 0 0;
                example_server 5003 true 75 0 0 0]) with
  | Ok (Some r) => Some (server_id r)
  | _ => None
  end
  = Some "127.0.0.1:5002"%string.
Proof. vm_compute. reflexivity. Qed.

(** C2, as stated, fails.  A server never measured keeps the default
    latency 0 and weight 1.0; next to a server measured at 50 ms (weight
    0.02) it is the one selected, although the other is the only server
    with a positive latency. *)
Lemma latency_weighted_not_min_positive_latency :
  let fresh := example_server 5001 true 0 0 0 0 in
  let measured := example_server 5002 true 50 0 0 0 in
  fst (_latency_weighted_select [fresh; measured])
  = Ok (Some (assign_latency_weight fresh)) /\
  healthy fresh = true /\ healthy measured = true /\
  (0 <? last_latency_ms (assign_latency_weight fresh)) = false /\
  (0 <? last_latency_ms measured) = true.
Proof. vm_compute. repeat split; reflexivity. Qed.

End WeightedPolicies.

(** ** Round robin *)

Section RoundRobin.

Lemma getitem_in_range {A : Type} (l : list A) (i : Z) :
  0 <= i < Z.of_nat (List.length l) ->
  exists x, nth_error l (Z.to_nat i) = Some x /\ getitem l i = Ok x.
Proof.
  intros Hi. unfold getitem.
  destruct (i <? 0) eqn:E; [lia |]. rewrite E.
  destruct (nth_error l (Z.to_nat i)) as [x|] eqn:Hn.
  - exists x. auto.
  - apply nth_error_None in Hn. lia.
Qed.

(** Position read by a call whose cursor is [i], on a list of [n] items. *)
Lemma cursor_position (i : Z) (j n : nat) :
  (0 < n)%nat ->
  Z.to_nat ((i + Z.of_nat j) mod Z.of_nat n)
  = ((Z.to_nat (i mod Z.of_nat n) + j) mod n)%nat.
Proof.
  intros Hn. apply Nat2Z.inj.
  rewrite Nat2Z.inj_mod, Nat2Z.inj_add.
  pose proof (Z.mod_pos_bound i (Z.of_nat n) ltac:(lia)).
  pose proof (Z.mod_pos_bound (i + Z.of_nat j) (Z.of_nat n) ltac:(lia)).
  rewrite !Z2Nat.id by lia.
  rewrite Zplus_mod_idemp_l. reflexivity.
Qed.

Lemma nth_error_rotate {A : Type} (l : list A) (k j : nat) :
  (k < List.length l)%nat -> (j < List.length l)%nat ->
  nth_error (rotate k l) j = nth_error l ((k + j) mod List.length l)%nat.
Proof.
  intros Hk Hj. unfold rotate.
  rewrite nth_error_app, length_skipn.
  destruct (Nat.ltb_spec j (List.length l - k)) as [H | H].
  - rewrite nth_error_skipn, Nat.mod_small by lia. reflexivity.
  - rewrite nth_error_firstn.
    destruct (Nat.ltb_spec (j - (List.length l - k)) k) as [H' | H']; [| lia].
    f_equal.
    apply Nat.mod_unique with (q := 1%nat); lia.
Qed.

Lemma length_rotate {A : Type} (l : list A) (k : nat) :
  List.length (rotate k l) = List.length l.
Proof.
  unfold rotate. rewrite length_app, length_skipn, length_firstn. lia.
Qed.

Lemma rotate_Permutation {A : Type} (l : list A) (k : nat) :
  Permutation (rotate k l) l.
Proof.
  unfold rotate. rewrite Permutation_app_comm, firstn_skipn. reflexivity.
Qed.

(** The positions visited by [2 * length l] calls, read off the list. *)
Lemma two_rounds {A : Type} (l : list A) (i : Z) :
  l <> [] ->
  map (fun j => nth_error l (Z.to_nat ((i + Z.of_nat j) mod Z.of_nat (List.length l))))
      (seq 0 (2 * List.length l))
  = map Some (rotate (Z.to_nat (i mod Z.of_nat (List.length l))) l
              ++ rotate (Z.to_nat (i mod Z.of_nat (List.length l))) l).
Proof.
  intros Hne.
  assert (Hlen : (0 < List.length l)%nat) by (destruct l; simpl; [congruence | lia]).
  set (k := Z.to_nat (i mod Z.of_nat (List.length l))).
  assert (Hk : (k < List.length l)%nat).
  { subst k. pose proof (Z.mod_pos_bound i (Z.of_nat (List.length l)) ltac:(lia)). lia. }
  apply nth_error_ext. intros j.
  rewrite !nth_error_map, nth_error_seq, nth_error_app, length_rotate.
  destruct (Nat.ltb_spec j (2 * List.length l)) as [Hj | Hj]; simpl.
  - rewrite cursor_position by exact Hlen. fold k.
    destruct (Nat.ltb_spec j (List.length l)) as [Hj1 | Hj1].
    + rewrite nth_error_rotate by assumption.
      destruct (nth_error l ((k + j) mod List.length l)) eqn:E; [reflexivity |].
      apply nth_error_None in E.
      pose proof (Nat.mod_upper_bound (k + j) (List.length l) ltac:(lia)). lia.
    + rewrite nth_error_rotate by lia.
      replace ((k + (j - List.length l)) mod List.length l)%nat
        with ((k + j) mod List.length l)%nat.
      * destruct (nth_error l ((k + j) mod List.length l)) eqn:E; [reflexivity |].
        apply nth_error_None in E.
        pose proof (Nat.mod_upper_bound (k + j) (List.length l) ltac:(lia)). lia.
      * replace (k + j)%nat with (k + (j - List.length l) + 1 * List.length l)%nat by lia.
        apply Nat.Div0.mod_add.
  - destruct (Nat.ltb_spec j (List.length l)) as [Hj1 | Hj1]; [lia |].
    destruct (nth_error (rotate k l) (j - List.length l)) eqn:E; [| reflexivity].
    assert (nth_error (rotate k l) (j - List.length l) <> None) by congruence.
    apply nth_error_Some in H. rewrite length_rotate in H. lia.
Qed.

(** One round-robin call on a registry with a healthy server. *)
Lemma select_server_round_robin (self : LoadBalancer) :
  current_algorithm self = ROUND_ROBIN ->
  get_healthy_servers self <> [] ->
  select_server self
  = (Ok (nth_error (get_healthy_servers self)
           (Z.to_nat (round_robin_index self
                      mod Z.of_nat (List.length (get_healthy_servers self))))),
     with_round_robin_index self (round_robin_index self + 1)).
Proof.
  intros Halg Hne. unfold select_server, get_healthy_servers in *.
  destruct (filter healthy (dict_values (servers self))) as [|x l] eqn:El;
    [congruence |].
  rewrite Halg. unfold _round_robin_select.
  destruct (getitem_in_range (x :: l)
              (round_robin_index self mod Z.of_nat (List.length (x :: l))))
    as (y & Hnth & Hget).
  { apply Z.mod_pos_bound. simpl List.length. lia. }
  rewrite Hget, Hnth. reflexivity.
Qed.

Lemma select_n_round_robin (n : nat) (self : LoadBalancer) :
  current_algorithm self = ROUND_ROBIN ->
  get_healthy_servers self <> [] ->
  select_n n self
  = (map (fun j =>
            Ok (nth_error (get_healthy_servers self)
                  (Z.to_nat ((round_robin_index self + Z.of_nat j)
                             mod Z.of_nat (List.length (get_healthy_servers self))))))
         (seq 0 n),
     with_round_robin_index self (round_robin_index self + Z.of_nat n)).
Proof.
  revert self. induction n as [|n IH]; intros self Halg Hne.
  - simpl. rewrite Z.add_0_r. destruct self; reflexivity.
  - cbn [select_n]. rewrite select_server_round_robin by assumption.
    rewrite IH by assumption.
    cbn [seq map]. rewrite <- seq_shift, map_map.
    f_equal; [f_equal |].
    + rewrite Z.add_0_r. reflexivity.
    + apply map_ext. intros j.
      unfold with_round_robin_index, get_healthy_servers.
      cbn [round_robin_index servers].
      do 4 f_equal. lia.
    + unfold with_round_robin_index.
      cbn [round_robin_index servers current_algorithm
             health_check_interval request_counts].
      f_equal. lia.
Qed.

(** C4.  With the round-robin policy and a non-empty healthy list [l] of
    length [n] that does not change, [2n] consecutive selections from any
    cursor value return [l] read cyclically (in registry order) from the
    position [cursor mod n], twice over; so every healthy server is
    returned exactly twice; and every call adds one to the cursor. *)
Theorem round_robin_two_rounds (self : LoadBalancer) :
  current_algorithm self = ROUND_ROBIN ->
  get_healthy_servers self <> [] ->
  let l := get_healthy_servers self in
  let n := List.length l in
  let round := rotate (Z.to_nat (round_robin_index self mod Z.of_nat n)) l in
  fst (select_n (2 * n) self) = map (fun s => Ok (Some s)) (round ++ round) /\
  Permutation (round ++ round) (l ++ l) /\
  forall m : nat,
    get_healthy_servers (snd (select_n m self)) = l /\
    round_robin_index (snd (select_n (S m) self))
    = round_robin_index (snd (select_n m self)) + 1.
Proof.
  intros Halg Hne. cbv zeta. repeat split.
  - rewrite select_n_round_robin by assumption. cbn [fst].
    rewrite <- (map_map Some Ok), <- (two_rounds _ _ Hne), map_map. reflexivity.
  - apply Permutation_app; apply rotate_Permutation.
  - rewrite select_n_round_robin by assumption. reflexivity.
  - rewrite !select_n_round_robin by assumption. cbn. lia.
Qed.

Lemma round_robin_two_rounds_witness :
  let self := set_algorithm
                (new_LoadBalancer [("10.0.0.1", 5001); ("10.0.0.2", 5002);
                                   ("10.0.0.3", 5003)]) ROUND_ROBIN in
  let self := with_round_robin_index self 7 in
  current_algorithm self = ROUND_ROBIN /\
  get_healthy_servers self <> [] /\
  let l := get_healthy_servers self in
  let n := List.length l in
  let round := rotate (Z.to_nat (round_robin_index self mod Z.of_nat n)) l in
  fst (select_n (2 * n) self) = map (fun s => Ok (Some s)) (round ++ round) /\
  Permutation (round ++ round) (l ++ l) /\
  forall m : nat,
    get_healthy_servers (snd (select_n m self)) = l /\
    round_robin_index (snd (select_n (S m) self))
    = round_robin_index (snd (select_n m self)) + 1.
Proof.
  split; [reflexivity |]. split; [discriminate |].
  apply round_robin_two_rounds; [reflexivity | discriminate].
Defined.

(** The example of the specification: three servers, cursor 0, six calls. *)
Example round_robin_spec_example :
  map (fun r => match r with Ok (Some s) => server_id s | _ => ""%string end)
    (fst (select_n 6 (new_LoadBalancer [("10.0.0.1", 5001); ("10.0.0.2", 5002);
                                        ("10.0.0.3", 5003)])))
  = ["10.0.0.1:5001"; "10.0.0.2:5002"; "10.0.0.3:5003";
     "10.0.0.1:5001"; "10.0.0.2:5002"; "10.0.0.3:5003"]%string.
Proof. vm_compute. reflexivity. Qed.

End RoundRobin.

(** ** Selection and health *)

Section SelectServer.

(** Whatever the policy, a selected descriptor is one of the healthy
    descriptors of the registry, as the policy leaves it. *)
Lemma select_server_from_healthy (self self' : LoadBalancer) (r : ServerMetrics) :
  select_server self = (Ok (Some r), self') ->
  exists s, In s (get_healthy_servers self) /\
            r = selected_as (current_algorithm self) s.
Proof.
  unfold select_server, get_healthy_servers.
  destruct (filter healthy (dict_values (servers self))) as [|x l] eqn:El;
    [discriminate |].
  destruct (current_algorithm self) eqn:Halg; cbn [selected_as].
  - unfold _round_robin_select.
    destruct (getitem_in_range (x :: l)
                (round_robin_index self mod Z.of_nat (List.length (x :: l))))
      as (y & Hnth & Hget).
    { apply Z.mod_pos_bound. simpl List.length. lia. }
    rewrite Hget. intros H. injection H as H _. subst y.
    exists r. split; [| reflexivity]. eapply nth_error_In, Hnth.
  - unfold _least_connections_select, min_key.
    intros H. injection H as H _. subst r.
    eexists. split; [apply min_loop_In | reflexivity].
  - destruct (latency_weighted_select_In (x :: l) ltac:(discriminate))
      as (s & Hin & Hsel).
    destruct (_latency_weighted_select (x :: l)) as [r0 updated].
    cbn [fst] in Hsel. subst r0.
    intros H. injection H as H _. subst r. eauto.
  - destruct (weighted_round_robin_select_In (x :: l) ltac:(discriminate))
      as (s & Hin & Hsel).
    destruct (_weighted_round_robin_select (x :: l)) as [r0 updated].
    cbn [fst] in Hsel. subst r0.
    intros H. injection H as H _. subst r. eauto.
Qed.

Lemma healthy_selected_as (algorithm : LoadBalancingAlgorithm) (s : ServerMetrics) :
  healthy (selected_as algorithm s) = healthy s.
Proof. destruct algorithm; reflexivity. Qed.

(** On descriptors whose readings are numbers, [select_server] does not
    raise, whatever the registry and the policy. *)
Lemma select_server_never_raises (self : LoadBalancer) :
  exists r, fst (select_server self) = Ok r.
Proof.
  unfold select_server.
  destruct (filter healthy (dict_values (servers self))) as [|x l] eqn:El;
    [eexists; reflexivity |].
  destruct (current_algorithm self).
  - unfold _round_robin_select.
    destruct (getitem_in_range (x :: l)
                (round_robin_index self mod Z.of_nat (List.length (x :: l))))
      as (y & _ & Hget).
    { apply Z.mod_pos_bound. simpl List.length. lia. }
    rewrite Hget. eexists. reflexivity.
  - eexists. reflexivity.
  - destruct (latency_weighted_select_In (x :: l) ltac:(discriminate))
      as (s & _ & Hsel).
    destruct (_latency_weighted_select (x :: l)) as [r0 updated].
    cbn [fst] in *. eauto.
  - destruct (weighted_round_robin_select_In (x :: l) ltac:(discriminate))
      as (s & _ & Hsel).
    destruct (_weighted_round_robin_select (x :: l)) as [r0 updated].
    cbn [fst] in *. rewrite Hsel. eauto.
Qed.

(** C5.  When no server is healthy, [select_server] returns [None] under
    every policy, without raising and without changing the state. *)
Theorem select_server_no_healthy
  (self : LoadBalancer) (algorithm : LoadBalancingAlgorithm) :
  get_healthy_servers self = [] ->
  select_server (set_algorithm self algorithm)
  = (Ok None, set_algorithm self algorithm).
Proof.
  unfold get_healthy_servers, select_server. cbn [servers set_algorithm].
  intros H. rewrite H. reflexivity.
Qed.

Lemma select_server_no_healthy_witness :
  get_healthy_servers (example_registry false false false) = [] /\
  select_server (set_algorithm (example_registry false false false) LATENCY_WEIGHTED)
  = (Ok None, set_algorithm (example_registry false false false) LATENCY_WEIGHTED).
Proof.
  split; [reflexivity |].
  apply select_server_no_healthy. reflexivity.
Defined.

(** C8.  Under every policy a descriptor returned by [select_server] is
    healthy; and when exactly one server [s] is healthy, every policy
    returns [s], whatever its metrics (the weighted policies having
    assigned its weight). *)
Theorem select_server_only_healthy (self : LoadBalancer) :
  (forall (r : ServerMetrics) (self' : LoadBalancer),
      select_server self = (Ok (Some r), self') -> healthy r = true) /\
  (forall s : ServerMetrics,
      get_healthy_servers self = [s] ->
      fst (select_server self) = Ok (Some (selected_as (current_algorithm self) s))).
Proof.
  split.
  - intros r self' H.
    destruct (select_server_from_healthy _ _ _ H) as (s & Hin & ->).
    rewrite healthy_selected_as.
    unfold get_healthy_servers in Hin. apply filter_In in Hin. tauto.
  - intros s Hs. unfold select_server, get_healthy_servers in *.
    rewrite Hs. destruct (current_algorithm self); cbn [selected_as].
    + unfold _round_robin_select. cbn [List.length Z.of_nat Pos.of_succ_nat].
      rewrite Z.mod_1_r. reflexivity.
    + reflexivity.
    + unfold _latency_weighted_select. cbn [map].
      destruct (PrimFloat.eqb _ _); reflexivity.
    + reflexivity.
Qed.

(** The registry's own test of the least-connections policy: 5, 2 and 8
    connections select the second server. *)
Example least_connections_example :
  match _least_connections_select
          [example_server 5001 true 0 0 0 5;
           example_server 5002 true 0 0 0 2;
           example_server 5003 true 0 0 0 8] with
  | Ok r => server_id r
  | Raise _ => ""%string
  end
  = "127.0.0.1:5002"%string.
Proof. vm_compute. reflexivity. Qed.

(** The example of the specification: of three servers only the third is
    healthy, and it is the one selected under every policy. *)
Example only_third_healthy_example :
  map (fun algorithm =>
         match fst (select_server
                      (set_algorithm (example_registry false false true) algorithm)) with
         | Ok (Some r) => server_id r
         | _ => ""%string
         end)
      [ROUND_ROBIN; LEAST_CONNECTIONS; LATENCY_WEIGHTED; WEIGHTED_ROUND_ROBIN]
  = ["127.0.0.1:5003"; "127.0.0.1:5003"; "127.0.0.1:5003"; "127.0.0.1:5003"]%string.
Proof. vm_compute. reflexivity. Qed.

End SelectServer.

(** ** Dictionaries *)

Section Dict.

Context {V : Type}.

Lemma dict_get_set_same (d : dict V) (k : string) (v : V) :
  dict_get (dict_set d k v) k = Some v.
Proof.
  induction d as [|[k' v'] d IH]; simpl.
  - rewrite String.eqb_refl. reflexivity.
  - destruct (String.eqb k' k) eqn:E; simpl; rewrite E; auto.
Qed.

Lemma dict_get_set_other (d : dict V) (k k' : string) (v : V) :
  k' <> k -> dict_get (dict_set d k v) k' = dict_get d k'.
Proof.
  intros Hne. induction d as [|[k0 v0] d IH]; simpl.
  - apply String.eqb_neq in Hne. rewrite String.eqb_sym, Hne. reflexivity.
  - destruct (String.eqb k0 k) eqn:E; simpl.
    + apply String.eqb_eq in E. subst k0.
      apply String.eqb_neq in Hne. rewrite String.eqb_sym, Hne. reflexivity.
    + rewrite IH. reflexivity.
Qed.

(** Assignment to a key that is present replaces one value in place: the
    keys stay where they are, and so does every value under another key. *)
Lemma dict_set_present (d : dict V) (k : string) (v v0 : V) :
  dict_get d k = Some v0 ->
  Forall2 (fun old new => fst old = fst new /\ (fst old <> k -> snd old = snd new))
    d (dict_set d k v).
Proof.
  induction d as [|[k' v'] d IH]; simpl; [discriminate |].
  destruct (String.eqb k' k) eqn:E; intros H.
  - apply String.eqb_eq in E. subst k'. constructor.
    + simpl. split; [reflexivity | congruence].
    + clear. induction d as [|e d IH]; constructor; auto.
  - constructor; [simpl; auto | apply IH, H].
Qed.

Lemma dict_get_In (d : dict V) (k : string) (v : V) :
  dict_get d k = Some v -> In (k, v) d.
Proof.
  induction d as [|[k' v'] d IH]; simpl; [discriminate |].
  destruct (String.eqb k' k) eqn:E; intros H.
  - apply String.eqb_eq in E. left. congruence.
  - right. apply IH, H.
Qed.

Lemma dict_get_None (d : dict V) (k : string) :
  dict_get d k = None <-> ~ In k (dict_keys d).
Proof.
  induction d as [|[k' v'] d IH]; simpl; [tauto |].
  destruct (String.eqb_spec k' k) as [E | E].
  - split; [discriminate | tauto].
  - rewrite IH. tauto.
Qed.

End Dict.

(** ** Request recording *)

Section RecordRequest.

(** C7.  For a server id present in the registry, [record_request] sets
    that descriptor's [last_latency_ms] to the given latency and adds one
    to its [total_requests] and to its request count: a count of [n]
    before is [n + 1] after, and an id that has no count yet gets the
    count 1.  The descriptor's other fields, every other descriptor and its
    place in the registry, every other request count and the rest of the
    state are unchanged.  For a server id that is not in the registry the
    state is unchanged. *)
Theorem record_request_frame
  (self : LoadBalancer) (server_id : string) (latency_ms : float) :
  (forall server : ServerMetrics,
      dict_get (servers self) server_id = Some server ->
      let self' := record_request self server_id latency_ms in
      dict_get (servers self') server_id
      = Some {| ip := ip server; port := port server; healthy := healthy server;
                last_latency_ms := latency_ms;
                cpu_percent := cpu_percent server;
                memory_percent := memory_percent server;
                active_connections := active_connections server;
                total_requests := total_requests server + 1;
                last_health_check := last_health_check server;
                weight := weight server |} /\
      (forall n, dict_get (request_counts self) server_id = Some n ->
                 dict_get (request_counts self') server_id = Some (n + 1)) /\
      (dict_get (request_counts self) server_id = None ->
       dict_get (request_counts self') server_id = Some 1) /\
      Forall2 (fun old new =>
                 fst old = fst new /\ (fst old <> server_id -> snd old = snd new))
        (servers self) (servers self') /\
      (forall k, k <> server_id ->
                 dict_get (request_counts self') k = dict_get (request_counts self) k) /\
      current_algorithm self' = current_algorithm self /\
      round_robin_index self' = round_robin_index self /\
      health_check_interval self' = health_check_interval self) /\
  (dict_get (servers self) server_id = None ->
   record_request self server_id latency_ms = self).
Proof.
  unfold record_request. split.
  - intros server H. rewrite H. cbn.
    repeat split.
    + apply dict_get_set_same.
    + intros n Hn. rewrite dict_get_set_same.
      unfold dict_get_default. rewrite Hn. reflexivity.
    + intros Hn. rewrite dict_get_set_same.
      unfold dict_get_default. rewrite Hn. reflexivity.
    + eapply dict_set_present, H.
    + intros k Hk. apply dict_get_set_other, Hk.
  - intros H. rewrite H. reflexivity.
Qed.

(** The registry's own test: one request recorded for the first server. *)
Example record_request_example :
  let self := record_request (example_registry true true true)
                "127.0.0.1:5001" 123.45 in
  option_map (fun s => (last_latency_ms s, total_requests s))
    (dict_get (servers self) "127.0.0.1:5001")
  = Some (123.45%float, 1) /\
  dict_get (request_counts self) "127.0.0.1:5001" = Some 1 /\
  record_request (example_registry true true true) "127.0.0.1:6000" 123.45
  = example_registry true true true.
Proof. vm_compute. repeat split; reflexivity. Qed.

End RecordRequest.

(** ** Health probe *)

Section HealthProbe.

Local Open Scope float_scope.

(** What a probe answered with status 200 and an unreadable body leaves
    behind: the server is unhealthy, and the latency and the time of this
    probe are recorded. *)
Lemma unreadable_body_effect
  (server : ServerMetrics) (start_time end_time now : float) (body : health_body) :
  read_metrics body = None ->
  _check_server_health server start_time (Response end_time 200 body now)
  = set_healthy
      (set_last_health_check
         (set_last_latency_ms server ((end_time - start_time) * 1000)) now)
      false.
Proof.
  intros H. simpl. rewrite H. reflexivity.
Qed.

(** What every failed probe keeps.  A failed probe leaves the server
    unhealthy with its CPU and memory readings as they were.  When the
    request itself fails or the status is not 200, the recorded latency is
    kept as well: nothing but the health flag changes. *)
Theorem failed_probe_effect
  (server : ServerMetrics) (start_time : float) (p : probe) :
  probe_failed p = true ->
  let after := _check_server_health server start_time p in
  healthy after = false /\
  cpu_percent after = cpu_percent server /\
  memory_percent after = memory_percent server /\
  match p with
  | RequestFailed => after = set_healthy server false
  | Response _ status_code _ _ =>
      status_code <> 200%Z -> after = set_healthy server false
  end.
Proof.
  destruct p as [|end_time status_code body now]; simpl.
  - auto.
  - destruct (Z.eqb_spec status_code 200) as [-> | Hs].
    + destruct (read_metrics body) as [[cpu mem]|]; [discriminate |].
      repeat split. congruence.
    + auto.
Qed.

Lemma failed_probe_effect_witness :
  let server := example_server 5001 true 10 30 40 0 in
  let p := Response 2.5 503 BodyInvalid 2.5 in
  probe_failed p = true /\
  let after := _check_server_health server 2 p in
  healthy after = false /\
  cpu_percent after = cpu_percent server /\
  memory_percent after = memory_percent server /\
  (503%Z <> 200%Z -> after = set_healthy server false).
Proof.
  split; [reflexivity |].
  apply (failed_probe_effect (example_server 5001 true 10 30 40 0) 2
           (Response 2.5 503 BodyInvalid 2.5)).
  reflexivity.
Defined.

(** C3.  The check breaks the claim on one path.  A server last measured
    at 10 ms, last checked at time 0, answers a probe after a quarter of a
    second with status 200 and a body that is not JSON: the probe fails and
    the server is unhealthy, but the recorded latency is now 250 ms and the
    time of the last check is that of this probe.  The same server keeps
    both when the answer has status 503, or when the request fails: on
    those paths the failed probe changes the health flag only. *)
Lemma failed_probe_overwrites_latency :
  let server := example_server 5001 true 10 30 40 0 in
  let unreadable := _check_server_health server 2 (Response 2.25 200 BodyInvalid 2.25) in
  let refused := _check_server_health server 2 (Response 2.25 503 BodyInvalid 2.25) in
  let unreachable := _check_server_health server 2 RequestFailed in
  probe_failed (Response 2.25 200 BodyInvalid 2.25) = true /\
  healthy unreadable = false /\
  last_latency_ms server = 10 /\
  last_latency_ms unreadable = 250 /\
  last_health_check server = 0 /\
  last_health_check unreadable = 2.25 /\
  refused = set_healthy server false /\
  unreachable = set_healthy server false.
Proof. vm_compute. repeat split; reflexivity. Qed.

End HealthProbe.

(** ** Server ids *)

Section ServerId.

Lemma no_colon_uint (d : Decimal.uint) : no_colon (NilEmpty.string_of_uint d) = true.
Proof. induction d; simpl; auto. Qed.

Lemma no_colon_str_of_int (n : Z) : no_colon (str_of_int n) = true.
Proof.
  unfold str_of_int, NilZero.string_of_int, NilZero.string_of_uint.
  destruct (Z.to_int n) as [d | d]; destruct d; simpl;
    try reflexivity; apply no_colon_uint.
Qed.

Lemma str_of_int_inj (n m : Z) : str_of_int n = str_of_int m -> n = m.
Proof.
  unfold str_of_int. intros H.
  assert (Hnil : forall z, Z.to_int z <> Decimal.Pos Decimal.Nil /\
                           Z.to_int z <> Decimal.Neg Decimal.Nil).
  { intros [|p|p]; simpl; split; try discriminate;
      intros E; injection E; apply DecimalPos.Unsigned.to_uint_nonnil. }
  apply to_int_inj.
  assert (E : Some (Z.to_int n) = Some (Z.to_int m)).
  { rewrite <- (NilZero.isi (Z.to_int n)), <- (NilZero.isi (Z.to_int m));
      try apply Hnil.
    rewrite H. reflexivity. }
  congruence.
Qed.

Lemma no_colon_app_colon (s t : string) : no_colon (s ++ String ":" t)%string = false.
Proof.
  induction s as [|c s IH]; simpl; [reflexivity |].
  rewrite IH. apply andb_false_r.
Qed.

(** The last colon of a server id separates the address from the port. *)
Lemma app_colon_inj (s1 s2 d1 d2 : string) :
  no_colon d1 = true -> no_colon d2 = true ->
  (s1 ++ String ":" d1 = s2 ++ String ":" d2)%string -> s1 = s2 /\ d1 = d2.
Proof.
  intros H1 H2. revert s2.
  induction s1 as [|c s1 IH]; intros [|c' s2] E; simpl in E.
  - injection E as E. auto.
  - injection E as _ E. rewrite E, no_colon_app_colon in H1. discriminate.
  - injection E as _ E. rewrite <- E, no_colon_app_colon in H2. discriminate.
  - injection E as Ec E. destruct (IH _ E) as [-> ->]. subst c'. auto.
Qed.

(** Two configured pairs with the same server id are the same pair. *)
Lemma format_server_id_inj (ip ip' : string) (port port' : Z) :
  format_server_id ip port = format_server_id ip' port' ->
  ip = ip' /\ port = port'.
Proof.
  unfold format_server_id. cbn [append]. intros E.
  apply app_colon_inj in E; try apply no_colon_str_of_int.
  destruct E as [-> E]. apply str_of_int_inj in E. auto.
Qed.

End ServerId.

(** ** Keys after a sequence of assignments *)

Section AddKey.

Lemma add_key_In (keys : list string) (k x : string) :
  In x (add_key keys k) <-> x = k \/ In x keys.
Proof.
  induction keys as [|k' keys IH]; simpl.
  - intuition.
  - destruct (String.eqb_spec k' k) as [E | E]; simpl.
    + subst k'. intuition.
    + rewrite IH. intuition.
Qed.

Lemma add_key_NoDup (keys : list string) (k : string) :
  NoDup keys -> NoDup (add_key keys k).
Proof.
  induction keys as [|k' keys IH]; simpl; intros H.
  - constructor; [simpl; tauto | constructor].
  - destruct (String.eqb_spec k' k) as [E | E]; [exact H |].
    inversion H as [|? ? Hnotin Hnd]; subst.
    constructor; [| apply IH, Hnd].
    rewrite add_key_In. intros [-> | Hin]; tauto.
Qed.

Lemma fold_add_key_In (l acc : list string) (x : string) :
  In x (fold_left add_key l acc) <-> In x acc \/ In x l.
Proof.
  revert acc. induction l as [|k l IH]; intros acc; simpl.
  - tauto.
  - rewrite IH, add_key_In. intuition.
Qed.

Lemma fold_add_key_NoDup (l acc : list string) :
  NoDup acc -> NoDup (fold_left add_key l acc).
Proof.
  revert acc. induction l as [|k l IH]; intros acc H; simpl; [exact H |].
  apply IH, add_key_NoDup, H.
Qed.

Lemma distinct_NoDup (l : list string) : NoDup (distinct l).
Proof. apply fold_add_key_NoDup. constructor. Qed.

Lemma distinct_In (l : list string) (x : string) : In x (distinct l) <-> In x l.
Proof. unfold distinct. rewrite fold_add_key_In. simpl. tauto. Qed.

(** [distinct] counts what [nodup] counts. *)
Lemma distinct_length (l : list string) :
  List.length (distinct l) = List.length (nodup string_dec l).
Proof.
  apply Permutation_length, NoDup_Permutation.
  - apply distinct_NoDup.
  - apply NoDup_nodup.
  - intros x. rewrite distinct_In, nodup_In. tauto.
Qed.

Context {V : Type}.

Lemma dict_keys_set (d : dict V) (k : string) (v : V) :
  dict_keys (dict_set d k v) = add_key (dict_keys d) k.
Proof.
  induction d as [|[k' v'] d IH]; simpl; [reflexivity |].
  destruct (String.eqb k' k); simpl; [reflexivity |].
  f_equal. exact IH.
Qed.

Lemma dict_set_In (d : dict V) (k : string) (v : V) (e : string * V) :
  In e (dict_set d k v) -> e = (k, v) \/ In e d.
Proof.
  induction d as [|[k' v'] d IH]; simpl.
  - intuition.
  - destruct (String.eqb_spec k' k) as [E | E]; simpl.
    + subst k'. intuition.
    + intuition.
Qed.

Lemma dict_get_Some_key (d : dict V) (k : string) :
  In k (dict_keys d) -> exists v, dict_get d k = Some v.
Proof.
  intros H. destruct (dict_get d k) as [v|] eqn:E; [eauto |].
  apply dict_get_None in E. contradiction.
Qed.

End AddKey.

(** ** Construction of the registry *)

Section Registry.

Lemma init_servers_keys (l : list (string * Z)) (self : LoadBalancer) :
  dict_keys (servers (init_servers self l))
  = fold_left add_key (configured_ids l) (dict_keys (servers self)) /\
  dict_keys (request_counts (init_servers self l))
  = fold_left add_key (configured_ids l) (dict_keys (request_counts self)).
Proof.
  revert self. induction l as [|[ip port] l IH]; intros self; simpl; [auto |].
  destruct (IH (with_request_counts
                  (with_servers self
                     (dict_set (servers self) (format_server_id ip port)
                        (new_ServerMetrics ip port)))
                  (dict_set (request_counts self) (format_server_id ip port) 0)))
    as [H1 H2].
  cbn [servers request_counts with_servers with_request_counts] in *.
  rewrite H1, H2, !dict_keys_set. auto.
Qed.

Lemma init_servers_entries (l : list (string * Z)) (self : LoadBalancer)
  (k : string) (s : ServerMetrics) :
  In (k, s) (servers (init_servers self l)) ->
  In (k, s) (servers self) \/
  exists ip port, In (ip, port) l /\
                  k = format_server_id ip port /\ s = new_ServerMetrics ip port.
Proof.
  revert self. induction l as [|[ip port] l IH]; intros self; simpl; [auto |].
  intros H. apply IH in H.
  cbn [servers request_counts with_servers with_request_counts] in H.
  destruct H as [H | (ip' & port' & Hin & Hk & Hs)].
  - apply dict_set_In in H. destruct H as [H | H]; [| auto].
    injection H as -> ->. right. exists ip, port. auto.
  - right. exists ip', port'. auto.
Qed.

Lemma init_servers_counts (l : list (string * Z)) (self : LoadBalancer)
  (k : string) (n : Z) :
  In (k, n) (request_counts (init_servers self l)) ->
  In (k, n) (request_counts self) \/ n = 0.
Proof.
  revert self. induction l as [|[ip port] l IH]; intros self; simpl; [auto |].
  intros H. apply IH in H.
  cbn [servers request_counts with_servers with_request_counts] in H.
  destruct H as [H | H]; [| auto].
  apply dict_set_In in H. destruct H as [H | H]; [| auto].
  injection H as _ ->. auto.
Qed.

Lemma configured_ids_In (l : list (string * Z)) (k : string) :
  In k (configured_ids l) <->
  exists ip port, In (ip, port) l /\ k = format_server_id ip port.
Proof.
  unfold configured_ids. rewrite in_map_iff. split.
  - intros ([ip port] & H & Hin). exists ip, port. auto.
  - intros (ip & port & Hin & ->). exists (ip, port). auto.
Qed.

(** As many distinct ids as distinct pairs. *)
Lemma distinct_pairs_length (l : list (string * Z)) :
  List.length (nodup string_dec (configured_ids l))
  = List.length (nodup pair_eq_dec l).
Proof.
  rewrite <- (length_map (fun '(ip, port) => format_server_id ip port)
                (nodup pair_eq_dec l)).
  apply Permutation_length, NoDup_Permutation.
  - apply NoDup_nodup.
  - apply NoDup_map_NoDup_ForallPairs; [| apply NoDup_nodup].
    intros [ip port] [ip' port'] _ _ E.
    apply format_server_id_inj in E. destruct E as [-> ->]. reflexivity.
  - intros k. rewrite nodup_In. unfold configured_ids.
    rewrite !in_map_iff. split; intros (x & Hx & Hin); exists x;
      (split; [exact Hx |]); apply nodup_In in Hin || apply nodup_In; exact Hin.
Qed.

(** C10.  The registry built from a list of (host, port) pairs is keyed by
    the server id "host:port": its keys are the distinct ids of the list
    in order of first occurrence, without repetition, so its size is the
    number of distinct ids, which is the number of distinct pairs; a pair
    is configured exactly when the registry holds its fresh descriptor
    under its id; and every descriptor is healthy, has weight 1.0, carries
    the id it is stored under, and has a request count of 0. *)
Theorem registry_keyed_by_server_id (l : list (string * Z)) :
  let self := new_LoadBalancer l in
  dict_keys (servers self) = distinct (configured_ids l) /\
  NoDup (dict_keys (servers self)) /\
  List.length (servers self) = List.length (nodup string_dec (configured_ids l)) /\
  List.length (servers self) = List.length (nodup pair_eq_dec l) /\
  (forall ip port,
      In (ip, port) l <->
      dict_get (servers self) (format_server_id ip port)
      = Some (new_ServerMetrics ip port)) /\
  (forall k s,
      dict_get (servers self) k = Some s ->
      healthy s = true /\ weight s = 1%float /\ server_id s = k /\
      dict_get (request_counts self) k = Some 0).
Proof.
  cbv zeta. unfold new_LoadBalancer.
  set (empty := {| servers := []; current_algorithm := ROUND_ROBIN;
                   round_robin_index := 0; health_check_interval := 5;
                   request_counts := [] |}).
  destruct (init_servers_keys l empty) as [Hkeys Hcounts].
  change (fold_left add_key (configured_ids l) (dict_keys (servers empty)))
    with (distinct (configured_ids l)) in Hkeys.
  change (fold_left add_key (configured_ids l) (dict_keys (request_counts empty)))
    with (distinct (configured_ids l)) in Hcounts.
  assert (Hentry : forall k s,
             dict_get (servers (init_servers empty l)) k = Some s ->
             exists ip port, In (ip, port) l /\
                             k = format_server_id ip port /\
                             s = new_ServerMetrics ip port).
  { intros k s H. apply dict_get_In, init_servers_entries in H.
    destruct H as [[] | H]. exact H. }
  split; [exact Hkeys |].
  split; [rewrite Hkeys; apply distinct_NoDup |].
  split.
  { rewrite <- distinct_length, <- Hkeys. unfold dict_keys.
    rewrite length_map. reflexivity. }
  split.
  { rewrite <- distinct_pairs_length, <- distinct_length, <- Hkeys.
    unfold dict_keys. rewrite length_map. reflexivity. }
  split.
  - intros ip port. split.
    + intros Hin.
      destruct (dict_get_Some_key (servers (init_servers empty l))
                  (format_server_id ip port)) as [s Hs].
      { rewrite Hkeys, distinct_In, configured_ids_In. eauto. }
      rewrite Hs. destruct (Hentry _ _ Hs) as (ip' & port' & _ & E & ->).
      apply format_server_id_inj in E. destruct E as [-> ->]. reflexivity.
    + intros H. destruct (Hentry _ _ H) as (ip' & port' & Hin & E & _).
      apply format_server_id_inj in E. destruct E as [-> ->]. exact Hin.
  - intros k s H. destruct (Hentry _ _ H) as (ip & port & _ & -> & ->).
    repeat split.
    destruct (dict_get_Some_key (request_counts (init_servers empty l))
                (format_server_id ip port)) as [n Hn].
    { rewrite Hcounts, <- Hkeys. apply dict_get_In in H.
      unfold dict_keys. apply in_map_iff. eexists. split; [| exact H]. reflexivity. }
    rewrite Hn. apply dict_get_In, init_servers_counts in Hn.
    destruct Hn as [[] | ->]. reflexivity.
Qed.

(** A duplicate pair in the configuration gives one descriptor. *)
Example registry_duplicate_example :
  dict_keys (servers (new_LoadBalancer
                        [("10.0.0.1", 5001); ("10.0.0.2", 5002); ("10.0.0.1", 5001)]))
  = ["10.0.0.1:5001"; "10.0.0.2:5002"]%string.
Proof. vm_compute. reflexivity. Qed.

End Registry.

(** ** Stripping *)

Section StripChars.

Variable drop : ascii -> bool.

Lemma string_app_assoc (s t u : string) : ((s ++ t) ++ u = s ++ t ++ u)%string.
Proof. induction s as [|c s IH]; [reflexivity |]. cbn. rewrite IH. reflexivity. Qed.

Lemma string_app_nil_r (s : string) : (s ++ "")%string = s.
Proof. induction s as [|c s IH]; [reflexivity |]. cbn. rewrite IH. reflexivity. Qed.

Lemma all_chars_app (p : ascii -> bool) (s t : string) :
  all_chars p (s ++ t) = all_chars p s && all_chars p t.
Proof.
  induction s as [|c s IH]; [reflexivity |]. cbn [append all_chars].
  rewrite IH. apply andb_assoc.
Qed.

Lemma ends_with_app (p : ascii -> bool) (s t : string) :
  t <> ""%string -> ends_with p (s ++ t) = ends_with p t.
Proof.
  intros Ht. induction s as [|c s IH]; [reflexivity |].
  cbn [append ends_with]. rewrite IH.
  destruct (s ++ t)%string eqn:E; [| reflexivity].
  destruct s; [cbn in E; congruence | discriminate].
Qed.

Lemma lstrip_chars_all (s t : string) :
  all_chars drop s = true ->
  PyStr.lstrip_chars drop (s ++ t) = PyStr.lstrip_chars drop t.
Proof.
  induction s as [|c s IH]; [reflexivity |]. cbn [all_chars append PyStr.lstrip_chars].
  intros H. apply andb_prop in H. destruct H as [-> H]. apply IH, H.
Qed.

Lemma lstrip_chars_all_nil (s : string) :
  all_chars drop s = true -> PyStr.lstrip_chars drop s = ""%string.
Proof.
  induction s as [|c s IH]; [reflexivity |]. cbn [all_chars PyStr.lstrip_chars].
  intros H. apply andb_prop in H. destruct H as [-> H]. apply IH, H.
Qed.

Lemma lstrip_chars_start (s : string) :
  starts_with drop s = false -> PyStr.lstrip_chars drop s = s.
Proof. destruct s as [|c s]; [reflexivity |]. cbn. intros ->. reflexivity. Qed.

Lemma lstrip_chars_spec (s : string) :
  exists before,
    s = (before ++ PyStr.lstrip_chars drop s)%string /\
    all_chars drop before = true /\
    starts_with drop (PyStr.lstrip_chars drop s) = false.
Proof.
  induction s as [|c s IH]; [exists ""%string; auto |].
  cbn [PyStr.lstrip_chars]. destruct (drop c) eqn:E.
  - destruct IH as (before & Hs & Hb & Hstart).
    exists (String c before). cbn [append all_chars].
    rewrite <- Hs, E, Hb. auto.
  - exists ""%string. cbn. auto.
Qed.

Lemma rstrip_chars_all_nil (s : string) :
  all_chars drop s = true -> PyStr.rstrip_chars drop s = ""%string.
Proof.
  induction s as [|c s IH]; [reflexivity |]. cbn [all_chars PyStr.rstrip_chars].
  intros H. apply andb_prop in H. destruct H as [Hc H].
  rewrite (IH H), Hc. reflexivity.
Qed.

Lemma rstrip_chars_all (s t : string) :
  all_chars drop t = true ->
  PyStr.rstrip_chars drop (s ++ t) = PyStr.rstrip_chars drop s.
Proof.
  intros H. induction s as [|c s IH]; [apply rstrip_chars_all_nil, H |].
  cbn [append PyStr.rstrip_chars]. rewrite IH. reflexivity.
Qed.

Lemma rstrip_chars_end (s : string) :
  ends_with drop s = false -> PyStr.rstrip_chars drop s = s.
Proof.
  induction s as [|c s IH]; [reflexivity |]. cbn [ends_with PyStr.rstrip_chars].
  destruct s as [|c' s].
  - intros ->. reflexivity.
  - intros H. rewrite (IH H). reflexivity.
Qed.

Lemma rstrip_chars_spec (s : string) :
  exists after,
    s = (PyStr.rstrip_chars drop s ++ after)%string /\
    all_chars drop after = true /\
    ends_with drop (PyStr.rstrip_chars drop s) = false.
Proof.
  induction s as [|c s IH]; [exists ""%string; auto |].
  destruct IH as (after & Hs & Ha & Hend).
  cbn [PyStr.rstrip_chars].
  destruct (PyStr.rstrip_chars drop s) as [|c' r] eqn:E.
  - cbn [append] in Hs. subst after. destruct (drop c) eqn:Ec.
    + exists (String c s). cbn [append all_chars]. rewrite Ec, Ha. auto.
    + exists s. cbn [append ends_with]. auto.
  - exists after. cbn [append] in *. rewrite <- Hs. auto.
Qed.

Lemma rstrip_chars_starts (s : string) :
  starts_with drop s = false ->
  starts_with drop (PyStr.rstrip_chars drop s) = false.
Proof.
  destruct s as [|c s]; [reflexivity |]. cbn [starts_with PyStr.rstrip_chars].
  intros H. destruct (PyStr.rstrip_chars drop s); [| exact H].
  rewrite H. exact H.
Qed.

(** What is left of a string when the characters of [drop] are stripped
    from both ends. *)
Lemma strip_chars_iff (s x : string) :
  PyStr.rstrip_chars drop (PyStr.lstrip_chars drop s) = x <->
  exists before after,
    s = (before ++ x ++ after)%string /\
    all_chars drop before = true /\ all_chars drop after = true /\
    starts_with drop x = false /\ ends_with drop x = false.
Proof.
  split.
  - intros <-.
    destruct (lstrip_chars_spec s) as (before & Hs & Hb & Hstart).
    destruct (rstrip_chars_spec (PyStr.lstrip_chars drop s)) as (after & Ht & Ha & Hend).
    exists before, after. rewrite <- Ht.
    split; [exact Hs |]. split; [exact Hb |]. split; [exact Ha |].
    split; [apply rstrip_chars_starts, Hstart | exact Hend].
  - intros (before & after & -> & Hb & Ha & Hstart & Hend).
    rewrite (lstrip_chars_all _ _ Hb).
    destruct x as [|c x].
    + cbn [append]. rewrite (lstrip_chars_all_nil _ Ha). reflexivity.
    + rewrite lstrip_chars_start by exact Hstart.
      rewrite (rstrip_chars_all _ _ Ha). apply rstrip_chars_end, Hend.
Qed.

End StripChars.

(** ** Integer literals *)

Section IntLiteral.

Lemma digit_of_spec (c : ascii) :
  PyStr.digit_of c = if is_digit c then Some (digit_value c) else None.
Proof. reflexivity. Qed.

Lemma is_digit_not_underscore (c : ascii) :
  is_digit c = true -> is_underscore c = false.
Proof.
  unfold is_underscore. destruct (Ascii.eqb_spec c "_") as [-> | _]; [| reflexivity].
  discriminate.
Qed.

(** [digits] reads the strings of digits in groups, and gives the number
    that their digits denote. *)
Lemma digits_spec (s : string) (acc : Z) (after_digit : bool) (n : Z) :
  PyStr.digits acc after_digit s = Some n <->
  all_chars (fun c => is_digit c || is_underscore c) s = true /\
  no_double_underscore s = true /\
  (if after_digit
   then s = ""%string \/ ends_with is_digit s = true
   else starts_with is_digit s = true /\ ends_with is_digit s = true) /\
  n = decimal_from acc s.
Proof.
  revert acc after_digit n.
  induction s as [|c s IH]; intros acc after_digit n.
  - cbn. destruct after_digit.
    + split; [intros [= <-]; auto | intros (_ & _ & _ & ->); reflexivity].
    + split; [discriminate | intros (_ & _ & [H _] & _); discriminate].
  - cbn [PyStr.digits all_chars no_double_underscore decimal_from starts_with].
    rewrite digit_of_spec.
    destruct (is_digit c) eqn:Hd.
    + rewrite (is_digit_not_underscore c Hd). cbn [orb andb negb].
      rewrite IH.
      assert (Hend : ends_with is_digit (String c s) = true
                     <-> s = ""%string \/ ends_with is_digit s = true).
      { cbn [ends_with]. destruct s; [rewrite Hd |]; intuition congruence. }
      destruct after_digit; intuition congruence.
    + cbn [orb]. fold (is_underscore c).
      destruct (is_underscore c) eqn:Hu; cbn [andb negb];
        [| split; [discriminate | intros (H & _); discriminate]].
      destruct after_digit;
        [| split; [discriminate | intros (_ & _ & [H _] & _); discriminate]].
      destruct s as [|c' s];
        [split; [discriminate |];
         intros (_ & _ & [H | H] & _); [discriminate | cbn in H; congruence] |].
      cbn [starts_with]. rewrite digit_of_spec.
      change (ends_with is_digit (String c (String c' s)))
        with (ends_with is_digit (String c' s)).
      destruct (is_digit c') eqn:Hd'.
      * rewrite IH. cbn [starts_with]. rewrite Hd'.
        rewrite (is_digit_not_underscore c' Hd'). cbn [negb andb].
        intuition congruence.
      * split; [discriminate |].
        cbn [all_chars]. rewrite Hd'. cbn [orb].
        destruct (is_underscore c'); cbn [negb andb];
          intros (H1 & H2 & _); discriminate.
Qed.

Lemma digit_groups_spec (body : string) (n : Z) :
  PyStr.digits 0 false body = Some n <->
  digit_groups body = true /\ n = decimal_value body.
Proof.
  rewrite digits_spec. unfold digit_groups, decimal_value.
  rewrite !andb_true_iff. tauto.
Qed.

Lemma is_digit_not_space (c : ascii) :
  is_digit c = true -> PyStr.is_int_space c = false.
Proof.
  unfold is_digit, PyStr.is_int_space. cbv zeta.
  destruct (Nat.leb_spec 48 (nat_of_ascii c)); [| discriminate]. intros _.
  destruct (Nat.leb_spec (nat_of_ascii c) 13); [lia |].
  rewrite andb_false_r. apply Nat.eqb_neq. lia.
Qed.

Lemma starts_with_digit (p : ascii -> bool) (s : string) :
  (forall c, is_digit c = true -> p c = false) ->
  starts_with is_digit s = true -> starts_with p s = false.
Proof. destruct s; [discriminate |]. cbn. auto. Qed.

Lemma ends_with_digit (p : ascii -> bool) (s : string) :
  (forall c, is_digit c = true -> p c = false) ->
  ends_with is_digit s = true -> ends_with p s = false.
Proof.
  intros Hp. induction s as [|c s IH]; [discriminate |].
  cbn [ends_with]. destruct s; auto.
Qed.

Lemma digit_groups_ends (body : string) :
  digit_groups body = true ->
  body <> ""%string /\
  starts_with is_digit body = true /\ ends_with is_digit body = true.
Proof.
  unfold digit_groups. rewrite !andb_true_iff. intros (((_ & _) & H1) & H2).
  split; [destruct body; [discriminate | discriminate] | auto].
Qed.

(** [int] reads exactly the literals, and gives the integer they denote. *)
Lemma int_of_str_spec (text : string) (n : Z) :
  PyStr.int_of_str text = Some n <-> int_literal text n.
Proof.
  unfold PyStr.int_of_str, int_literal. split.
  - destruct (proj1 (strip_chars_iff PyStr.is_int_space text _) eq_refl)
      as (before & after & Htext & Hb & Ha & _).
    destruct (PyStr.rstrip_chars PyStr.is_int_space
                (PyStr.lstrip_chars PyStr.is_int_space text)) as [|c core];
      [discriminate |].
    destruct (Ascii.eqb_spec c "+") as [-> | Hplus];
      [| destruct (Ascii.eqb_spec c "-") as [-> | Hminus]].
    + rewrite digit_groups_spec. intros [Hg ->].
      exists before, "+"%string, core, after. auto 10.
    + destruct (PyStr.digits 0 false core) as [m|] eqn:E; [| discriminate].
      apply digit_groups_spec in E. destruct E as [Hg ->].
      intros [= <-]. exists before, "-"%string, core, after. auto 10.
    + rewrite digit_groups_spec. intros [Hg ->].
      exists before, ""%string, (String c core), after. auto 10.
  - intros (before & sign & body & after & -> & Hb & Ha & Hg & Hsign).
    destruct (digit_groups_ends body Hg) as (Hne & Hstart & Hend).
    assert (Hcore : PyStr.rstrip_chars PyStr.is_int_space
                      (PyStr.lstrip_chars PyStr.is_int_space
                         (before ++ sign ++ body ++ after))
                    = (sign ++ body)%string).
    { apply strip_chars_iff. exists before, after.
      rewrite string_app_assoc.
      split; [reflexivity |]. split; [exact Hb |]. split; [exact Ha |]. split.
      - destruct Hsign as [[-> _] | [[-> _] | [-> _]]]; try reflexivity.
        apply (starts_with_digit _ _ is_digit_not_space Hstart).
      - rewrite ends_with_app by exact Hne.
        apply (ends_with_digit _ _ is_digit_not_space Hend). }
    rewrite Hcore.
    assert (Hd : PyStr.digits 0 false body = Some (decimal_value body))
      by (apply digit_groups_spec; auto).
    destruct Hsign as [[-> ->] | [[-> ->] | [-> ->]]]; cbn [append Ascii.eqb].
    + destruct body as [|c body]; [congruence |].
      cbn [starts_with] in Hstart.
      destruct (Ascii.eqb_spec c "+") as [-> | _]; [discriminate |].
      destruct (Ascii.eqb_spec c "-") as [-> | _]; [discriminate |].
      exact Hd.
    + cbn. exact Hd.
    + cbn. rewrite Hd. reflexivity.
Qed.

End IntLiteral.

(** ** Configuration parsing *)

Section ParseServers.

Lemma split_colon_spec (s : string) :
  PyStr.split ":" s <> [] /\
  Forall (fun w => no_colon w = true) (PyStr.split ":" s) /\
  String.concat ":" (PyStr.split ":" s) = s.
Proof.
  induction s as [|c s IH]; simpl.
  - repeat split; [discriminate | repeat constructor].
  - destruct IH as (Hne & Hall & Hcat).
    destruct (Ascii.eqb_spec c ":") as [-> | Hc].
    + repeat split; [discriminate | constructor; [reflexivity | exact Hall] |].
      destruct (PyStr.split ":" s) as [|w ws]; [congruence |].
      cbn [String.concat append] in *. rewrite Hcat. reflexivity.
    + destruct (PyStr.split ":" s) as [|w ws]; [congruence |].
      apply Forall_cons_iff in Hall. destruct Hall as [Hw Hws].
      repeat split; [discriminate | |].
      * constructor; [| exact Hws]. simpl. rewrite Hw.
        apply Ascii.eqb_neq in Hc. rewrite Hc. reflexivity.
      * destruct ws; simpl in *; rewrite Hcat; reflexivity.
Qed.

Lemma split_colon_no_colon (s : string) :
  no_colon s = true -> PyStr.split ":" s = [s].
Proof.
  induction s as [|c s IH]; simpl; [reflexivity |].
  destruct (Ascii.eqb c ":"); simpl; [discriminate |].
  intros H. rewrite (IH H). reflexivity.
Qed.

Lemma split_colon_app (h t : string) :
  no_colon h = true ->
  PyStr.split ":" (h ++ String ":" t) = h :: PyStr.split ":" t.
Proof.
  induction h as [|c h IH]; simpl; [reflexivity |].
  destruct (Ascii.eqb c ":"); simpl; [discriminate |].
  intros H. rewrite (IH H). reflexivity.
Qed.

(** An entry parses exactly when, stripped of surrounding whitespace, it
    is an address and a port separated by its only colon, the port being
    an integer literal. *)
Lemma parse_server_Some (server_str ip : string) (port : Z) :
  parse_server server_str = Some (ip, port) <->
  exists port_str,
    PyStr.strip server_str = (ip ++ ":" ++ port_str)%string /\
    no_colon ip = true /\ no_colon port_str = true /\
    PyStr.int_of_str port_str = Some port.
Proof.
  unfold parse_server. split.
  - destruct (split_colon_spec (PyStr.strip server_str)) as (_ & Hall & Hcat).
    destruct (PyStr.split ":" (PyStr.strip server_str)) as [|a [|b [|c ws]]];
      try discriminate.
    destruct (PyStr.int_of_str b) as [n|] eqn:E; [| discriminate].
    intros H. injection H as -> ->.
    apply Forall_cons_iff in Hall. destruct Hall as [Ha Hall].
    apply Forall_cons_iff in Hall. destruct Hall as [Hb _].
    exists b. cbn [String.concat] in Hcat. auto.
  - intros (port_str & Hs & Hip & Hp & Hint).
    rewrite Hs. cbn [append]. rewrite split_colon_app by exact Hip.
    rewrite split_colon_no_colon by exact Hp. rewrite Hint. reflexivity.
Qed.

Lemma split_comma_no_comma (s : string) :
  no_comma s = true -> PyStr.split "," s = [s].
Proof.
  induction s as [|c s IH]; simpl; [reflexivity |].
  destruct (Ascii.eqb c ","); simpl; [discriminate |].
  intros H. rewrite (IH H). reflexivity.
Qed.

Lemma split_comma_app (h t : string) :
  no_comma h = true ->
  PyStr.split "," (h ++ String "," t)%string = h :: PyStr.split "," t.
Proof.
  induction h as [|c h IH]; simpl; [reflexivity |].
  destruct (Ascii.eqb c ","); simpl; [discriminate |].
  intros H. rewrite (IH H). reflexivity.
Qed.

Lemma split_comma_concat (entries : list string) :
  entries <> [] ->
  Forall (fun e => no_comma e = true) entries ->
  PyStr.split "," (String.concat "," entries) = entries.
Proof.
  induction entries as [|e es IH]; [congruence |]. intros _ Hall.
  apply Forall_cons_iff in Hall. destruct Hall as [He Hes].
  destruct es as [|e' es]; [apply split_comma_no_comma, He |].
  change (String.concat "," (e :: e' :: es))
    with (e ++ String "," (String.concat "," (e' :: es)))%string.
  rewrite (split_comma_app _ _ He), IH; [reflexivity | discriminate | exact Hes].
Qed.

Lemma split_comma_spec (s : string) :
  PyStr.split "," s <> [] /\
  Forall (fun w => no_comma w = true) (PyStr.split "," s) /\
  String.concat "," (PyStr.split "," s) = s.
Proof.
  induction s as [|c s IH]; simpl.
  - repeat split; [discriminate | repeat constructor].
  - destruct IH as (Hne & Hall & Hcat).
    destruct (Ascii.eqb_spec c ",") as [-> | Hc].
    + repeat split; [discriminate | constructor; [reflexivity | exact Hall] |].
      destruct (PyStr.split "," s) as [|w ws]; [congruence |].
      cbn [String.concat append] in *. rewrite Hcat. reflexivity.
    + destruct (PyStr.split "," s) as [|w ws]; [congruence |].
      apply Forall_cons_iff in Hall. destruct Hall as [Hw Hws].
      repeat split; [discriminate | |].
      * constructor; [| exact Hws]. simpl. rewrite Hw.
        apply Ascii.eqb_neq in Hc. rewrite Hc. reflexivity.
      * destruct ws; simpl in *; rewrite Hcat; reflexivity.
Qed.

Lemma starts_with_server_id (ip port_text : string) :
  starts_with PyStr.is_space (ip ++ ":" ++ port_text)%string
  = starts_with PyStr.is_space ip.
Proof. destruct ip; reflexivity. Qed.

Lemma ends_with_server_id (ip port_text : string) :
  ends_with PyStr.is_space (ip ++ ":" ++ port_text)%string
  = ends_with PyStr.is_space port_text.
Proof.
  rewrite ends_with_app by discriminate.
  destruct port_text; reflexivity.
Qed.

(** The parser keeps exactly the well-formed entries, each for its address
    and its port. *)
Lemma parse_server_spec (entry ip : string) (port : Z) :
  parse_server entry = Some (ip, port) <-> well_formed_entry entry ip port.
Proof.
  rewrite parse_server_Some. unfold well_formed_entry, PyStr.strip. split.
  - intros (port_text & Hstrip & Hip & Hport & Hint).
    apply strip_chars_iff in Hstrip.
    destruct Hstrip as (before & after & He & Hb & Ha & Hstart & Hend).
    rewrite starts_with_server_id in Hstart. rewrite ends_with_server_id in Hend.
    apply int_of_str_spec in Hint.
    exists before, port_text, after. auto 10.
  - intros (before & port_text & after & He & Hb & Ha & Hstart & Hend & Hip & Hport & Hint).
    exists port_text.
    split; [| split; [exact Hip | split; [exact Hport | apply int_of_str_spec, Hint]]].
    apply strip_chars_iff. exists before, after.
    rewrite starts_with_server_id, ends_with_server_id. auto.
Qed.

Lemma reads_entries_parsed (entries : list string) :
  reads_entries entries (well_formed_servers entries)
    (map invalid_server_message (malformed_entries entries)).
Proof.
  unfold well_formed_servers, malformed_entries.
  induction entries as [|e entries IH]; [constructor |].
  cbn [flat_map filter]. destruct (parse_server e) as [[ip port]|] eqn:E.
  - cbn [app]. apply reads_well_formed; [apply parse_server_spec, E | exact IH].
  - cbn [app map]. apply reads_malformed; [| exact IH].
    intros ip port H. apply parse_server_spec in H. congruence.
Qed.

Lemma parse_servers_loop_spec (entries : list string)
  (servers : list (string * Z)) (errors : list string) :
  parse_servers_loop entries servers errors
  = (servers ++ well_formed_servers entries,
     errors ++ map invalid_server_message (malformed_entries entries)).
Proof.
  revert servers errors.
  induction entries as [|e entries IH]; intros servers errors; simpl.
  - rewrite !app_nil_r. reflexivity.
  - destruct (parse_server e) as [p|]; rewrite IH; simpl;
      rewrite <- app_assoc; reflexivity.
Qed.

(** An unset or empty variable gives the development servers. *)
Lemma parse_servers_fallback (env : environ) :
  BACKEND_SERVERS env = None \/ BACKEND_SERVERS env = Some ""%string ->
  _parse_servers env
  = ([("127.0.0.1"%string, 5001); ("127.0.0.1"%string, 5002)], []).
Proof.
  unfold _parse_servers. intros [-> | ->]; reflexivity.
Qed.

(** C9.  When a backend list is configured, [_parse_servers] reads its
    comma-separated entries in order: it returns one pair for each
    well-formed entry (an address, a colon and the literal of an integer
    port, with whitespace around at most) and logs one error for each
    other entry, going on with the entries that follow.  No entry makes
    start-up fail: it builds the load balancer from these servers unless
    there is none, in which case it leaves [load_balancer] unset. *)
Theorem parse_servers_drops_malformed (env : environ) (servers_env : string) :
  BACKEND_SERVERS env = Some servers_env ->
  servers_env <> ""%string ->
  exists entries servers errors,
    String.concat "," entries = servers_env /\
    entries <> [] /\
    Forall (fun entry => no_comma entry = true) entries /\
    reads_entries entries servers errors /\
    _parse_servers env = (servers, errors) /\
    (forall virtual_port,
        virtual_port_setting env virtual_port ->
        exists app, new_SDNLoadBalancer env = (Ok app, errors)) /\
    forall app errors',
      new_SDNLoadBalancer env = (Ok app, errors') ->
      errors' = errors /\
      (load_balancer app = None <-> servers = []) /\
      (servers <> [] -> load_balancer app = Some (new_LoadBalancer servers)).
Proof.
  intros Henv Hne.
  destruct (split_comma_spec servers_env) as (Hentries & Hcomma & Hconcat).
  set (entries := PyStr.split "," servers_env) in *.
  assert (Hparse : _parse_servers env
                   = (well_formed_servers entries,
                      map invalid_server_message (malformed_entries entries))).
  { unfold _parse_servers. rewrite Henv. cbn [getenv].
    apply String.eqb_neq in Hne. rewrite Hne.
    rewrite parse_servers_loop_spec. reflexivity. }
  exists entries, (well_formed_servers entries),
    (map invalid_server_message (malformed_entries entries)).
  split; [exact Hconcat |]. split; [exact Hentries |]. split; [exact Hcomma |].
  split; [apply reads_entries_parsed |]. split; [exact Hparse |].
  unfold new_SDNLoadBalancer, virtual_port_setting. rewrite Hparse. split.
  - intros virtual_port Hport.
    assert (E : match VIRTUAL_PORT env with
                | Some s => PyStr.int_of_str s
                | None => Some 80
                end = Some virtual_port).
    { destruct (VIRTUAL_PORT env) as [text|];
        [apply int_of_str_spec, Hport | congruence]. }
    rewrite E. eexists. reflexivity.
  - intros app errors'.
    destruct (match VIRTUAL_PORT env with
              | Some s => PyStr.int_of_str s
              | None => Some 80
              end) as [virtual_port|]; [| discriminate].
    intros H. injection H as <- <-. cbn [load_balancer].
    split; [reflexivity |].
    destruct (well_formed_servers entries) as [|p ps].
    + split; [tauto | congruence].
    + split; [split; discriminate | reflexivity].
Qed.

Lemma parse_servers_drops_malformed_witness :
  let servers_env := " 10.0.0.1:5001 ,bad,10.0.0.2:5002,::1:80,10.0.0.3:http"%string in
  let env := {| VIRTUAL_IP := None; VIRTUAL_PORT := None;
                BACKEND_SERVERS := Some servers_env |} in
  BACKEND_SERVERS env = Some servers_env /\
  servers_env <> ""%string /\
  exists entries servers errors,
    String.concat "," entries = servers_env /\
    entries <> [] /\
    Forall (fun entry => no_comma entry = true) entries /\
    reads_entries entries servers errors /\
    _parse_servers env = (servers, errors) /\
    (forall virtual_port,
        virtual_port_setting env virtual_port ->
        exists app, new_SDNLoadBalancer env = (Ok app, errors)) /\
    forall app errors',
      new_SDNLoadBalancer env = (Ok app, errors') ->
      errors' = errors /\
      (load_balancer app = None <-> servers = []) /\
      (servers <> [] -> load_balancer app = Some (new_LoadBalancer servers)).
Proof.
  split; [reflexivity |]. split; [discriminate |].
  apply (parse_servers_drops_malformed
           {| VIRTUAL_IP := None; VIRTUAL_PORT := None;
              BACKEND_SERVERS :=
                Some " 10.0.0.1:5001 ,bad,10.0.0.2:5002,::1:80,10.0.0.3:http"%string |});
    [reflexivity | discriminate].
Defined.

(** The same configuration, evaluated. *)
Example parse_servers_example :
  _parse_servers
    {| VIRTUAL_IP := None; VIRTUAL_PORT := None;
       BACKEND_SERVERS :=
         Some " 10.0.0.1:5001 ,bad,10.0.0.2:5002,::1:80,10.0.0.3:http"%string |}
  = ([("10.0.0.1", 5001); ("10.0.0.2", 5002)],
     ["Invalid server format: bad"; "Invalid server format: ::1:80";
      "Invalid server format: 10.0.0.3:http"])%string.
Proof. vm_compute. reflexivity. Qed.

(** Only malformed entries: no server, and no load balancer. *)
Example no_server_example :
  match fst (new_SDNLoadBalancer
               {| VIRTUAL_IP := None; VIRTUAL_PORT := None;
                  BACKEND_SERVERS := Some "bad,worse"%string |}) with
  | Ok app => load_balancer app
  | Raise _ => None
  end = None.
Proof. vm_compute. reflexivity. Qed.

(** The separators 0x1c-0x1f are whitespace for [strip], not for [int]:
    around an entry they are stripped, next to the port they make the
    entry malformed. *)
Example separator_example :
  parse_server (String (ascii_of_nat 28) "10.0.0.1:80 ") = Some ("10.0.0.1"%string, 80) /\
  parse_server ("10.0.0.1:" ++ String (ascii_of_nat 28) "80") = None /\
  parse_server "10.0.0.1: +8_080" = Some ("10.0.0.1"%string, 8080) /\
  parse_server "10.0.0.1:80_" = None.
Proof. vm_compute. repeat split; reflexivity. Qed.

End ParseServers.

(** ** Flow programming *)

Section FlowRules.

(** C6.  When a packet-in event carries an IPv4 packet whose destination
    is the virtual address and a server is selected, the handler installs
    exactly two flow rules on the switch of the event, the forward rule
    and then the return rule, both at priority 10; the default rule
    installed when the switch connects has priority 0.  The forward rule
    matches the ingress port, the client's source address and the virtual
    destination address and rewrites the destination to the server's
    address; the return rule matches port 2 and the server's source
    address and rewrites the source to the virtual address. *)
Theorem packet_in_installs_two_rules
  (self : SDNLoadBalancer) (lb lb' : LoadBalancer) (ev : PacketIn)
  (client_ip : string) (server : ServerMetrics) :
  load_balancer self = Some lb ->
  getitem (get_ethernets (ev_pkt ev)) 0 = Ok ETH_TYPE_IP ->
  get_ipv4 (ev_pkt ev) = Some (client_ip, virtual_ip self) ->
  select_server lb = (Ok (Some server), lb') ->
  fst (fst (packet_in_handler self ev)) = Ok tt /\
  flow_mods (snd (packet_in_handler self ev))
  = [forward_rule (ev_datapath ev) (ev_in_port ev) client_ip (virtual_ip self) (ip server);
     return_rule (ev_datapath ev) (ev_in_port ev) client_ip (virtual_ip self) (ip server)] /\
  map flow_priority (flow_mods (snd (packet_in_handler self ev))) = [Some 10; Some 10] /\
  flow_mods (switch_features_handler (ev_datapath ev)) = [default_rule (ev_datapath ev)] /\
  flow_priority (default_rule (ev_datapath ev)) = Some 0.
Proof.
  intros Hlb Heth Hip Hsel. unfold packet_in_handler.
  rewrite Hlb, Heth, Hip, Hsel, String.eqb_refl.
  change (ETH_TYPE_IP =? ETH_TYPE_LLDP) with false.
  change (ETH_TYPE_IP =? ETH_TYPE_IP) with true.
  repeat split.
Qed.

Lemma packet_in_installs_two_rules_witness :
  let lb := example_registry true true true in
  let self := {| load_balancer := Some lb; virtual_ip := "10.0.0.100";
                 virtual_port := 80 |} in
  let ev := {| ev_datapath := 1; ev_in_port := 1; ev_buffer_id := 4294967295;
               ev_data := "";
               ev_pkt := [ethernet ETH_TYPE_IP; ipv4 "10.0.0.7" "10.0.0.100";
                          other_protocol] |} in
  let server := example_server 5001 true 20 90 90 7 in
  load_balancer self = Some lb /\
  getitem (get_ethernets (ev_pkt ev)) 0 = Ok ETH_TYPE_IP /\
  get_ipv4 (ev_pkt ev) = Some ("10.0.0.7"%string, virtual_ip self) /\
  select_server lb = (Ok (Some server), with_round_robin_index lb 1) /\
  fst (fst (packet_in_handler self ev)) = Ok tt /\
  flow_mods (snd (packet_in_handler self ev))
  = [forward_rule 1 1 "10.0.0.7" "10.0.0.100" "127.0.0.1";
     return_rule 1 1 "10.0.0.7" "10.0.0.100" "127.0.0.1"] /\
  map flow_priority (flow_mods (snd (packet_in_handler self ev))) = [Some 10; Some 10] /\
  flow_mods (switch_features_handler 1) = [default_rule 1] /\
  flow_priority (default_rule 1) = Some 0.
Proof.
  do 4 (split; [reflexivity |]).
  apply (packet_in_installs_two_rules
           {| load_balancer := Some (example_registry true true true);
              virtual_ip := "10.0.0.100"; virtual_port := 80 |}
           (example_registry true true true)
           (with_round_robin_index (example_registry true true true) 1)
           {| ev_datapath := 1; ev_in_port := 1; ev_buffer_id := 4294967295;
              ev_data := "";
              ev_pkt := [ethernet ETH_TYPE_IP; ipv4 "10.0.0.7" "10.0.0.100";
                         other_protocol] |}
           "10.0.0.7" (example_server 5001 true 20 90 90 7));
    reflexivity.
Defined.

End FlowRules.

(** * Further properties of the controller *)

(** ** Least connections *)

Section MinKey.

Context {A : Type}.
Variable key : A -> Z.

(** Invariant of the loop of [min]: strictly greater keys before the running
    minimum, no smaller key after it. *)
Lemma min_loop_split (l pre mid : list A) (cur : A) :
  Forall (fun x => key cur < key x) pre ->
  Forall (fun x => key cur <= key x) mid ->
  exists pre' post',
    pre ++ cur :: mid ++ l = pre' ++ min_loop key cur l :: post' /\
    Forall (fun x => key (min_loop key cur l) < key x) pre' /\
    Forall (fun x => key (min_loop key cur l) <= key x) post'.
Proof.
  revert pre mid cur.
  induction l as [|x l IH]; intros pre mid cur Hpre Hmid; simpl.
  - exists pre, mid. rewrite app_nil_r. auto.
  - destruct (Z.ltb_spec (key x) (key cur)) as [E | E].
    + destruct (IH (pre ++ cur :: mid) [] x) as (pre' & post' & Heq & H1 & H2).
      * apply Forall_app; split; [| constructor].
        -- eapply Forall_impl; [| exact Hpre]. intros a Ha. simpl in Ha. lia.
        -- exact E.
        -- eapply Forall_impl; [| exact Hmid]. intros a Ha. simpl in Ha. lia.
      * constructor.
      * exists pre', post'. rewrite <- Heq, <- app_assoc. simpl. auto.
    + destruct (IH pre (mid ++ [x]) cur) as (pre' & post' & Heq & H1 & H2).
      * exact Hpre.
      * apply Forall_app; split; [exact Hmid |]. constructor; [exact E | constructor].
      * exists pre', post'. rewrite <- Heq, <- app_assoc. simpl. auto.
Qed.

Lemma min_loop_constant (l : list A) (cur : A) :
  Forall (fun x => key x = key cur) l -> min_loop key cur l = cur.
Proof.
  induction l as [|x l IH]; intros H; simpl; [reflexivity |].
  apply Forall_cons_iff in H. destruct H as [Hx Hl].
  rewrite Hx, Z.ltb_irrefl. apply IH, Hl.
Qed.

End MinKey.

(** X1.  On a non-empty list the least-connections policy returns the first
    server whose [active_connections] is minimal: every server before it has
    strictly more connections, no server after it has fewer. *)
Theorem least_connections_first_min (servers : list ServerMetrics) :
  servers <> [] ->
  exists pre r post,
    servers = pre ++ r :: post /\
    _least_connections_select servers = Ok r /\
    Forall (fun s => active_connections r < active_connections s) pre /\
    Forall (fun s => active_connections r <= active_connections s) post.
Proof.
  intros Hne. destruct servers as [|x l]; [congruence |].
  destruct (min_loop_split active_connections l [] [] x) as (pre & post & Heq & H1 & H2);
    [constructor | constructor |].
  exists pre, (min_loop active_connections x l), post.
  simpl in Heq. repeat split; assumption.
Qed.

Lemma least_connections_first_min_witness :
  let servers := [example_server 5001 true 0 0 0 5;
                  example_server 5002 true 0 0 0 2;
                  example_server 5003 true 0 0 0 2] in
  servers <> [] /\
  exists pre r post,
    servers = pre ++ r :: post /\
    _least_connections_select servers = Ok r /\
    Forall (fun s => active_connections r < active_connections s) pre /\
    Forall (fun s => active_connections r <= active_connections s) post.
Proof.
  split; [discriminate |].
  apply least_connections_first_min. discriminate.
Defined.

(** ** Weights *)

Lemma nonneg_not_nan (x : float) :
  SFnonneg (Prim2SF x) = true ->
  PrimFloat.is_nan x = false /\ PrimFloat.ltb x 0 = false.
Proof.
  unfold PrimFloat.is_nan. rewrite eqb_spec, ltb_spec.
  change (Prim2SF 0) with (S754_zero false).
  unfold SFeqb, SFltb, SFcompare.
  destruct (Prim2SF x) as [sx|[]| |[] mx ex]; try discriminate; intros _;
    try (split; reflexivity).
  rewrite Z.compare_refl.
  change (Pos.compare_cont Eq mx mx) with (Pos.compare mx mx).
  rewrite Pos.compare_refl. split; reflexivity.
Qed.

(** X2.  Whatever the metrics of a server (negative, infinite or NaN
    readings included), the weight that either weighted policy assigns to it
    is a number, and it is not negative. *)
Theorem weights_are_numbers (server : ServerMetrics) :
  PrimFloat.is_nan (performance_weight server) = false /\
  PrimFloat.ltb (performance_weight server) 0 = false /\
  PrimFloat.is_nan (latency_weight server) = false /\
  PrimFloat.ltb (latency_weight server) 0 = false.
Proof.
  destruct (nonneg_not_nan _ (performance_weight_nonneg server)) as [H1 H2].
  destruct (nonneg_not_nan _ (latency_weight_nonneg server)) as [H3 H4].
  auto.
Qed.

(** Readings that are not numbers still give the policies a weight. *)
Example weights_of_nan_readings :
  performance_weight (example_server 5001 true nan nan infinity 0) = 0.1%float /\
  latency_weight (example_server 5001 true nan nan infinity 0) = 1%float.
Proof. vm_compute. split; reflexivity. Qed.

(** ** One health check *)

Lemma check_server_health_frame (server : ServerMetrics) (start_time : float) (p : probe) :
  ip (_check_server_health server start_time p) = ip server /\
  port (_check_server_health server start_time p) = port server /\
  active_connections (_check_server_health server start_time p)
  = active_connections server /\
  total_requests (_check_server_health server start_time p) = total_requests server /\
  weight (_check_server_health server start_time p) = weight server.
Proof.
  destruct p as [|end_time status_code body now]; simpl; [auto |].
  destruct (status_code =? 200); [| auto].
  destruct (read_metrics body) as [[cpu mem]|]; auto.
Qed.

Lemma check_server_health_healthy (server : ServerMetrics) (start_time : float) (p : probe) :
  healthy (_check_server_health server start_time p) = probe_succeeded p.
Proof.
  destruct p as [|end_time status_code body now]; simpl; [reflexivity |].
  destruct (status_code =? 200); [| reflexivity].
  destruct (read_metrics body) as [[cpu mem]|]; reflexivity.
Qed.

(** X3.  A health check leaves a server healthy exactly when the answer has
    status 200 and a readable body, whatever its health before; any other
    status, 2xx included, leaves it unhealthy.  No check changes the
    address, the port, the server id, the counters or the weight. *)
Theorem check_server_health_outcome
  (server : ServerMetrics) (start_time : float) (p : probe) :
  let after := _check_server_health server start_time p in
  healthy after = probe_succeeded p /\
  (forall end_time status_code body now,
      p = Response end_time status_code body now ->
      status_code <> 200 -> healthy after = false) /\
  server_id after = server_id server /\
  ip after = ip server /\ port after = port server /\
  active_connections after = active_connections server /\
  total_requests after = total_requests server /\
  weight after = weight server.
Proof.
  cbv zeta.
  destruct (check_server_health_frame server start_time p) as (H1 & H2 & H3 & H4 & H5).
  split; [apply check_server_health_healthy |].
  split.
  - intros end_time status_code body now -> Hs.
    rewrite check_server_health_healthy. simpl.
    apply Z.eqb_neq in Hs. rewrite Hs. reflexivity.
  - unfold server_id. rewrite H1, H2. repeat split; assumption.
Qed.

(** A 204 with a perfectly good body marks the server unhealthy. *)
Example no_content_is_unhealthy :
  healthy (_check_server_health (example_server 5001 true 10 30 40 0) 2
             (Response 2.25 204
                (BodyDict (Some (MetricsDict (Some 12%float) (Some 34%float)))) 2.25))
  = false.
Proof. reflexivity. Qed.

(** X4.  A successful check records the round-trip time in milliseconds
    and the time of the check, and replaces the CPU and memory readings by
    those of the body, a reading the body does not give being replaced by
    0.0. *)
Theorem successful_probe_effect
  (server : ServerMetrics) (start_time : float) (p : probe) :
  probe_succeeded p = true ->
  exists end_time body now cpu mem,
    p = Response end_time 200 body now /\
    read_metrics body = Some (cpu, mem) /\
    (forall c m, body = BodyDict (Some (MetricsDict c m)) ->
                 cpu = match c with Some x => x | None => 0%float end /\
                 mem = match m with Some x => x | None => 0%float end) /\
    (body = BodyDict None -> cpu = 0%float /\ mem = 0%float) /\
    _check_server_health server start_time p
    = {| ip := ip server; port := port server; healthy := true;
         last_latency_ms := ((end_time - start_time) * 1000)%float;
         cpu_percent := cpu; memory_percent := mem;
         active_connections := active_connections server;
         total_requests := total_requests server;
         last_health_check := now; weight := weight server |}.
Proof.
  destruct p as [|end_time status_code body now]; simpl; [discriminate |].
  destruct (Z.eqb_spec status_code 200) as [-> | Hs]; [| discriminate].
  destruct (read_metrics body) as [[cpu mem]|] eqn:E; [| discriminate].
  intros _. exists end_time, body, now, cpu, mem.
  split; [reflexivity |]. split; [exact E |].
  split; [| split; [| reflexivity]].
  - intros c m ->. simpl in E. injection E as <- <-. split; reflexivity.
  - intros ->. simpl in E. injection E as <- <-. split; reflexivity.
Qed.

Lemma successful_probe_effect_witness :
  let server := example_server 5001 false 10 30 40 0 in
  let p := Response 2.25 200 (BodyDict None) 2.25 in
  probe_succeeded p = true /\
  exists end_time body now cpu mem,
    p = Response end_time 200 body now /\
    read_metrics body = Some (cpu, mem) /\
    (forall c m, body = BodyDict (Some (MetricsDict c m)) ->
                 cpu = match c with Some x => x | None => 0%float end /\
                 mem = match m with Some x => x | None => 0%float end) /\
    (body = BodyDict None -> cpu = 0%float /\ mem = 0%float) /\
    _check_server_health server 2 p
    = {| ip := ip server; port := port server; healthy := true;
         last_latency_ms := ((end_time - 2) * 1000)%float;
         cpu_percent := cpu; memory_percent := mem;
         active_connections := active_connections server;
         total_requests := total_requests server;
         last_health_check := now; weight := weight server |}.
Proof.
  split; [reflexivity |].
  apply (successful_probe_effect (example_server 5001 false 10 30 40 0) 2
           (Response 2.25 200 (BodyDict None) 2.25)).
  reflexivity.
Defined.

(** ** What a selection leaves behind *)

Section SelectionState.

Lemma store_healthy_map (d : dict ServerMetrics) (f : ServerMetrics -> ServerMetrics) :
  store_healthy d (map f (filter healthy (dict_values d)))
  = map (fun '(k, s) => (k, if healthy s then f s else s)) d.
Proof.
  induction d as [|[k s] d IH]; simpl; [reflexivity |].
  destruct (healthy s); simpl; rewrite IH; reflexivity.
Qed.

Lemma map_after_selection_same (algorithm : LoadBalancingAlgorithm)
  (d : dict ServerMetrics) :
  (forall s, In s (dict_values d) -> after_selection algorithm s = s) ->
  map (fun '(k, s) => (k, after_selection algorithm s)) d = d.
Proof.
  induction d as [|[k s] d IH]; simpl; intros H; [reflexivity |].
  rewrite H by auto. rewrite IH by auto. reflexivity.
Qed.

Lemma latency_weighted_select_snd (l : list ServerMetrics) :
  l <> [] ->
  snd (_latency_weighted_select l) = map assign_latency_weight l.
Proof.
  destruct l as [|x l]; [congruence | intros _].
  unfold _latency_weighted_select. cbv zeta.
  destruct (PrimFloat.eqb _ _).
  - reflexivity.
  - reflexivity.
Qed.

(** The registry after a selection: the weighted policies have assigned the
    weight of every healthy descriptor, and nothing else has changed. *)
Lemma select_server_servers (self : LoadBalancer) :
  servers (snd (select_server self))
  = map (fun '(k, s) => (k, after_selection (current_algorithm self) s)) (servers self).
Proof.
  unfold select_server.
  destruct (filter healthy (dict_values (servers self))) as [|x l] eqn:El.
  - cbn [snd]. symmetry. apply map_after_selection_same.
    intros s Hs. unfold after_selection.
    destruct (healthy s) eqn:Hh; [| reflexivity].
    assert (Hin : In s (filter healthy (dict_values (servers self))))
      by (apply filter_In; auto).
    rewrite El in Hin. destruct Hin.
  - destruct (current_algorithm self).
    + destruct (_round_robin_select (round_robin_index self) (x :: l)) as [r i].
      cbn [snd servers with_round_robin_index]. symmetry.
      apply map_after_selection_same. intros s _. unfold after_selection.
      destruct (healthy s); reflexivity.
    + destruct (_least_connections_select (x :: l)); cbn [snd]; symmetry;
        apply map_after_selection_same; intros s _; unfold after_selection;
        destruct (healthy s); reflexivity.
    + pose proof (latency_weighted_select_snd (x :: l) ltac:(discriminate)) as Hs.
      destruct (_latency_weighted_select (x :: l)) as [r updated].
      cbn [snd] in Hs. subst updated. cbn [snd servers with_servers].
      rewrite <- El. apply store_healthy_map.
    + unfold _weighted_round_robin_select.
      cbn [snd servers with_servers].
      rewrite <- El. apply (store_healthy_map (servers self) assign_performance_weight).
Qed.

Lemma select_server_fields (self : LoadBalancer) :
  request_counts (snd (select_server self)) = request_counts self /\
  current_algorithm (snd (select_server self)) = current_algorithm self /\
  health_check_interval (snd (select_server self)) = health_check_interval self.
Proof.
  unfold select_server.
  destruct (filter healthy (dict_values (servers self))) as [|x l]; [auto |].
  destruct (current_algorithm self) eqn:E.
  - destruct (_round_robin_select (round_robin_index self) (x :: l)) as [r i].
    cbn. auto.
  - destruct (_least_connections_select (x :: l)); cbn; auto.
  - destruct (_latency_weighted_select (x :: l)) as [r updated]. cbn. auto.
  - destruct (_weighted_round_robin_select (x :: l)) as [r updated]. cbn. auto.
Qed.

Lemma select_server_cursor (self : LoadBalancer) :
  round_robin_index (snd (select_server self))
  = match current_algorithm self, get_healthy_servers self with
    | ROUND_ROBIN, _ :: _ => round_robin_index self + 1
    | _, _ => round_robin_index self
    end.
Proof.
  unfold select_server, get_healthy_servers.
  destruct (filter healthy (dict_values (servers self))) as [|x l] eqn:El.
  - destruct (current_algorithm self); reflexivity.
  - destruct (current_algorithm self) eqn:E.
    + unfold _round_robin_select.
      destruct (getitem_in_range (x :: l)
                  (round_robin_index self mod Z.of_nat (List.length (x :: l))))
        as (y & _ & Hget).
      { apply Z.mod_pos_bound. simpl List.length. lia. }
      rewrite Hget. reflexivity.
    + destruct (_least_connections_select (x :: l)); reflexivity.
    + destruct (_latency_weighted_select (x :: l)) as [r updated]. reflexivity.
    + destruct (_weighted_round_robin_select (x :: l)) as [r updated]. reflexivity.
Qed.

Lemma after_selection_weight_only (algorithm : LoadBalancingAlgorithm) (s : ServerMetrics) :
  after_selection algorithm s = set_weight s (weight (after_selection algorithm s)) /\
  healthy (after_selection algorithm s) = healthy s.
Proof.
  unfold after_selection.
  destruct (healthy s) eqn:E, algorithm; cbn; rewrite ?E; destruct s; auto.
Qed.


End SelectionState.

(** ** Selections repeated without new measurements *)

Section RepeatedSelection.

Lemma after_selection_idempotent (algorithm : LoadBalancingAlgorithm) (s : ServerMetrics) :
  after_selection algorithm (after_selection algorithm s) = after_selection algorithm s.
Proof.
  unfold after_selection.
  destruct (healthy s) eqn:E; [| rewrite E; reflexivity].
  rewrite healthy_selected_as, E. destruct algorithm; reflexivity.
Qed.

Lemma healthy_after_selection (algorithm : LoadBalancingAlgorithm) (d : dict ServerMetrics) :
  filter healthy
    (dict_values (map (fun '(k, s) => (k, after_selection algorithm s)) d))
  = map (selected_as algorithm) (filter healthy (dict_values d)).
Proof.
  induction d as [|[k s] d IH]; [reflexivity |].
  unfold dict_values in *. cbn [map snd filter].
  unfold after_selection at 1 2.
  destruct (healthy s) eqn:E.
  - rewrite healthy_selected_as, E. cbn [map]. rewrite IH. reflexivity.
  - rewrite E. exact IH.
Qed.

Lemma map_selected_as_twice (algorithm : LoadBalancingAlgorithm) (l : list ServerMetrics) :
  map (selected_as algorithm) (map (selected_as algorithm) l)
  = map (selected_as algorithm) l.
Proof.
  rewrite map_map. apply map_ext. intros s. destruct algorithm; reflexivity.
Qed.

(** The selection depends on the healthy list, the policy and the cursor. *)
Lemma select_server_fst (self : LoadBalancer) :
  fst (select_server self)
  = policy_answer (current_algorithm self) (round_robin_index self)
      (get_healthy_servers self).
Proof.
  unfold get_healthy_servers, select_server, policy_answer.
  destruct (filter healthy (dict_values (servers self))) as [|x l]; [reflexivity |].
  destruct (current_algorithm self).
  - destruct (_round_robin_select (round_robin_index self) (x :: l)). reflexivity.
  - destruct (_least_connections_select (x :: l)); reflexivity.
  - destruct (_latency_weighted_select (x :: l)). reflexivity.
  - destruct (_weighted_round_robin_select (x :: l)). reflexivity.
Qed.

(** The two weighted policies read nothing that they assign. *)
Lemma latency_weighted_select_ext (l1 l2 : list ServerMetrics) :
  map assign_latency_weight l1 = map assign_latency_weight l2 ->
  fst (_latency_weighted_select l1) = fst (_latency_weighted_select l2).
Proof.
  intros H.
  destruct l1 as [|x1 l1], l2 as [|x2 l2];
    [reflexivity | discriminate H | discriminate H |].
  unfold _latency_weighted_select. cbv zeta.
  change (fun server => set_weight server (latency_weight server))
    with assign_latency_weight.
  rewrite H. reflexivity.
Qed.

Lemma latency_weighted_select_assigned (l : list ServerMetrics) :
  fst (_latency_weighted_select (map assign_latency_weight l))
  = fst (_latency_weighted_select l).
Proof.
  apply latency_weighted_select_ext.
  apply (map_selected_as_twice LATENCY_WEIGHTED l).
Qed.

Lemma weighted_round_robin_select_assigned (l : list ServerMetrics) :
  fst (_weighted_round_robin_select (map assign_performance_weight l))
  = fst (_weighted_round_robin_select l).
Proof.
  pose proof (map_selected_as_twice WEIGHTED_ROUND_ROBIN l) as H.
  change (selected_as WEIGHTED_ROUND_ROBIN) with assign_performance_weight in H.
  unfold _weighted_round_robin_select. cbn [fst].
  change (fun server => set_weight server (performance_weight server))
    with assign_performance_weight.
  rewrite H. reflexivity.
Qed.

Lemma LoadBalancer_eq (a b : LoadBalancer) :
  servers a = servers b ->
  current_algorithm a = current_algorithm b ->
  round_robin_index a = round_robin_index b ->
  health_check_interval a = health_check_interval b ->
  request_counts a = request_counts b ->
  a = b.
Proof. destruct a, b. cbn. intros -> -> -> -> ->. reflexivity. Qed.

Lemma select_server_again (self : LoadBalancer) :
  current_algorithm self <> ROUND_ROBIN ->
  select_server (snd (select_server self))
  = (fst (select_server self), snd (select_server self)).
Proof.
  intros Hrr.
  destruct (select_server_fields self) as (Hc & Ha & Hi).
  destruct (select_server_fields (snd (select_server self))) as (Hc' & Ha' & Hi').
  pose proof (select_server_cursor self) as Hx.
  pose proof (select_server_cursor (snd (select_server self))) as Hx'.
  rewrite Ha in Hx'.
  assert (Hx2 : round_robin_index (snd (select_server self)) = round_robin_index self)
    by (rewrite Hx; destruct (current_algorithm self); [congruence | | |]; reflexivity).
  assert (Hx3 : round_robin_index (snd (select_server (snd (select_server self))))
                = round_robin_index (snd (select_server self)))
    by (rewrite Hx'; destruct (current_algorithm self); [congruence | | |]; reflexivity).
  rewrite (surjective_pairing (select_server (snd (select_server self)))).
  f_equal.
  - rewrite !select_server_fst. unfold get_healthy_servers.
    rewrite Ha, Hx2, select_server_servers, healthy_after_selection.
    destruct (filter healthy (dict_values (servers self))) as [|x l]; [reflexivity |].
    destruct (current_algorithm self) eqn:E; [congruence | | |].
    + replace (map (selected_as LEAST_CONNECTIONS) (x :: l)) with (x :: l)
        by (symmetry; exact (map_id (x :: l))).
      reflexivity.
    + cbn [map policy_answer].
      exact (latency_weighted_select_assigned (x :: l)).
    + cbn [map policy_answer].
      change (selected_as WEIGHTED_ROUND_ROBIN x
              :: map (selected_as WEIGHTED_ROUND_ROBIN) l)
        with (map assign_performance_weight (x :: l)).
      rewrite (weighted_round_robin_select_assigned (x :: l)). reflexivity.
  - apply LoadBalancer_eq; try congruence.
    rewrite select_server_servers, Ha, select_server_servers, map_map.
    apply map_ext. intros [k s]. rewrite after_selection_idempotent. reflexivity.
Qed.

Lemma select_n_again (n : nat) (self : LoadBalancer) :
  current_algorithm self <> ROUND_ROBIN ->
  select_n n (snd (select_server self))
  = (repeat (fst (select_server self)) n, snd (select_server self)).
Proof.
  intros Hrr. induction n as [|n IH]; [reflexivity |].
  cbn [select_n repeat]. rewrite (select_server_again self Hrr), IH. reflexivity.
Qed.

(** X6.  Under every policy but round robin, selections that follow each
    other with no health check, recorded request or change of policy in
    between all return the same answer, and the calls after the first
    change nothing: the weighted policies do not distribute in proportion
    to the weights. *)
Theorem select_n_same_server (n : nat) (self : LoadBalancer) :
  current_algorithm self <> ROUND_ROBIN ->
  select_n (S n) self
  = (repeat (fst (select_server self)) (S n), snd (select_server self)).
Proof.
  intros Hrr. cbn [select_n repeat].
  destruct (select_server self) as [r self'] eqn:E.
  replace self' with (snd (select_server self)) by (rewrite E; reflexivity).
  replace r with (fst (select_server self)) by (rewrite E; reflexivity).
  rewrite (select_n_again n self Hrr). reflexivity.
Qed.

Lemma select_n_same_server_witness :
  current_algorithm (set_algorithm (example_registry true true true) WEIGHTED_ROUND_ROBIN)
  <> ROUND_ROBIN /\
  select_n 3 (set_algorithm (example_registry true true true) WEIGHTED_ROUND_ROBIN)
  = (repeat (fst (select_server
                    (set_algorithm (example_registry true true true)
                       WEIGHTED_ROUND_ROBIN))) 3,
     snd (select_server
            (set_algorithm (example_registry true true true) WEIGHTED_ROUND_ROBIN))).
Proof.
  split; [discriminate |].
  apply (select_n_same_server 2
           (set_algorithm (example_registry true true true) WEIGHTED_ROUND_ROBIN)).
  discriminate.
Defined.

End RepeatedSelection.

(** ** One pass of the health monitor *)

Section HealthMonitor.

Context {V : Type}.

Lemma dict_keys_map_values (f : string -> V -> V) (d : dict V) :
  dict_keys (map (fun '(k, v) => (k, f k v)) d) = dict_keys d.
Proof.
  unfold dict_keys. rewrite map_map. apply map_ext. intros [k v]. reflexivity.
Qed.

Lemma dict_get_map_values (f : string -> V -> V) (d : dict V) (k : string) :
  dict_get (map (fun '(k, v) => (k, f k v)) d) k = option_map (f k) (dict_get d k).
Proof.
  induction d as [|[k' v] d IH]; simpl; [reflexivity |].
  destruct (String.eqb_spec k' k) as [-> | _]; [reflexivity | exact IH].
Qed.

End HealthMonitor.

Lemma health_monitor_pass_healthy_ids (world : string -> float * probe)
  (d : dict ServerMetrics) :
  map fst
    (filter (fun e => healthy (snd e))
       (map (fun '(server_id, server) =>
               (server_id,
                _check_server_health server (fst (world server_id))
                  (snd (world server_id)))) d))
  = filter (fun k => probe_succeeded (snd (world k))) (dict_keys d).
Proof.
  induction d as [|[k s] d IH]; simpl; [reflexivity |].
  rewrite check_server_health_healthy.
  destruct (probe_succeeded (snd (world k))); simpl; rewrite IH; reflexivity.
Qed.

(** X7.  A pass of the health monitor decides the health of every server
    anew: the healthy servers after the pass are exactly those whose probe
    succeeded, whatever their health before, so a failed server comes back
    with its first successful probe and a healthy one is dropped with its
    first failed one.  The keys of the registry, the request counts, the
    policy and the cursor are as before. *)
Theorem health_monitor_pass_effect (self : LoadBalancer) (world : string -> float * probe) :
  let self' := health_monitor_pass self world in
  healthy_ids self'
  = filter (fun k => probe_succeeded (snd (world k))) (dict_keys (servers self)) /\
  dict_keys (servers self') = dict_keys (servers self) /\
  request_counts self' = request_counts self /\
  current_algorithm self' = current_algorithm self /\
  round_robin_index self' = round_robin_index self.
Proof.
  cbv zeta. unfold health_monitor_pass, healthy_ids. cbn [servers with_servers].
  split; [apply health_monitor_pass_healthy_ids |].
  split; [| repeat split].
  apply (dict_keys_map_values
           (fun server_id server =>
              _check_server_health server (fst (world server_id))
                (snd (world server_id)))).
Qed.

Lemma healthy_ids_nil (self : LoadBalancer) :
  healthy_ids self = [] -> get_healthy_servers self = [].
Proof.
  unfold healthy_ids, get_healthy_servers, dict_values.
  induction (servers self) as [|[k s] d IH]; simpl; [reflexivity |].
  destruct (healthy s); simpl; [discriminate | exact IH].
Qed.

Lemma select_server_nil (self : LoadBalancer) :
  get_healthy_servers self = [] -> select_server self = (Ok None, self).
Proof.
  unfold get_healthy_servers, select_server. intros ->. reflexivity.
Qed.

(** X8.  After a pass of the health monitor in which no probe succeeded,
    every policy answers [None], and a packet to the virtual address is
    flooded without any flow rule being installed. *)
Theorem all_probes_failed
  (sdn : SDNLoadBalancer) (lb : LoadBalancer) (world : string -> float * probe)
  (algorithm : LoadBalancingAlgorithm) (ev : PacketIn) (client_ip : string) :
  (forall k, In k (dict_keys (servers lb)) -> probe_succeeded (snd (world k)) = false) ->
  getitem (get_ethernets (ev_pkt ev)) 0 = Ok ETH_TYPE_IP ->
  get_ipv4 (ev_pkt ev) = Some (client_ip, virtual_ip sdn) ->
  let lb' := set_algorithm (health_monitor_pass lb world) algorithm in
  select_server lb' = (Ok None, lb') /\
  packet_in_handler (with_load_balancer sdn lb') ev
  = (Ok tt, with_load_balancer sdn lb', [flood_packet ev]).
Proof.
  intros Hfail Heth Hip. cbv zeta.
  assert (Hnil : get_healthy_servers
                   (set_algorithm (health_monitor_pass lb world) algorithm) = []).
  { apply healthy_ids_nil.
    change (healthy_ids (set_algorithm (health_monitor_pass lb world) algorithm))
      with (healthy_ids (health_monitor_pass lb world)).
    unfold health_monitor_pass, healthy_ids. cbn [servers with_servers].
    rewrite health_monitor_pass_healthy_ids.
    induction (dict_keys (servers lb)) as [|k ks IH]; [reflexivity |].
    simpl. rewrite (Hfail k) by (left; reflexivity).
    apply IH. intros k' Hk'. apply Hfail. right. exact Hk'. }
  split; [apply select_server_nil, Hnil |].
  unfold packet_in_handler. cbn [load_balancer with_load_balancer virtual_ip].
  rewrite Heth. cbn [Z.eqb ETH_TYPE_IP ETH_TYPE_LLDP Pos.eqb].
  rewrite Hip, String.eqb_refl, (select_server_nil _ Hnil). reflexivity.
Qed.

Lemma all_probes_failed_witness :
  let sdn := {| load_balancer := None; virtual_ip := "10.0.0.100"; virtual_port := 80 |} in
  let lb := example_registry true true true in
  let world := fun _ : string => (0%float, RequestFailed) in
  let ev := {| ev_datapath := 1; ev_in_port := 1; ev_buffer_id := 0; ev_data := "";
               ev_pkt := [ethernet ETH_TYPE_IP; ipv4 "10.0.0.1" "10.0.0.100"] |} in
  let lb' := set_algorithm (health_monitor_pass lb world) LATENCY_WEIGHTED in
  getitem (get_ethernets (ev_pkt ev)) 0 = Ok ETH_TYPE_IP /\
  get_ipv4 (ev_pkt ev) = Some ("10.0.0.1", virtual_ip sdn) /\
  select_server lb' = (Ok None, lb') /\
  packet_in_handler (with_load_balancer sdn lb') ev
  = (Ok tt, with_load_balancer sdn lb', [flood_packet ev]).
Proof.
  cbv zeta.
  split; [reflexivity |]. split; [reflexivity |].
  apply (all_probes_failed
           {| load_balancer := None; virtual_ip := "10.0.0.100"; virtual_port := 80 |}
           (example_registry true true true)
           (fun _ : string => (0%float, RequestFailed))
           LATENCY_WEIGHTED
           {| ev_datapath := 1; ev_in_port := 1; ev_buffer_id := 0; ev_data := "";
              ev_pkt := [ethernet ETH_TYPE_IP; ipv4 "10.0.0.1" "10.0.0.100"] |}
           "10.0.0.1").
  - intros k _. reflexivity.
  - reflexivity.
  - reflexivity.
Defined.

(** ** What holds of a load balancer at any time *)

Section Reachable.

Lemma add_key_present (keys : list string) (k : string) :
  In k keys -> add_key keys k = keys.
Proof.
  induction keys as [|k' keys IH]; simpl; [tauto |].
  destruct (String.eqb_spec k' k) as [E | E]; [reflexivity |].
  intros [H | H]; [congruence |]. rewrite IH by exact H. reflexivity.
Qed.

Lemma dict_get_key {V : Type} (d : dict V) (k : string) (v : V) :
  dict_get d k = Some v -> In k (dict_keys d).
Proof.
  intros H. apply dict_get_In in H. unfold dict_keys.
  apply in_map_iff. exists (k, v). auto.
Qed.

Lemma server_id_set_weight (s : ServerMetrics) (w : float) :
  server_id (set_weight s w) = server_id s.
Proof. reflexivity. Qed.

Lemma after_selection_frame (algorithm : LoadBalancingAlgorithm) (s : ServerMetrics) :
  server_id (after_selection algorithm s) = server_id s /\
  active_connections (after_selection algorithm s) = active_connections s /\
  total_requests (after_selection algorithm s) = total_requests s.
Proof.
  unfold after_selection. destruct (healthy s), algorithm; auto.
Qed.

Lemma registry_invariant_new (l : list (string * Z)) :
  registry_invariant (distinct (configured_ids l)) (new_LoadBalancer l).
Proof.
  unfold registry_invariant, new_LoadBalancer.
  match goal with
  | |- context [init_servers ?e l] => set (empty := e)
  end.
  destruct (init_servers_keys l empty) as [Hs Hc].
  change (dict_keys (servers empty)) with (@nil string) in Hs.
  change (dict_keys (request_counts empty)) with (@nil string) in Hc.
  fold (distinct (configured_ids l)) in Hs, Hc.
  split; [exact Hs |]. split; [exact Hc |].
  intros k s Hget.
  pose proof (dict_get_key _ _ _ Hget) as Hk.
  apply dict_get_In in Hget.
  apply init_servers_entries in Hget.
  destruct Hget as [[] | (ip & port & _ & -> & ->)].
  rewrite Hs, <- Hc in Hk.
  destruct (dict_get_Some_key _ _ Hk) as [n Hn].
  pose proof (dict_get_In _ _ _ Hn) as Hin.
  apply init_servers_counts in Hin. destruct Hin as [[] | ->].
  cbn [new_ServerMetrics total_requests active_connections].
  repeat split; [lia | exact Hn].
Qed.

Lemma registry_invariant_perform (ids : list string) (self : LoadBalancer)
  (op : operation) :
  registry_invariant ids self -> registry_invariant ids (perform self op).
Proof.
  intros (Hs & Hc & Hall).
  destruct op as [| k latency_ms | algorithm | world | k start_time p]; cbn [perform].
  - destruct (select_server_fields self) as (Hc' & _ & _).
    unfold registry_invariant. rewrite Hc', select_server_servers.
    split; [| split; [exact Hc |]].
    + rewrite <- Hs.
      apply (dict_keys_map_values
               (fun _ s => after_selection (current_algorithm self) s)).
    + intros k s.
      rewrite (dict_get_map_values
                 (fun _ s => after_selection (current_algorithm self) s)).
      destruct (dict_get (servers self) k) as [s0|] eqn:E; [| discriminate].
      cbn [option_map]. intros [= <-].
      destruct (after_selection_frame (current_algorithm self) s0) as (-> & -> & ->).
      apply Hall, E.
  - unfold record_request.
    destruct (dict_get (servers self) k) as [server|] eqn:E;
      [| split; [exact Hs | split; [exact Hc | exact Hall]]].
    pose proof (dict_get_key _ _ _ E) as Hk.
    destruct (Hall k server E) as (Hid & Hact & Htot & Hcount).
    unfold registry_invariant.
    cbn [servers request_counts with_servers with_request_counts].
    rewrite !dict_keys_set.
    split; [rewrite add_key_present by exact Hk; exact Hs |].
    split; [rewrite Hc, <- Hs, add_key_present by exact Hk; reflexivity |].
    intros k0 s0.
    destruct (String.eqb_spec k0 k) as [-> | Hne].
    + rewrite !dict_get_set_same. intros [= <-].
      unfold dict_get_default. rewrite Hcount.
      cbn [server_id ip port active_connections total_requests
           set_total_requests set_last_latency_ms].
      repeat split; [exact Hid | exact Hact | lia].
    + rewrite !dict_get_set_other by exact Hne. apply Hall.
  - exact (conj Hs (conj Hc Hall)).
  - unfold registry_invariant, health_monitor_pass.
    cbn [servers request_counts with_servers].
    split; [| split; [exact Hc |]].
    + rewrite <- Hs.
      apply (dict_keys_map_values
               (fun server_id server =>
                  _check_server_health server (fst (world server_id))
                    (snd (world server_id)))).
    + intros k s.
      rewrite (dict_get_map_values
                 (fun server_id server =>
                    _check_server_health server (fst (world server_id))
                      (snd (world server_id)))).
      destruct (dict_get (servers self) k) as [s0|] eqn:E; [| discriminate].
      cbn [option_map]. intros [= <-].
      destruct (check_server_health_frame s0 (fst (world k)) (snd (world k)))
        as (Hip & Hport & Hact & Htot & _).
      unfold server_id. rewrite Hip, Hport, Hact, Htot.
      apply Hall, E.
  - unfold check_registered_server.
    destruct (dict_get (servers self) k) as [server|] eqn:E;
      [| split; [exact Hs | split; [exact Hc | exact Hall]]].
    pose proof (dict_get_key _ _ _ E) as Hk.
    unfold registry_invariant. cbn [servers request_counts with_servers].
    rewrite dict_keys_set.
    split; [rewrite add_key_present by exact Hk; exact Hs |].
    split; [exact Hc |].
    intros k0 s0.
    destruct (String.eqb_spec k0 k) as [-> | Hne].
    + rewrite dict_get_set_same. intros [= <-].
      destruct (check_server_health_frame server start_time p)
        as (Hip & Hport & Hact & Htot & _).
      unfold server_id. rewrite Hip, Hport, Hact, Htot.
      apply Hall, E.
    + rewrite dict_get_set_other by exact Hne. apply Hall.
Qed.

Lemma registry_invariant_run (ids : list string) (ops : list operation)
  (self : LoadBalancer) :
  registry_invariant ids self -> registry_invariant ids (run self ops).
Proof.
  revert self. induction ops as [|op ops IH]; intros self H; [exact H |].
  apply IH, registry_invariant_perform, H.
Qed.

(** X9.  Whatever sequence of selections, recorded requests, changes of
    policy and health checks a load balancer has gone through, its
    registry and its request counts still have exactly the ids of the
    configured list as keys, in order of first occurrence and without
    repetition; every descriptor carries the id it is stored under, has
    never had an active connection counted, and its total of requests is
    the count kept for its key. *)
Theorem registry_stays_consistent (l : list (string * Z)) (ops : list operation) :
  let self := run (new_LoadBalancer l) ops in
  dict_keys (servers self) = distinct (configured_ids l) /\
  dict_keys (request_counts self) = distinct (configured_ids l) /\
  NoDup (dict_keys (servers self)) /\
  forall k s,
    dict_get (servers self) k = Some s ->
    server_id s = k /\ active_connections s = 0 /\ 0 <= total_requests s /\
    dict_get (request_counts self) k = Some (total_requests s).
Proof.
  cbv zeta.
  destruct (registry_invariant_run _ ops _ (registry_invariant_new l))
    as (Hs & Hc & Hall).
  split; [exact Hs |]. split; [exact Hc |].
  split; [rewrite Hs; apply distinct_NoDup | exact Hall].
Qed.

End Reachable.

Section ReachableSelection.

Lemma NoDup_dict_get {V : Type} (d : dict V) (k : string) (v : V) :
  NoDup (dict_keys d) -> In (k, v) d -> dict_get d k = Some v.
Proof.
  induction d as [|[k' v'] d IH]; simpl; intros Hnd Hin; [destruct Hin |].
  apply NoDup_cons_iff in Hnd. destruct Hnd as [Hnotin Hnd].
  destruct Hin as [[= -> ->] | Hin]; [rewrite String.eqb_refl; reflexivity |].
  destruct (String.eqb_spec k' k) as [-> | _]; [| apply IH; assumption].
  exfalso. apply Hnotin. unfold dict_keys. apply in_map_iff. exists (k, v). auto.
Qed.

Lemma registry_invariant_no_connections (ids : list string) (self : LoadBalancer)
  (s : ServerMetrics) :
  NoDup ids -> registry_invariant ids self ->
  In s (get_healthy_servers self) -> active_connections s = 0.
Proof.
  intros Hnd (Hs & _ & Hall) Hin.
  unfold get_healthy_servers in Hin. apply filter_In in Hin. destruct Hin as [Hin _].
  unfold dict_values in Hin. apply in_map_iff in Hin.
  destruct Hin as ([k s'] & Heq & Hin). cbn [snd] in Heq. subst s'.
  apply (Hall k s). apply NoDup_dict_get; [rewrite Hs; exact Hnd | exact Hin].
Qed.

(** X10.  Nothing in the controller ever counts a connection, so in every
    state a load balancer can reach, the least-connections policy compares
    zeros: it returns the first healthy server of the registry, every
    time. *)
Theorem least_connections_returns_first_healthy
  (l : list (string * Z)) (ops : list operation) :
  let self := run (new_LoadBalancer l) ops in
  current_algorithm self = LEAST_CONNECTIONS ->
  select_server self = (Ok (hd_error (get_healthy_servers self)), self).
Proof.
  cbv zeta. intros Halg.
  pose proof (registry_invariant_run _ ops _ (registry_invariant_new l)) as Hinv.
  assert (Hzero : forall s, In s (get_healthy_servers (run (new_LoadBalancer l) ops)) ->
                            active_connections s = 0).
  { intros s. apply (registry_invariant_no_connections _ _ s
                       (distinct_NoDup (configured_ids l)) Hinv). }
  revert Hzero. unfold select_server, get_healthy_servers. rewrite Halg.
  destruct (filter healthy (dict_values (servers (run (new_LoadBalancer l) ops))))
    as [|x rest]; [reflexivity |].
  intros Hzero. unfold _least_connections_select, min_key.
  rewrite min_loop_constant; [reflexivity |].
  apply Forall_forall. intros y Hy.
  rewrite (Hzero x) by (left; reflexivity).
  apply Hzero. right. exact Hy.
Qed.

Lemma least_connections_returns_first_healthy_witness :
  let l := [("10.0.0.1"%string, 5001); ("10.0.0.2"%string, 5002)] in
  let ops := [Select; RecordRequest "10.0.0.2:5002" 12; SetAlgorithm LEAST_CONNECTIONS;
              RecordRequest "10.0.0.1:5001" 30; Select] in
  let self := run (new_LoadBalancer l) ops in
  current_algorithm self = LEAST_CONNECTIONS /\
  select_server self = (Ok (hd_error (get_healthy_servers self)), self).
Proof.
  cbv zeta. split; [reflexivity |].
  apply (least_connections_returns_first_healthy
           [("10.0.0.1"%string, 5001); ("10.0.0.2"%string, 5002)]
           [Select; RecordRequest "10.0.0.2:5002" 12; SetAlgorithm LEAST_CONNECTIONS;
            RecordRequest "10.0.0.1:5001" 30; Select]).
  reflexivity.
Defined.

End ReachableSelection.

(** ** Statistics *)

Section Statistics.

Lemma fold_left_add_acc (l : list Z) (a : Z) :
  fold_left Z.add l a = a + sum_int l.
Proof.
  unfold sum_int. revert a. induction l as [|x l IH]; intros a; simpl; [lia |].
  rewrite (IH (a + x)), (IH x). lia.
Qed.

Lemma sum_int_cons (x : Z) (l : list Z) : sum_int (x :: l) = x + sum_int l.
Proof. unfold sum_int at 1. simpl. apply fold_left_add_acc. Qed.

Lemma sum_int_dict_set (d : dict Z) (k : string) (v : Z) :
  sum_int (dict_values (dict_set d k v))
  = sum_int (dict_values d) - dict_get_default d k 0 + v.
Proof.
  unfold dict_get_default, dict_values.
  induction d as [|[k' v'] d IH]; simpl.
  - rewrite sum_int_cons. unfold sum_int. simpl. lia.
  - destruct (String.eqb_spec k' k) as [E | E]; simpl; rewrite !sum_int_cons.
    + lia.
    + rewrite IH. lia.
Qed.

Lemma existsb_eqb_In (k : string) (ids : list string) :
  existsb (String.eqb k) ids = true <-> In k ids.
Proof.
  rewrite existsb_exists. split.
  - intros (x & Hin & E). apply String.eqb_eq in E. subst x. exact Hin.
  - intros Hin. exists k. split; [exact Hin | apply String.eqb_refl].
Qed.

Lemma records_for_distinct (ids : list string) (op : operation) :
  records_for (distinct ids) op = records_for ids op.
Proof.
  destruct op as [| k latency_ms | | |]; try reflexivity. cbn [records_for].
  apply eq_true_iff_eq. rewrite !existsb_eqb_In. apply distinct_In.
Qed.

Lemma perform_total (ids : list string) (self : LoadBalancer) (op : operation) :
  registry_invariant ids self ->
  sum_int (dict_values (request_counts (perform self op)))
  = sum_int (dict_values (request_counts self))
    + (if records_for ids op then 1 else 0).
Proof.
  intros (Hs & Hc & Hall).
  destruct op as [| k latency_ms | algorithm | world | k start_time p];
    cbn [perform records_for].
  - destruct (select_server_fields self) as (-> & _ & _). lia.
  - unfold record_request.
    destruct (dict_get (servers self) k) as [server|] eqn:E.
    + pose proof (dict_get_key _ _ _ E) as Hk. rewrite Hs in Hk.
      apply existsb_eqb_In in Hk. rewrite Hk.
      cbn [request_counts with_request_counts with_servers].
      rewrite sum_int_dict_set. lia.
    + apply dict_get_None in E. rewrite Hs in E.
      destruct (existsb (String.eqb k) ids) eqn:Hk; [| lia].
      apply existsb_eqb_In in Hk. contradiction.
  - cbn [request_counts set_algorithm]. lia.
  - cbn [request_counts health_monitor_pass with_servers]. lia.
  - unfold check_registered_server.
    destruct (dict_get (servers self) k); cbn [request_counts with_servers]; lia.
Qed.

Lemma run_total (ids : list string) (ops : list operation) (self : LoadBalancer) :
  registry_invariant ids self ->
  sum_int (dict_values (request_counts (run self ops)))
  = sum_int (dict_values (request_counts self))
    + Z.of_nat (List.length (filter (records_for ids) ops)).
Proof.
  revert self. induction ops as [|op ops IH]; intros self H.
  - cbn. lia.
  - change (run self (op :: ops)) with (run (perform self op) ops).
    rewrite (IH _ (registry_invariant_perform _ _ op H)), (perform_total _ _ op H).
    cbn [filter]. destruct (records_for ids op); cbn [List.length]; lia.
Qed.

Lemma new_LoadBalancer_total (l : list (string * Z)) :
  sum_int (dict_values (request_counts (new_LoadBalancer l))) = 0.
Proof.
  assert (H : forall e, In e (request_counts (new_LoadBalancer l)) -> snd e = 0).
  { intros [k n] Hin. unfold new_LoadBalancer in Hin.
    apply init_servers_counts in Hin. destruct Hin as [[] | ->]. reflexivity. }
  induction (request_counts (new_LoadBalancer l)) as [|[k n] d IH]; [reflexivity |].
  unfold dict_values in *. cbn [map snd]. rewrite sum_int_cons.
  pose proof (H (k, n) (or_introl eq_refl)) as Hn. cbn [snd] in Hn. subst n.
  rewrite IH; [reflexivity |]. intros e He. apply H. right. exact He.
Qed.

Lemma dict_values_by_key (d : dict Z) :
  NoDup (dict_keys d) ->
  map (fun k => dict_get_default d k 0) (dict_keys d) = dict_values d.
Proof.
  unfold dict_get_default, dict_keys, dict_values.
  induction d as [|[k v] d IH]; cbn [map fst snd]; intros Hnd; [reflexivity |].
  apply NoDup_cons_iff in Hnd. destruct Hnd as [Hnotin Hnd].
  cbn [dict_get]. rewrite String.eqb_refl. f_equal.
  rewrite <- (IH Hnd). apply map_ext_in. intros k' Hk'.
  destruct (String.eqb_spec k k') as [-> | _]; [contradiction | reflexivity].
Qed.

Variable py_round : float -> Z -> float.

(** X11.  The statistics of a load balancer, at any time: one entry per
    configured server id, in registry order; the total is the number of
    requests recorded so far for configured servers (a request recorded
    for an unknown id is not counted); the request counts of the entries
    add up to the total; and no entry shows an active connection. *)
Theorem server_stats_consistent (l : list (string * Z)) (ops : list operation) :
  let stats := get_server_stats py_round (run (new_LoadBalancer l) ops) in
  map stat_server_id (stats_servers stats) = distinct (configured_ids l) /\
  stats_total_requests stats = count_recorded l ops /\
  sum_int (map stat_request_count (stats_servers stats)) = stats_total_requests stats /\
  Forall (fun entry => stat_active_connections entry = 0 /\
                       0 <= stat_request_count entry)
    (stats_servers stats).
Proof.
  cbv zeta.
  pose proof (registry_invariant_new l) as Hnew.
  pose proof (registry_invariant_run _ ops _ Hnew) as Hinv.
  pose proof (run_total _ ops _ Hnew) as Htotal.
  rewrite new_LoadBalancer_total in Htotal.
  destruct Hinv as (Hs & Hc & Hall).
  set (self := run (new_LoadBalancer l) ops) in *.
  pose proof (distinct_NoDup (configured_ids l)) as Hnd.
  cbn [get_server_stats stats_servers stats_total_requests].
  rewrite !map_map.
  split; [| split; [| split]].
  - rewrite <- Hs. unfold dict_keys. apply map_ext. intros [k s]. reflexivity.
  - rewrite Htotal. unfold count_recorded. cbn [Z.add]. f_equal. f_equal.
    induction ops as [|op ops' _]; [reflexivity |].
    clear. revert op. induction ops' as [|op' ops' IH]; intros op.
    + cbn [filter]. rewrite records_for_distinct. reflexivity.
    + cbn [filter] in *. rewrite records_for_distinct.
      change (match op with
              | RecordRequest server_id _ =>
                  existsb (String.eqb server_id) (configured_ids l)
              | _ => false
              end) with (records_for (configured_ids l) op).
      destruct (records_for (configured_ids l) op); [f_equal |]; apply IH.
  - rewrite <- (dict_values_by_key (request_counts self)) by (rewrite Hc; exact Hnd).
    rewrite Hc, <- Hs. unfold dict_keys. rewrite map_map.
    f_equal. apply map_ext. intros [k s]. reflexivity.
  - apply Forall_forall. intros entry Hin. apply in_map_iff in Hin.
    destruct Hin as ([k s] & <- & Hin).
    cbn [stat_active_connections stat_request_count].
    assert (Hget : dict_get (servers self) k = Some s)
      by (apply NoDup_dict_get; [rewrite Hs; exact Hnd | exact Hin]).
    destruct (Hall k s Hget) as (_ & Hact & Htot & Hcount).
    unfold dict_get_default. rewrite Hcount. auto.
Qed.

End Statistics.

(** ** The answer of a selection *)

Section Answer.

Lemma select_server_some (self : LoadBalancer) :
  get_healthy_servers self <> [] ->
  exists s, In s (get_healthy_servers self) /\
            fst (select_server self)
            = Ok (Some (selected_as (current_algorithm self) s)).
Proof.
  intros Hne. rewrite select_server_fst. unfold policy_answer.
  destruct (get_healthy_servers self) as [|x l]; [congruence |].
  destruct (current_algorithm self); cbn [selected_as].
  - unfold _round_robin_select.
    destruct (getitem_in_range (x :: l)
                (round_robin_index self mod Z.of_nat (List.length (x :: l))))
      as (y & Hnth & Hget).
    { apply Z.mod_pos_bound. simpl List.length. lia. }
    rewrite Hget. exists y. split; [eapply nth_error_In, Hnth | reflexivity].
  - exists (min_loop active_connections x l).
    split; [apply min_loop_In | reflexivity].
  - destruct (latency_weighted_select_In (x :: l) ltac:(discriminate))
      as (s & Hin & Hsel).
    exists s. auto.
  - destruct (weighted_round_robin_select_In (x :: l) ltac:(discriminate))
      as (s & Hin & Hsel).
    exists s. rewrite Hsel. auto.
Qed.

(** The same, by the three policies that do not compute with the CPU and
    memory readings. *)
Lemma select_server_some_unweighted (self : LoadBalancer) :
  current_algorithm self <> WEIGHTED_ROUND_ROBIN ->
  get_healthy_servers self <> [] ->
  exists s, In s (get_healthy_servers self) /\
            fst (select_server self)
            = Ok (Some (selected_as (current_algorithm self) s)).
Proof.
  intros Halg Hne. rewrite select_server_fst. unfold policy_answer.
  destruct (get_healthy_servers self) as [|x l]; [congruence |].
  destruct (current_algorithm self); cbn [selected_as]; [| | | congruence].
  - unfold _round_robin_select.
    destruct (getitem_in_range (x :: l)
                (round_robin_index self mod Z.of_nat (List.length (x :: l))))
      as (y & Hnth & Hget).
    { apply Z.mod_pos_bound. simpl List.length. lia. }
    rewrite Hget. exists y. split; [eapply nth_error_In, Hnth | reflexivity].
  - exists (min_loop active_connections x l).
    split; [apply min_loop_In | reflexivity].
  - destruct (latency_weighted_select_In (x :: l) ltac:(discriminate))
      as (s & Hin & Hsel).
    exists s. auto.
Qed.


(** X12.  Under round robin, least connections and latency weighting,
    [select_server] never raises, for any registry and cursor (a negative
    cursor included); it answers [None] exactly when no server is healthy,
    and otherwise it answers one of the healthy servers.  (Weighted round
    robin is left out: it is the one policy that computes with the CPU and
    memory readings, which a health check stores as the body gives them.) *)
Theorem select_server_answers (self : LoadBalancer) :
  current_algorithm self <> WEIGHTED_ROUND_ROBIN ->
  (exists r, fst (select_server self) = Ok r) /\
  (fst (select_server self) = Ok None <-> get_healthy_servers self = []) /\
  (forall r, fst (select_server self) = Ok (Some r) ->
             In (server_id r) (map server_id (get_healthy_servers self)) /\
             healthy r = true).
Proof.
  intros Halg.
  destruct (get_healthy_servers self) as [|x l] eqn:E.
  - rewrite (select_server_nil self E). cbn [fst].
    split; [eexists; reflexivity |]. split; [tauto | discriminate].
  - destruct (select_server_some_unweighted self Halg) as (s & Hin & Hsel);
      [congruence |].
    rewrite Hsel. split; [eexists; reflexivity |].
    split; [split; discriminate |].
    intros r [= <-]. rewrite healthy_selected_as.
    rewrite E in Hin. split.
    + apply in_map_iff. exists s. split; [| exact Hin].
      destruct (current_algorithm self); reflexivity.
    + rewrite <- E in Hin. unfold get_healthy_servers in Hin.
      apply filter_In in Hin. tauto.
Qed.

Lemma select_server_answers_witness :
  let self := with_round_robin_index
                (set_algorithm (example_registry false true true) ROUND_ROBIN) (-4) in
  current_algorithm self <> WEIGHTED_ROUND_ROBIN /\
  (exists r, fst (select_server self) = Ok r) /\
  (fst (select_server self) = Ok None <-> get_healthy_servers self = []) /\
  (forall r, fst (select_server self) = Ok (Some r) ->
             In (server_id r) (map server_id (get_healthy_servers self)) /\
             healthy r = true).
Proof.
  cbv zeta. split; [discriminate |].
  apply (select_server_answers
           (with_round_robin_index
              (set_algorithm (example_registry false true true) ROUND_ROBIN) (-4))).
  discriminate.
Defined.

End Answer.

(** ** Packets *)

Section PacketIn.

Lemma getitem_first {A : Type} (l : list A) :
  getitem l 0 = match l with [] => Raise IndexError | x :: _ => Ok x end.
Proof. destruct l; reflexivity. Qed.

Lemma selected_as_ip (algorithm : LoadBalancingAlgorithm) (s : ServerMetrics) :
  ip (selected_as algorithm s) = ip s.
Proof. destruct algorithm; reflexivity. Qed.

Lemma flow_mods_app (a b : list effect) : flow_mods (a ++ b) = flow_mods a ++ flow_mods b.
Proof. unfold flow_mods. apply flat_map_app. Qed.

Lemma flow_mods_install (self : SDNLoadBalancer) (datapath in_port : Z)
  (client_ip : string) (server : ServerMetrics) :
  flow_mods (_install_load_balance_flow self datapath in_port client_ip server)
  = [forward_rule datapath in_port client_ip (virtual_ip self) (ip server);
     return_rule datapath in_port client_ip (virtual_ip self) (ip server)].
Proof. reflexivity. Qed.


(** X14.  With a load balancer configured whose selection does not
    raise, a packet with an Ethernet header that is not LLDP is flooded, as
    the last thing the handler does.  Before that, rules are installed in
    one case only: the packet is IPv4 to the virtual address and some
    server is healthy; then the forward and the return rule for the address
    of one healthy server are installed, and one request is counted for
    that server under the current policy.  (The rules carry the address
    only: servers that share an address are not told apart by them.) *)
Theorem packet_in_handler_effects
  (self : SDNLoadBalancer) (lb : LoadBalancer) (ev : PacketIn)
  (ethertype : Z) (rest : list Z) :
  load_balancer self = Some lb ->
  (exists r, fst (select_server lb) = Ok r) ->
  get_ethernets (ev_pkt ev) = ethertype :: rest ->
  ethertype <> ETH_TYPE_LLDP ->
  exists installed,
    snd (packet_in_handler self ev) = installed ++ [flood_packet ev] /\
    (installed <> [] <->
     ethertype = ETH_TYPE_IP /\
     (exists client_ip, get_ipv4 (ev_pkt ev) = Some (client_ip, virtual_ip self)) /\
     get_healthy_servers lb <> []) /\
    (installed <> [] ->
     exists s client_ip,
       In s (get_healthy_servers lb) /\
       get_ipv4 (ev_pkt ev) = Some (client_ip, virtual_ip self) /\
       installed
       = [SendMsg (forward_rule (ev_datapath ev) (ev_in_port ev) client_ip
                     (virtual_ip self) (ip s));
          SendMsg (return_rule (ev_datapath ev) (ev_in_port ev) client_ip
                     (virtual_ip self) (ip s));
          CounterInc (server_id s) (algorithm_value (current_algorithm lb))]).
Proof.
  intros Hlb [r Hr] Heth Hlldp. unfold packet_in_handler.
  rewrite Hlb, getitem_first, Heth. cbv zeta.
  destruct (Z.eqb_spec ethertype ETH_TYPE_LLDP) as [E | _]; [contradiction |].
  fold (flood_packet ev).
  destruct (Z.eqb_spec ethertype ETH_TYPE_IP) as [Hip | Hip];
    [| exists []; cbn [snd app]; split; [reflexivity |];
       split; [split; [congruence | tauto] | congruence]].
  destruct (get_ipv4 (ev_pkt ev)) as [[src dst]|];
    [| exists []; cbn [snd app]; split; [reflexivity |];
       split; [split; [congruence | intros (_ & [c Hc] & _); discriminate] | congruence]].
  destruct (String.eqb_spec dst (virtual_ip self)) as [-> | Hdst];
    [| exists []; cbn [snd app]; split; [reflexivity |];
       split; [split; [congruence | intros (_ & [c Hc] & _); congruence] | congruence]].
  destruct (select_server_fields lb) as (_ & Halg & _).
  destruct (select_server lb) as [r0 lb'] eqn:Esel.
  cbn [fst snd] in Hr, Halg. subst r0. destruct r as [server|].
  - destruct (select_server_from_healthy lb lb' server Esel) as (s & Hin & ->).
    rewrite Halg.
    exists [SendMsg (forward_rule (ev_datapath ev) (ev_in_port ev) src
                       (virtual_ip self) (ip s));
            SendMsg (return_rule (ev_datapath ev) (ev_in_port ev) src
                       (virtual_ip self) (ip s));
            CounterInc (server_id s) (algorithm_value (current_algorithm lb))].
    split.
    + cbn [snd]. unfold _install_load_balance_flow, add_flow, forward_rule, return_rule.
      rewrite selected_as_ip.
      replace (server_id (selected_as (current_algorithm lb) s)) with (server_id s)
        by (destruct (current_algorithm lb); reflexivity).
      reflexivity.
    + split.
      * split; [intros _ | discriminate].
        split; [exact Hip |]. split; [exists src; reflexivity |].
        intros Hnil. rewrite Hnil in Hin. destruct Hin.
      * intros _. exists s, src. auto.
  - exists []. cbn [snd app]. split; [reflexivity |].
    split; [| congruence]. split; [congruence |].
    intros (_ & _ & Hne). exfalso.
    destruct (select_server_some lb Hne) as (s & _ & Hs).
    rewrite Esel in Hs. discriminate.
Qed.

Lemma packet_in_handler_effects_witness :
  let self := {| load_balancer := Some (example_registry false true true);
                 virtual_ip := "10.0.0.100"; virtual_port := 80 |} in
  let ev := {| ev_datapath := 1; ev_in_port := 3; ev_buffer_id := 7; ev_data := "";
               ev_pkt := [ethernet ETH_TYPE_IP; ipv4 "10.0.0.1" "10.0.0.100"] |} in
  load_balancer self = Some (example_registry false true true) /\
  (exists r, fst (select_server (example_registry false true true)) = Ok r) /\
  get_ethernets (ev_pkt ev) = [ETH_TYPE_IP] /\
  ETH_TYPE_IP <> ETH_TYPE_LLDP /\
  exists installed,
    snd (packet_in_handler self ev) = installed ++ [flood_packet ev] /\
    (installed <> [] <->
     ETH_TYPE_IP = ETH_TYPE_IP /\
     (exists client_ip, get_ipv4 (ev_pkt ev) = Some (client_ip, virtual_ip self)) /\
     get_healthy_servers (example_registry false true true) <> []) /\
    (installed <> [] ->
     exists s client_ip,
       In s (get_healthy_servers (example_registry false true true)) /\
       get_ipv4 (ev_pkt ev) = Some (client_ip, virtual_ip self) /\
       installed
       = [SendMsg (forward_rule (ev_datapath ev) (ev_in_port ev) client_ip
                     (virtual_ip self) (ip s));
          SendMsg (return_rule (ev_datapath ev) (ev_in_port ev) client_ip
                     (virtual_ip self) (ip s));
          CounterInc (server_id s)
            (algorithm_value (current_algorithm (example_registry false true true)))]).
Proof.
  cbv zeta.
  split; [reflexivity |]. split; [eexists; reflexivity |].
  split; [reflexivity |]. split; [discriminate |].
  apply (packet_in_handler_effects
           {| load_balancer := Some (example_registry false true true);
              virtual_ip := "10.0.0.100"; virtual_port := 80 |}
           (example_registry false true true)
           {| ev_datapath := 1; ev_in_port := 3; ev_buffer_id := 7; ev_data := "";
              ev_pkt := [ethernet ETH_TYPE_IP; ipv4 "10.0.0.1" "10.0.0.100"] |}
           ETH_TYPE_IP []).
  - reflexivity.
  - eexists. reflexivity.
  - reflexivity.
  - discriminate.
Defined.

End PacketIn.

(** ** The management API *)

Section ManagementApi.

Lemma algorithm_of_value_value (a : LoadBalancingAlgorithm) :
  algorithm_of_value (algorithm_value a) = Some a.
Proof. destruct a; reflexivity. Qed.

Lemma algorithm_of_value_Some (name : string) (a : LoadBalancingAlgorithm) :
  algorithm_of_value name = Some a -> name = algorithm_value a.
Proof.
  unfold algorithm_of_value.
  repeat match goal with
         | |- context [String.eqb name ?v] =>
             destruct (String.eqb_spec name v) as [-> | _]
         end; intros [= <-]; reflexivity.
Qed.

(** X15.  A POST to [/api/algorithm] accepts exactly the four names of the
    enumeration.  With one of them the policy is switched, the registry,
    the request counts and the cursor staying as they are, and a GET that
    follows answers the posted name; with anything else the answer is 400
    and nothing has changed. *)
Theorem manage_algorithm_post
  (self : SDNLoadBalancer) (lb : LoadBalancer) (name : option string) :
  load_balancer self = Some lb ->
  (forall a, name = Some (algorithm_value a) ->
     let self' := with_load_balancer self (set_algorithm lb a) in
     manage_algorithm self POST name
     = (JsonUpdated (algorithm_value a), self', Some (algorithm_value a)) /\
     manage_algorithm self' GET None
     = (JsonAlgorithm (algorithm_value a), self', None) /\
     servers (set_algorithm lb a) = servers lb /\
     request_counts (set_algorithm lb a) = request_counts lb /\
     round_robin_index (set_algorithm lb a) = round_robin_index lb) /\
  ((forall a, name <> Some (algorithm_value a)) ->
   manage_algorithm self POST name = (JsonError 400, self, None)).
Proof.
  intros Hlb. split.
  - intros a ->. cbv zeta. unfold manage_algorithm.
    rewrite Hlb, algorithm_of_value_value. cbn [load_balancer with_load_balancer].
    repeat split.
  - intros Hno. unfold manage_algorithm. rewrite Hlb.
    destruct name as [name|]; [| reflexivity].
    destruct (algorithm_of_value name) as [a|] eqn:E; [| reflexivity].
    apply algorithm_of_value_Some in E. subst name.
    exfalso. apply (Hno a). reflexivity.
Qed.

Lemma manage_algorithm_post_witness :
  let self := {| load_balancer := Some (example_registry true true true);
                 virtual_ip := "10.0.0.100"; virtual_port := 80 |} in
  let lb := example_registry true true true in
  load_balancer self = Some lb /\
  (forall a, Some "latency_weighted"%string = Some (algorithm_value a) ->
     let self' := with_load_balancer self (set_algorithm lb a) in
     manage_algorithm self POST (Some "latency_weighted"%string)
     = (JsonUpdated (algorithm_value a), self', Some (algorithm_value a)) /\
     manage_algorithm self' GET None
     = (JsonAlgorithm (algorithm_value a), self', None) /\
     servers (set_algorithm lb a) = servers lb /\
     request_counts (set_algorithm lb a) = request_counts lb /\
     round_robin_index (set_algorithm lb a) = round_robin_index lb) /\
  ((forall a, Some "latency_weighted"%string <> Some (algorithm_value a)) ->
   manage_algorithm self POST (Some "latency_weighted"%string)
   = (JsonError 400, self, None)).
Proof.
  cbv zeta. split; [reflexivity |].
  apply (manage_algorithm_post
           {| load_balancer := Some (example_registry true true true);
              virtual_ip := "10.0.0.100"; virtual_port := 80 |}
           (example_registry true true true)
           (Some "latency_weighted"%string)).
  reflexivity.
Defined.

End ManagementApi.

(** ** Start-up *)

Section StartUp.



End StartUp.

(** ** The configured list, written and read back *)

Section RoundTrip.

Local Open Scope string_scope.
Local Open Scope Z_scope.

Ltac eval_digit :=
  match goal with
  | |- context [PyStr.digit_of ?c] =>
      let v := eval vm_compute in (PyStr.digit_of c) in
      change (PyStr.digit_of c) with v
  end; cbv iota.

Lemma digits_of_uint_acc (u : Decimal.uint) (p : positive) :
  PyStr.digits (Z.pos p) true (NilEmpty.string_of_uint u)
  = Some (Z.pos (Pos.of_uint_acc u p)).
Proof.
  revert p. induction u; intros p; cbn [NilEmpty.string_of_uint Pos.of_uint_acc];
    [reflexivity | ..];
    cbn [PyStr.digits]; eval_digit; rewrite <- IHu; f_equal; lia.
Qed.

Lemma digits_of_uint (u : Decimal.uint) :
  PyStr.digits 0 true (NilEmpty.string_of_uint u) = Some (Z.of_uint u).
Proof.
  unfold Z.of_uint.
  induction u; cbn [NilEmpty.string_of_uint Pos.of_uint]; [reflexivity | ..];
    cbn [PyStr.digits]; eval_digit; [exact IHu | ..]; apply digits_of_uint_acc.
Qed.

Lemma digits_first (b : bool) (u : Decimal.uint) :
  u <> Decimal.Nil ->
  PyStr.digits 0 b (NilEmpty.string_of_uint u)
  = PyStr.digits 0 true (NilEmpty.string_of_uint u).
Proof. destruct u; [congruence | ..]; intros _; reflexivity. Qed.

Lemma no_space_uint (u : Decimal.uint) : no_space (NilEmpty.string_of_uint u) = true.
Proof. induction u; simpl; auto. Qed.

Lemma no_comma_uint (u : Decimal.uint) : no_comma (NilEmpty.string_of_uint u) = true.
Proof. induction u; simpl; auto. Qed.

Lemma is_int_space_is_space (c : ascii) :
  PyStr.is_int_space c = true -> PyStr.is_space c = true.
Proof.
  unfold PyStr.is_int_space, PyStr.is_space. cbv zeta.
  destruct (Nat.leb_spec 9 (nat_of_ascii c)), (Nat.leb_spec (nat_of_ascii c) 13);
    cbn [andb orb]; try reflexivity;
    intros E; apply Nat.eqb_eq in E; rewrite E; reflexivity.
Qed.

Lemma no_space_ends (p : ascii -> bool) (s : string) :
  (forall c, p c = true -> PyStr.is_space c = true) ->
  no_space s = true ->
  starts_with p s = false /\ ends_with p s = false.
Proof.
  intros Hp. induction s as [|c s IH]; [split; reflexivity |].
  cbn [no_space starts_with ends_with]. intros H.
  apply andb_prop in H. destruct H as [Hc Hs].
  assert (Hpc : p c = false).
  { destruct (p c) eqn:E; [| reflexivity].
    rewrite (Hp c E) in Hc. discriminate. }
  split; [exact Hpc |]. destruct s; [exact Hpc | apply IH, Hs].
Qed.

Lemma to_uint_shape (n : Z) :
  exists u, u <> Decimal.Nil /\
    (Z.to_int n = Decimal.Pos u \/ Z.to_int n = Decimal.Neg u).
Proof.
  destruct n as [|p|p]; cbn [Z.to_int].
  - exists (Decimal.D0 Decimal.Nil). split; [discriminate | auto].
  - exists (Pos.to_uint p). split; [apply Unsigned.to_uint_nonnil | auto].
  - exists (Pos.to_uint p). split; [apply Unsigned.to_uint_nonnil | auto].
Qed.

Lemma string_of_uint_nonnil (u : Decimal.uint) :
  u <> Decimal.Nil -> NilZero.string_of_uint u = NilEmpty.string_of_uint u.
Proof. destruct u; [congruence | ..]; reflexivity. Qed.

Lemma no_space_str_of_int (n : Z) : no_space (str_of_int n) = true.
Proof.
  unfold str_of_int, NilZero.string_of_int, NilZero.string_of_uint.
  destruct (Z.to_int n) as [d | d]; destruct d; simpl;
    try reflexivity; apply no_space_uint.
Qed.

Lemma no_comma_str_of_int (n : Z) : no_comma (str_of_int n) = true.
Proof.
  unfold str_of_int, NilZero.string_of_int, NilZero.string_of_uint.
  destruct (Z.to_int n) as [d | d]; destruct d; simpl;
    try reflexivity; apply no_comma_uint.
Qed.

Lemma str_of_int_nonempty (n : Z) : str_of_int n <> "".
Proof.
  unfold str_of_int, NilZero.string_of_int, NilZero.string_of_uint.
  destruct (Z.to_int n) as [d | d]; destruct d; discriminate.
Qed.

(** [int] reads back what [str] writes. *)
Lemma int_of_str_str_of_int (n : Z) : PyStr.int_of_str (str_of_int n) = Some n.
Proof.
  unfold PyStr.int_of_str.
  destruct (no_space_ends PyStr.is_int_space (str_of_int n)
              is_int_space_is_space (no_space_str_of_int n)) as [Hstart Hend].
  rewrite (lstrip_chars_start _ _ Hstart), (rstrip_chars_end _ _ Hend).
  pose proof (of_to n) as Hn. unfold str_of_int.
  destruct (to_uint_shape n) as (u & Hu & [E | E]); rewrite E in *;
    cbn [NilZero.string_of_int Z.of_int] in *;
    rewrite (string_of_uint_nonnil u Hu).
  - transitivity (PyStr.digits 0 false (NilEmpty.string_of_uint u)).
    + destruct u; [congruence | ..]; reflexivity.
    + rewrite (digits_first false u Hu), digits_of_uint, Hn. reflexivity.
  - cbn [Ascii.eqb Bool.eqb].
    rewrite (digits_first false u Hu), digits_of_uint. cbn [option_map].
    rewrite Hn. reflexivity.
Qed.

Lemma strip_server_id (ip : string) (port : Z) :
  match ip with
  | EmptyString => true
  | String c _ => negb (PyStr.is_space c)
  end = true ->
  PyStr.strip (format_server_id ip port) = format_server_id ip port.
Proof.
  intros Hfirst. unfold PyStr.strip, format_server_id.
  apply strip_chars_iff. exists "", "".
  rewrite starts_with_server_id, ends_with_server_id.
  split; [cbn [append]; rewrite string_app_nil_r; reflexivity |].
  split; [reflexivity |]. split; [reflexivity |]. split.
  - destruct ip as [|c ip]; [reflexivity |]. cbn [starts_with].
    destruct (PyStr.is_space c); [discriminate | reflexivity].
  - apply (no_space_ends PyStr.is_space (str_of_int port));
      [auto | apply no_space_str_of_int].
Qed.

Lemma parse_server_format (ip : string) (port : Z) :
  plain_address ip = true ->
  parse_server (format_server_id ip port) = Some (ip, port).
Proof.
  unfold plain_address. intros H.
  apply andb_prop in H. destruct H as [H Hfirst].
  apply andb_prop in H. destruct H as [Hcolon _].
  apply parse_server_Some. exists (str_of_int port).
  split; [apply strip_server_id, Hfirst |].
  split; [exact Hcolon |].
  split; [apply no_colon_str_of_int | apply int_of_str_str_of_int].
Qed.

Lemma no_comma_app (s t : string) :
  no_comma (s ++ t) = no_comma s && no_comma t.
Proof.
  induction s as [|c s IH]; [reflexivity |]. cbn [append no_comma].
  rewrite IH. apply andb_assoc.
Qed.

Lemma no_comma_server_id (ip : string) (port : Z) :
  plain_address ip = true -> no_comma (format_server_id ip port) = true.
Proof.
  unfold plain_address, format_server_id. intros H.
  apply andb_prop in H. destruct H as [H _].
  apply andb_prop in H. destruct H as [_ Hcomma].
  rewrite no_comma_app, Hcomma. cbn [append no_comma].
  apply no_comma_str_of_int.
Qed.

Lemma concat_server_ids_nonempty (l : list (string * Z)) :
  l <> [] -> String.concat "," (configured_ids l) <> "".
Proof.
  destruct l as [|[ip port] l]; [congruence |]. intros _.
  assert (H : format_server_id ip port <> "").
  { unfold format_server_id. destruct ip; discriminate. }
  cbn [configured_ids map]. fold (configured_ids l).
  destruct (configured_ids l); cbn [String.concat]; [exact H |].
  destruct (format_server_id ip port); [congruence | discriminate].
Qed.

Lemma parse_configured_ids (l : list (string * Z)) :
  Forall (fun server => plain_address (fst server) = true) l ->
  well_formed_servers (configured_ids l) = l /\
  malformed_entries (configured_ids l) = [].
Proof.
  unfold well_formed_servers, malformed_entries.
  induction l as [|[ip port] l IH]; intros Hall; [split; reflexivity |].
  apply Forall_cons_iff in Hall. destruct Hall as [Hip Hall].
  destruct (IH Hall) as [Hw Hm].
  cbn [configured_ids map flat_map filter]. fold (configured_ids l).
  rewrite (parse_server_format ip port Hip). cbn [app].
  rewrite Hw, Hm. split; reflexivity.
Qed.

(** X17.  The configured list is read back from the server ids: when the
    variable holds the ids of a non-empty list of servers, joined by
    commas, the parser returns that list, in order and with its
    repetitions, and logs no error.  The addresses must be such that the
    id can be read at all: no colon, no comma, no whitespace in front. *)
Theorem parse_servers_round_trip (env : environ) (l : list (string * Z)) :
  l <> [] ->
  Forall (fun server => plain_address (fst server) = true) l ->
  BACKEND_SERVERS env = Some (String.concat "," (configured_ids l)) ->
  _parse_servers env = (l, []).
Proof.
  intros Hne Hall Henv. unfold _parse_servers. rewrite Henv. cbn [getenv].
  destruct (String.eqb_spec (String.concat "," (configured_ids l)) "") as [E | _];
    [exfalso; exact (concat_server_ids_nonempty l Hne E) |].
  rewrite parse_servers_loop_spec, split_comma_concat.
  - destruct (parse_configured_ids l Hall) as [-> ->]. reflexivity.
  - destruct l; [congruence | discriminate].
  - unfold configured_ids. apply Forall_map.
    eapply Forall_impl; [| exact Hall].
    intros [ip port] H. apply no_comma_server_id, H.
Qed.

Lemma parse_servers_round_trip_witness :
  let l := [("10.0.0.1", 5001); ("backend.local", 80); ("10.0.0.1", 5001)] in
  let env := {| VIRTUAL_IP := None; VIRTUAL_PORT := None;
                BACKEND_SERVERS := Some "10.0.0.1:5001,backend.local:80,10.0.0.1:5001" |} in
  _parse_servers env = (l, []).
Proof.
  cbv zeta.
  apply (parse_servers_round_trip
           {| VIRTUAL_IP := None; VIRTUAL_PORT := None;
              BACKEND_SERVERS := Some "10.0.0.1:5001,backend.local:80,10.0.0.1:5001" |}
           [("10.0.0.1", 5001); ("backend.local", 80); ("10.0.0.1", 5001)]).
  - discriminate.
  - repeat constructor.
  - reflexivity.
Defined.

End RoundTrip.

(** ** Health, as the latest check left it *)

Section LatestProbe.

Lemma run_app (self : LoadBalancer) (ops : list operation) (op : operation) :
  run self (ops ++ [op]) = perform (run self ops) op.
Proof. unfold run. rewrite fold_left_app. reflexivity. Qed.

Lemma latest_probe_app (k : string) (ops : list operation) (op : operation) :
  latest_probe k (ops ++ [op])
  = match op with
    | MonitorPass world => Some (snd (world k))
    | CheckHealth server_id _ p =>
        if String.eqb server_id k then Some p else latest_probe k ops
    | _ => latest_probe k ops
    end.
Proof. unfold latest_probe. rewrite fold_left_app. reflexivity. Qed.

(** The health flag of a descriptor is the outcome of its latest check. *)
Lemma healthy_latest_probe (l : list (string * Z)) (ops : list operation)
  (k : string) (s : ServerMetrics) :
  dict_get (servers (run (new_LoadBalancer l) ops)) k = Some s ->
  healthy s = latest_probe_ok k ops.
Proof.
  revert k s. induction ops as [|op ops IH] using rev_ind; intros k s.
  - intros Hget. apply dict_get_In, init_servers_entries in Hget.
    destruct Hget as [[] | (ip & port & _ & _ & ->)]. reflexivity.
  - rewrite run_app. unfold latest_probe_ok. rewrite latest_probe_app.
    fold (latest_probe_ok k ops).
    set (self := run (new_LoadBalancer l) ops) in *.
    destruct op as [| k' latency_ms | algorithm | world | k' start_time p];
      cbn [perform].
    + rewrite select_server_servers.
      rewrite (dict_get_map_values
                 (fun _ s => after_selection (current_algorithm self) s)).
      destruct (dict_get (servers self) k) as [s0|] eqn:E; [| discriminate].
      cbn [option_map]. intros [= <-].
      destruct (after_selection_weight_only (current_algorithm self) s0) as [_ ->].
      apply IH, E.
    + unfold record_request.
      destruct (dict_get (servers self) k') as [server|] eqn:E; [| apply IH].
      cbn [servers with_servers with_request_counts].
      destruct (String.eqb_spec k k') as [-> | Hne].
      * rewrite dict_get_set_same. intros [= <-].
        cbn [healthy set_total_requests set_last_latency_ms]. apply IH, E.
      * rewrite dict_get_set_other by exact Hne. apply IH.
    + apply IH.
    + unfold health_monitor_pass. cbn [servers with_servers].
      rewrite (dict_get_map_values
                 (fun server_id server =>
                    _check_server_health server (fst (world server_id))
                      (snd (world server_id)))).
      destruct (dict_get (servers self) k) as [s0|]; [| discriminate].
      cbn [option_map]. intros [= <-]. apply check_server_health_healthy.
    + unfold check_registered_server.
      destruct (dict_get (servers self) k') as [server|] eqn:E.
      * cbn [servers with_servers].
        destruct (String.eqb_spec k' k) as [-> | Hne].
        -- rewrite dict_get_set_same. intros [= <-].
           apply check_server_health_healthy.
        -- rewrite dict_get_set_other by congruence. apply IH.
      * destruct (String.eqb_spec k' k) as [-> | Hne]; [congruence | apply IH].
Qed.

Lemma healthy_ids_by_key (d : dict ServerMetrics) (ok : string -> bool) :
  (forall k s, In (k, s) d -> healthy s = ok k) ->
  map fst (filter (fun e => healthy (snd e)) d) = filter ok (dict_keys d).
Proof.
  induction d as [|[k s] d IH]; intros H; [reflexivity |].
  cbn [filter map dict_keys fst snd]. fold (dict_keys d).
  rewrite (H k s) by (left; reflexivity).
  destruct (ok k); cbn [map fst]; rewrite IH; auto;
    intros k' s' Hin; apply H; right; exact Hin.
Qed.

(** X18.  At any time, the healthy servers are those whose latest health
    check succeeded, together with those that have not been checked yet;
    selections, recorded requests and changes of policy never change the
    health of a server.  So a selection only ever answers a configured
    server that passed its latest check. *)
Theorem healthy_is_latest_probe (l : list (string * Z)) (ops : list operation) :
  let self := run (new_LoadBalancer l) ops in
  healthy_ids self
  = filter (fun k => latest_probe_ok k ops) (distinct (configured_ids l)) /\
  forall r,
    fst (select_server self) = Ok (Some r) ->
    In (server_id r) (configured_ids l) /\
    latest_probe_ok (server_id r) ops = true.
Proof.
  cbv zeta.
  destruct (registry_invariant_run _ ops _ (registry_invariant_new l))
    as (Hs & Hc & Hall).
  pose proof (distinct_NoDup (configured_ids l)) as Hnd.
  set (self := run (new_LoadBalancer l) ops) in *.
  assert (Hget : forall k s, In (k, s) (servers self) ->
                             dict_get (servers self) k = Some s)
    by (intros k s; apply NoDup_dict_get; rewrite Hs; exact Hnd).
  split.
  - unfold healthy_ids. rewrite <- Hs. apply healthy_ids_by_key.
    intros k s Hin. apply (healthy_latest_probe l ops), Hget, Hin.
  - intros r Hr.
    destruct (get_healthy_servers self) as [|x rest] eqn:E.
    + rewrite (select_server_nil self E) in Hr. discriminate.
    + destruct (select_server_some self) as (s & Hin & Hsel); [congruence |].
      rewrite Hsel in Hr. injection Hr as <-.
      replace (server_id (selected_as (current_algorithm self) s)) with (server_id s)
        by (destruct (current_algorithm self); reflexivity).
      unfold get_healthy_servers in Hin. apply filter_In in Hin.
      destruct Hin as [Hin Hh].
      unfold dict_values in Hin. apply in_map_iff in Hin.
      destruct Hin as ([k s'] & Heq & Hin). cbn [snd] in Heq. subst s'.
      apply Hget in Hin.
      destruct (Hall k s Hin) as (-> & _).
      split.
      * apply distinct_In. rewrite <- Hs. exact (dict_get_key _ _ _ Hin).
      * rewrite <- (healthy_latest_probe l ops _ s Hin). exact Hh.
Qed.

End LatestProbe.
